(** * The humidity (RH2M) tile pipeline of [humidity_pipeline.py]

    A shallow embedding of the [HumidityProcessor] class.  Python floats are
    binary64 values and are modelled by Rocq's primitive floats, whose
    operations are the IEEE 754 ones the interpreter performs; a missing
    humidity value is the NaN that pandas stores for it.  The file system, the
    standard output and the list of child processes started form an explicit
    [World] threaded through a small state monad.  The three collaborators the
    program does not implement (the remote Zarr store, the land mask and the
    tippecanoe executable) are variables of the section that holds the stages. *)

From Stdlib Require Import QArith Qabs Lqa.
From Stdlib Require Import ZArith List String Ascii Bool Lia Floats Sorted Permutation.
From Stdlib Require Import DecimalString DecimalZ DecimalFacts DecimalPos DecimalN.
Import ListNotations.

Local Open Scope Z_scope.
Local Open Scope list_scope.

(** ** Python strings and paths *)

Module PyStr.

(** [s.startswith(p)] and [s.endswith(p)]. *)
Definition startswith (s p : string) : bool := String.prefix p s.

Fixpoint endswith_char (s : string) (c : ascii) : bool :=
  match s with
  | EmptyString => false
  | String a EmptyString => Ascii.eqb a c
  | String _ s' => endswith_char s' c
  end.

(** [s.replace(old, new)] for a non-empty [old]: the occurrences of [old] are
    found from left to right and do not overlap.  [skip] counts the characters
    of an occurrence that are still to be dropped. *)
Fixpoint replace_aux (old new : string) (skip : nat) (s : string) : string :=
  match s with
  | EmptyString => EmptyString
  | String c s' =>
      match skip with
      | S k => replace_aux old new k s'
      | O =>
          if String.prefix old s
          then (new ++ replace_aux old new (String.length old - 1) s')%string
          else String c (replace_aux old new 0 s')
      end
  end.

Definition replace (s old new : string) : string := replace_aux old new 0 s.

Fixpoint has_char (c : ascii) (s : string) : bool :=
  match s with
  | EmptyString => false
  | String a s' => Ascii.eqb a c || has_char c s'
  end.

Definition sep : ascii := "/"%char.

(** [os.path.basename(p)]: what follows the last separator. *)
Fixpoint basename (p : string) : string :=
  match p with
  | EmptyString => EmptyString
  | String c p' =>
      if has_char sep p' then basename p'
      else if Ascii.eqb c sep then p' else p
  end.

(** [os.path.join(a, b)] of two components (posixpath). *)
Definition join (a b : string) : string :=
  if startswith b (String sep EmptyString) then b
  else if String.eqb a EmptyString || endswith_char a sep then (a ++ b)%string
  else (a ++ String sep b)%string.

(** [f"{z}"] for an integer. *)
Definition format_d (z : Z) : string := NilZero.string_of_int (Z.to_int z).

(** [f"{z:02d}"]: zero padding to width two, the sign counted in the width. *)
Definition format_02d (z : Z) : string :=
  let s := format_d z in
  if (String.length s <? 2)%nat then String "0"%char s else s.

End PyStr.

(** ** Samples, tables and features *)

(** A pandas timestamp, as far as the program looks into it. *)
Record Timestamp := { year : Z; month : Z; day : Z }.

(** One row of the flat table: the columns time, lat, lon and RH2M. *)
Record Row := { time : Timestamp; lat : float; lon : float; RH2M : float }.

(** A row of the table after [split_monthly_data] has added the columns year
    and month to it. *)
Record GRow := { sample : Row; g_year : Z; g_month : Z }.

Definition Point : Type := float * float.

(** A GeoJSON feature of type Polygon: the rings of its geometry and its four
    properties. *)
Record Feature := {
  coordinates : list (list Point);
  p_humidity : float;
  p_time : Timestamp;
  p_lat : float;
  p_lon : float }.

(** The tileserver-gl configuration; [cfg_data] maps a layer name to the
    file name under its key mbtiles, in insertion order as a Python dict. *)
Record Config := {
  paths_root : string;
  paths_mbtiles : string;
  serveStaticMaps : bool;
  formatQuality_jpeg : Z;
  formatQuality_webp : Z;
  maxSize : Z;
  pbfAlias : string;
  cfg_data : list (string * string) }.

(** [d[k] = v] on a dict kept in insertion order. *)
Fixpoint dict_set (d : list (string * string)) (k v : string) : list (string * string) :=
  match d with
  | [] => [(k, v)]
  | (k', v') :: d' => if String.eqb k' k then (k', v) :: d' else (k', v') :: dict_set d' k v
  end.

(** ** The world the program acts on *)

Inductive File :=
| CSV (columns : list string) (rows : list Row)
| GeoJSON (features : list Feature)
| MBTiles
| JSONConfig (config : Config)
| ViewerHTML.

(** The lines the program prints.  A line without data is [Line]; the others
    carry the values the format string interpolates. *)
Inductive Message :=
| Line (text : string)
| FoundTimestamps (n : nat)
| CleanedData (before after : nat)
| SavedMainDataset (path : string)
| ErrorDownloading (e : string)
| CreatedMonthlyFiles (n : nat)
| EmptyCsvFile (csv_file : string)
| InitialDataPoints (n : nat)
| NoLandPoints (csv_file : string)
| LandPoints (n total : nat)
| GridResolution (lat_res lon_res : float)
| CreatedFeatures (n : nat)
| ErrorCreatingGeoJSON (csv_file : string)
| TippecanoeFailed (stderr : string)
| ErrorConverting (e : string)
| CreatedGeoJSONFiles (n : nat)
| CreatedMBTiles (base_name : string)
| FailedMBTiles (base_name : string)
| CreatedMBTilesFiles (n : nat)
| CreatedConfig (config_file : string)
| Summary (n_monthly n_geojson n_mbtiles : nat).

Record World := {
  dirs : list string;
  files : list (string * File);
  stdout : list Message;
  processes : list (list string) }.

Definition empty_world : World :=
  {| dirs := []; files := []; stdout := []; processes := [] |}.

Fixpoint lookup (path : string) (fs : list (string * File)) : option File :=
  match fs with
  | [] => None
  | (p, f) :: fs' => if String.eqb p path then Some f else lookup path fs'
  end.

(** Opening a path for writing replaces the file or creates it. *)
Fixpoint store (path : string) (f : File) (fs : list (string * File)) : list (string * File) :=
  match fs with
  | [] => [(path, f)]
  | (p, g) :: fs' => if String.eqb p path then (p, f) :: fs' else (p, g) :: store path f fs'
  end.

(** The state monad of the stages. *)
Definition M (A : Type) : Type := World -> A * World.

Definition ret {A : Type} (a : A) : M A := fun w => (a, w).

Definition bind {A B : Type} (m : M A) (k : A -> M B) : M B :=
  fun w => let (a, w') := m w in k a w'.

Notation "x <- c ;; k" := (bind c (fun x => k))
  (at level 61, c at next level, right associativity).
Notation "c ;; k" := (bind c (fun _ => k))
  (at level 61, right associativity).

Definition print (m : Message) : M unit :=
  fun w => (tt, {| dirs := dirs w; files := files w;
                   stdout := stdout w ++ [m]; processes := processes w |}).

Definition write_file (path : string) (f : File) : M unit :=
  fun w => (tt, {| dirs := dirs w; files := store path f (files w);
                   stdout := stdout w; processes := processes w |}).

(** [os.makedirs(directory, exist_ok=True)]. *)
Definition makedirs (directory : string) : M unit :=
  fun w => (tt, {| dirs := if existsb (String.eqb directory) (dirs w)
                           then dirs w else dirs w ++ [directory];
                   files := files w; stdout := stdout w; processes := processes w |}).

Definition started (cmd : list string) : M unit :=
  fun w => (tt, {| dirs := dirs w; files := files w; stdout := stdout w;
                   processes := processes w ++ [cmd] |}).

Definition get_files : M (list (string * File)) := fun w => (files w, w).

(** ** Configuration constants of [__init__] *)

Definition ZARR_URL : string :=
  "s3://nasa-power/merra2/temporal/power_merra2_monthly_temporal_utc.zarr".
Definition VARIABLE : string := "RH2M".
Definition OUTPUT_DIR : string := "humidity_data_output".
Definition MBTILES_DIR : string := "humidity_mbtiles_output".

Definition sample_columns : list string := ["time"; "lat"; "lon"; VARIABLE]%string.

Definition HumidityProcessor_init : M unit :=
  makedirs OUTPUT_DIR ;;
  makedirs MBTILES_DIR ;;
  print (Line "Humidity (RH2M) Data Processing Pipeline") ;;
  print (Line "Processing data from 2022-01 to 2025-05") ;;
  print (Line "============================================================").

(** ** pandas and xarray operations the stages use *)

Definition Timestamp_eqb (a b : Timestamp) : bool :=
  (year a =? year b) && (month a =? month b) && (day a =? day b).

(** The remote dataset: the labels of its time axis, each with the grid of the
    variable RH2M at that time as (lat, lon, value) cells. *)
Definition Dataset : Type := list (Timestamp * list (float * float * float)).

(** Whether the labels of a time axis are pairwise distinct (the index's
    [is_unique]). *)
Fixpoint is_unique (labels : list Timestamp) : bool :=
  match labels with
  | [] => true
  | t :: rest => negb (existsb (Timestamp_eqb t) rest) && is_unique rest
  end.

(** [ds[VARIABLE].sel(time=times)]: the slices whose label is one of [times].
    The labels are looked up in the index of the time axis, which pandas does
    only in an index without a repeated label: on an axis with a repeated
    label the call raises. *)
Definition sel (ds : Dataset) (times : list Timestamp) : Dataset + string :=
  if is_unique (map fst ds)
  then inl (filter (fun slice => existsb (Timestamp_eqb (fst slice)) times) ds)
  else inr "Reindexing only valid with uniquely valued Index objects"%string.

(** [da.to_dataframe().reset_index()]: one row per cell, time outermost. *)
Definition to_dataframe (da : Dataset) : list Row :=
  flat_map (fun slice =>
    map (fun cell => {| time := fst slice; lat := fst (fst cell);
                        lon := snd (fst cell); RH2M := snd cell |}) (snd slice)) da.

(** [pd.isna] on a float. *)
Definition isna (x : float) : bool := is_nan x.

(** [df.dropna(subset=[VARIABLE])]. *)
Definition dropna (df : list Row) : list Row :=
  filter (fun row => negb (isna (RH2M row))) df.

(** [df[mask]] for a boolean array of the length of [df]. *)
Fixpoint boolean_index {A : Type} (df : list A) (mask : list bool) : list A :=
  match df, mask with
  | row :: df', b :: mask' =>
      if b then row :: boolean_index df' mask' else boolean_index df' mask'
  | _, _ => []
  end.

(** Equality of two floats as keys of the hash table behind [Series.unique]:
    numeric equality, and NaN equal to NaN. *)
Definition same_value (a b : float) : bool :=
  (a =? b)%float || (is_nan a && is_nan b).

(** [Series.unique()]: the distinct values in order of first appearance. *)
Fixpoint unique (l : list float) : list float :=
  match l with
  | [] => []
  | x :: l' => x :: filter (fun y => negb (same_value x y)) (unique l')
  end.

(** [sorted(l)] on floats: a stable sort by [<].  (On a list holding NaN the
    result of Python's sort depends on the order of its comparisons and is not
    this one; the theorems below that state an inferred spacing or the content
    of a document assume coordinates without NaN.) *)
Fixpoint insert (x : float) (l : list float) : list float :=
  match l with
  | [] => [x]
  | y :: l' => if (y <? x)%float then y :: insert x l' else x :: l
  end.

Definition sorted (l : list float) : list float := fold_right insert [] l.

(** [df.groupby(['year', 'month'])]: the groups in ascending order of their
    key, each with its rows in the order of the table. *)
Definition key_compare (k1 k2 : Z * Z) : comparison :=
  match fst k1 ?= fst k2 with
  | Eq => snd k1 ?= snd k2
  | c => c
  end.

Fixpoint group_insert (k : Z * Z) (row : GRow) (groups : list ((Z * Z) * list GRow))
  : list ((Z * Z) * list GRow) :=
  match groups with
  | [] => [(k, [row])]
  | (k', group) :: rest =>
      match key_compare k k' with
      | Lt => (k, [row]) :: groups
      | Eq => (k', group ++ [row]) :: rest
      | Gt => (k', group) :: group_insert k row rest
      end
  end.

Definition groupby (df : list GRow) : list ((Z * Z) * list GRow) :=
  fold_left (fun groups row => group_insert (g_year row, g_month row) row groups) df [].

Definition read_csv (path : string) : M (option (list Row)) :=
  fun w => (match lookup path (files w) with
            | Some (CSV _ rows) => Some rows
            | _ => None
            end, w).

Definition is_empty {A : Type} (l : list A) : bool :=
  match l with [] => true | _ => false end.

(** [subprocess.run(cmd, capture_output=True, text=True)] returns this. *)
Record CompletedProcess := {
  returncode : Z;
  proc_stdout : string;
  stderr : string }.

(** ** The stages of [HumidityProcessor] *)

Section Stages.

Import PyStr.

(** [xr.open_dataset(url, engine="zarr", ...)]: the dataset, or the message of
    the exception it raises. *)
Variable open_dataset : string -> Dataset + string.

(** [globe.is_land(lat, lon)] at one point. *)
Variable is_land : float -> float -> bool.

(** [subprocess.run(cmd, ...)] in the current file system: the completed
    process, or the message of the exception raised when it cannot start. *)
Variable subprocess_run : list string -> list (string * File) -> CompletedProcess + string.

Definition time_filter (t : Timestamp) : bool :=
  let start_condition := (year t >? 2021) || ((year t =? 2022) && (month t >=? 1)) in
  let end_condition := (year t <? 2025) || ((year t =? 2025) && (month t <=? 5)) in
  start_condition && end_condition.

Definition download_humidity_data : M (option (list Row)) :=
  print (Line "[STEP 1] Downloading NASA POWER RH2M Data") ;;
  print (Line "----------------------------------------") ;;
  print (Line "Opening remote Zarr store...") ;;
  match open_dataset ZARR_URL with
  | inr e => print (ErrorDownloading e) ;; ret None
  | inl ds =>
      print (Line "Remote Zarr store opened successfully") ;;
      print (Line "Filtering time range...") ;;
      let all_times := map fst ds in
      let filtered_times := filter time_filter all_times in
      if is_empty filtered_times then
        print (ErrorDownloading "No matching data found for specified date range") ;;
        ret None
      else
        print (FoundTimestamps (List.length filtered_times)) ;;
        print (Line "Extracting humidity data...") ;;
        match sel ds filtered_times with
        | inr e => print (ErrorDownloading e) ;; ret None
        | inl da_subset =>
            let df := to_dataframe da_subset in
            print (Line "Cleaning data (removing NaNs)...") ;;
            let before := List.length df in
            let df := dropna df in
            let after := List.length df in
            print (CleanedData before after) ;;
            let main_csv := join OUTPUT_DIR (VARIABLE ++ "_monthly_2022_2025.csv")%string in
            write_file main_csv (CSV sample_columns df) ;;
            print (SavedMainDataset main_csv) ;;
            ret (Some df)
        end
  end.

(** The body of the loop over the groups of [split_monthly_data]. *)
Fixpoint write_monthly (groups : list ((Z * Z) * list GRow)) (monthly_files : list string)
  : M (list string) :=
  match groups with
  | [] => ret monthly_files
  | ((year, month), group) :: rest =>
      let filename := ("humidity_" ++ format_02d month ++ "_" ++ format_d year ++ ".csv")%string in
      let filepath := join OUTPUT_DIR filename in
      let monthly_data := map sample group in
      write_file filepath (CSV sample_columns monthly_data) ;;
      write_monthly rest (monthly_files ++ [filepath])
  end.

(** Returns the table as the call leaves it (with its two new columns) and
    the list of files. *)
Definition split_monthly_data (df : list Row) : M (list GRow * list string) :=
  print (Line "[STEP 2] Splitting into Monthly Files") ;;
  print (Line "----------------------------------------") ;;
  let df := map (fun row => {| sample := row; g_year := year (time row);
                               g_month := month (time row) |}) df in
  monthly_files <- write_monthly (groupby df) [] ;;
  print (CreatedMonthlyFiles (List.length monthly_files)) ;;
  ret (df, monthly_files).

Definition lat_res_of (df_land : list Row) : float :=
  let unique_lats := sorted (unique (map lat df_land)) in
  if (1 <? List.length unique_lats)%nat
  then abs (nth 1 unique_lats nan - nth 0 unique_lats nan)
  else 0.5%float.

Definition lon_res_of (df_land : list Row) : float :=
  let unique_lons := sorted (unique (map lon df_land)) in
  if (1 <? List.length unique_lons)%nat
  then abs (nth 1 unique_lons nan - nth 0 unique_lons nan)
  else 0.625%float.

(** The feature of one row of [df_land]. *)
Definition grid_cell (lat_res lon_res : float) (row : Row) : Feature :=
  let lat := lat row in
  let lon := lon row in
  let humidity := RH2M row in
  let half_lat := (lat_res / 2)%float in
  let half_lon := (lon_res / 2)%float in
  let coordinates := [[
    (lon - half_lon, lat - half_lat);
    (lon + half_lon, lat - half_lat);
    (lon + half_lon, lat + half_lat);
    (lon - half_lon, lat + half_lat);
    (lon - half_lon, lat - half_lat) ]]%float in
  {| coordinates := coordinates; p_humidity := humidity; p_time := time row;
     p_lat := lat; p_lon := lon |}.

(** The loop over [df_land.iterrows()]. *)
Fixpoint make_features (lat_res lon_res : float) (df_land : list Row) : list Feature :=
  match df_land with
  | [] => []
  | row :: rest =>
      if isna (RH2M row) then make_features lat_res lon_res rest
      else grid_cell lat_res lon_res row :: make_features lat_res lon_res rest
  end.

Definition csv_to_geojson (csv_file output_geojson : string) : M bool :=
  read <- read_csv csv_file ;;
  match read with
  | None => print (ErrorCreatingGeoJSON csv_file) ;; ret false
  | Some df =>
      if is_empty df then print (EmptyCsvFile csv_file) ;; ret false
      else
        print (InitialDataPoints (List.length df)) ;;
        print (Line "Filtering for land points only...") ;;
        let land_mask := map (fun row => is_land (lat row) (lon row)) df in
        let df_land := boolean_index df land_mask in
        if is_empty df_land then print (NoLandPoints csv_file) ;; ret false
        else
          print (LandPoints (List.length df_land) (List.length df)) ;;
          let lat_res := lat_res_of df_land in
          let lon_res := lon_res_of df_land in
          print (GridResolution lat_res lon_res) ;;
          let features := make_features lat_res lon_res df_land in
          write_file output_geojson (GeoJSON features) ;;
          print (CreatedFeatures (List.length features)) ;;
          ret true
  end.

Definition tippecanoe_cmd (geojson_file output_mbtiles : string) : list string :=
  [ "tippecanoe";
    "-o"; output_mbtiles;
    "-z"; "10";
    "-Z"; "0";
    "--no-feature-limit";
    "--no-tile-size-limit";
    "-B0";
    "--drop-densest-as-needed";
    "--extend-zooms-if-still-dropping";
    "--force";
    geojson_file ]%string.

(** The tool is a black box: a run that exits with status zero leaves the
    archive at the path given after -o, any other run leaves no file. *)
Definition geojson_to_mbtiles_tippecanoe (geojson_file output_mbtiles : string) : M bool :=
  let cmd := tippecanoe_cmd geojson_file output_mbtiles in
  fs <- get_files ;;
  started cmd ;;
  match subprocess_run cmd fs with
  | inr e => print (ErrorConverting e) ;; ret false
  | inl result =>
      if returncode result =? 0 then write_file output_mbtiles MBTiles ;; ret true
      else print (TippecanoeFailed (stderr result)) ;; ret false
  end.

Fixpoint create_geojsons_loop (monthly_files geojson_files : list string) : M (list string) :=
  match monthly_files with
  | [] => ret geojson_files
  | csv_file :: rest =>
      let base_name := replace (basename csv_file) ".csv" "" in
      let geojson_file := join OUTPUT_DIR (base_name ++ "_land.geojson")%string in
      ok <- csv_to_geojson csv_file geojson_file ;;
      create_geojsons_loop rest (if ok then geojson_files ++ [geojson_file] else geojson_files)
  end.

Definition create_geojsons (monthly_files : list string) : M (list string) :=
  print (Line "[STEP 3] Creating GeoJSON Files") ;;
  print (Line "----------------------------------------") ;;
  geojson_files <- create_geojsons_loop monthly_files [] ;;
  print (CreatedGeoJSONFiles (List.length geojson_files)) ;;
  ret geojson_files.

Fixpoint create_mbtiles_loop (geojson_files mbtiles_files : list string) : M (list string) :=
  match geojson_files with
  | [] => ret mbtiles_files
  | geojson_file :: rest =>
      let base_name := replace (basename geojson_file) "_land.geojson" "" in
      let mbtiles_file := join MBTILES_DIR (base_name ++ "_land.mbtiles")%string in
      ok <- geojson_to_mbtiles_tippecanoe geojson_file mbtiles_file ;;
      (if ok then print (CreatedMBTiles base_name) else print (FailedMBTiles base_name)) ;;
      create_mbtiles_loop rest (if ok then mbtiles_files ++ [mbtiles_file] else mbtiles_files)
  end.

Definition create_mbtiles (geojson_files : list string) : M (list string) :=
  print (Line "[STEP 4] Creating MBTiles from GeoJSON") ;;
  print (Line "----------------------------------------") ;;
  mbtiles_files <- create_mbtiles_loop geojson_files [] ;;
  print (CreatedMBTilesFiles (List.length mbtiles_files)) ;;
  ret mbtiles_files.

(** The loop that fills [config["data"]]. *)
Fixpoint config_data (mbtiles_files : list string) (data : list (string * string))
  : list (string * string) :=
  match mbtiles_files with
  | [] => data
  | mbtiles_file :: rest =>
      let base_name := replace (basename mbtiles_file) "_land.mbtiles" "" in
      config_data rest (dict_set data (base_name ++ "_land")%string (basename mbtiles_file))
  end.

Definition tileserver_config (mbtiles_files : list string) : Config :=
  {| paths_root := "";
     paths_mbtiles := ("./" ++ MBTILES_DIR)%string;
     serveStaticMaps := true;
     formatQuality_jpeg := 90;
     formatQuality_webp := 90;
     maxSize := 8192;
     pbfAlias := "pbf";
     cfg_data := config_data mbtiles_files [] |}.

Definition create_tileserver_config (mbtiles_files : list string) : M string :=
  print (Line "[STEP 5] Creating TileServer Configuration") ;;
  print (Line "----------------------------------------") ;;
  let config := tileserver_config mbtiles_files in
  let config_file := "humidity-tileserver-config.json"%string in
  write_file config_file (JSONConfig config) ;;
  print (CreatedConfig config_file) ;;
  ret config_file.

Definition create_web_viewer : M unit :=
  write_file "humidity-viewer.html" ViewerHTML ;;
  print (Line "Created web viewer: humidity-viewer.html").

Definition run_complete_pipeline : M unit :=
  print (Line "Starting Complete Humidity Processing Pipeline") ;;
  print (Line "============================================================") ;;
  downloaded <- download_humidity_data ;;
  match downloaded with
  | None => print (Line "Pipeline failed at data download step")
  | Some df =>
      split <- split_monthly_data df ;;
      let monthly_files := snd split in
      geojson_files <- create_geojsons monthly_files ;;
      mbtiles_files <- create_mbtiles geojson_files ;;
      config_file <- create_tileserver_config mbtiles_files ;;
      create_web_viewer ;;
      print (Line "============================================================") ;;
      print (Line "PIPELINE COMPLETE!") ;;
      print (Summary (List.length monthly_files) (List.length geojson_files) (List.length mbtiles_files)) ;;
      print (Line "Next steps: start tileserver-gl, open humidity-viewer.html")
  end.

(** The script: [HumidityProcessor()] then [run_complete_pipeline()]. *)
Definition main : M unit :=
  HumidityProcessor_init ;;
  run_complete_pipeline.

End Stages.

(** What stages 2 to 5 hand on: the lists of files of each stage. *)
Record Artifacts := {
  art_monthly : list string;
  art_geojson : list string;
  art_mbtiles : list string;
  art_config : string }.

(** Steps 2 to 5 of [run_complete_pipeline], which run when the download
    returned a table. *)
Definition stages_2_to_5 (is_land : float -> float -> bool)
  (subprocess_run : list string -> list (string * File) -> CompletedProcess + string)
  (df : list Row) : M Artifacts :=
  split <- split_monthly_data df ;;
  let monthly_files := snd split in
  geojson_files <- create_geojsons is_land monthly_files ;;
  mbtiles_files <- create_mbtiles subprocess_run geojson_files ;;
  config_file <- create_tileserver_config mbtiles_files ;;
  ret {| art_monthly := monthly_files; art_geojson := geojson_files;
         art_mbtiles := mbtiles_files; art_config := config_file |}.

(** ** The names the stages derive from a group key (year, month) *)

Definition key_of (row : Row) : Z * Z := (year (time row), month (time row)).

(** [humidity_MM_YYYY], the base name of every artifact of one month. *)
Definition stem (k : Z * Z) : string :=
  ("humidity_" ++ PyStr.format_02d (snd k) ++ "_" ++ PyStr.format_d (fst k))%string.

Definition monthly_path (k : Z * Z) : string :=
  (OUTPUT_DIR ++ String PyStr.sep (stem k ++ ".csv"))%string.

Definition geojson_path (k : Z * Z) : string :=
  (OUTPUT_DIR ++ String PyStr.sep (stem k ++ "_land.geojson"))%string.

Definition mbtiles_path (k : Z * Z) : string :=
  (MBTILES_DIR ++ String PyStr.sep (stem k ++ "_land.mbtiles"))%string.

Definition layer_name (k : Z * Z) : string := (stem k ++ "_land")%string.

Definition main_csv : string :=
  PyStr.join OUTPUT_DIR (VARIABLE ++ "_monthly_2022_2025.csv")%string.

Definition config_file : string := "humidity-tileserver-config.json".

(** The rows of group [k] among [groups] (none when there is no such group). *)
Fixpoint group_rows (k : Z * Z) (groups : list ((Z * Z) * list GRow)) : list GRow :=
  match groups with
  | [] => []
  | (k', group) :: rest =>
      match key_compare k k' with
      | Eq => group
      | _ => group_rows k rest
      end
  end.

Definition key_lt (k k' : Z * Z) : Prop := key_compare k k' = Lt.

(** The rows of the flat table that fall in month [k]. *)
Definition in_month (k : Z * Z) (row : Row) : bool :=
  (year (time row) =? fst k) && (month (time row) =? snd k).

(** [df] with the two columns [split_monthly_data] adds. *)
Definition with_year_month (df : list Row) : list GRow :=
  map (fun row => {| sample := row; g_year := year (time row);
                     g_month := month (time row) |}) df.

(** Writing a list of files in order. *)
Definition store_all (entries : list (string * File)) (fs : list (string * File))
  : list (string * File) :=
  fold_left (fun fs e => store (fst e) (snd e) fs) entries fs.

Definition monthly_entry (kg : (Z * Z) * list GRow) : string * File :=
  (monthly_path (fst kg), CSV sample_columns (map sample (snd kg))).

(** The inclusive month range 2022-01 .. 2025-05, by month number. *)
Definition in_range (t : Timestamp) : bool :=
  (2022 * 12 + 1 <=? year t * 12 + month t) && (year t * 12 + month t <=? 2025 * 12 + 5).

(** The rows of a table that the land mask keeps. *)
Definition land_rows (is_land : float -> float -> bool) (df : list Row) : list Row :=
  filter (fun row => is_land (lat row) (lon row)) df.

(** The features of the geometry document of a table. *)
Definition features_of (is_land : float -> float -> bool) (df : list Row) : list Feature :=
  make_features (lat_res_of (land_rows is_land df)) (lon_res_of (land_rows is_land df))
    (land_rows is_land df).

(** The table stored at a path, as [pd.read_csv] returns it. *)
Definition table_at (fs : list (string * File)) (path : string) : option (list Row) :=
  match lookup path fs with
  | Some (CSV _ rows) => Some rows
  | _ => None
  end.

(** Whether the table stored at [path] has a row on land. *)
Definition has_land (is_land : float -> float -> bool) (fs : list (string * File))
  (path : string) : bool :=
  match table_at fs path with
  | Some df => negb (is_empty (land_rows is_land df))
  | None => false
  end.

(** The lines [csv_to_geojson] prints for a table. *)
Definition geojson_messages (is_land : float -> float -> bool) (csv_file : string)
  (read : option (list Row)) : list Message :=
  match read with
  | None => [ErrorCreatingGeoJSON csv_file]
  | Some df =>
      if is_empty df then [EmptyCsvFile csv_file]
      else if is_empty (land_rows is_land df)
      then [InitialDataPoints (List.length df); Line "Filtering for land points only...";
            NoLandPoints csv_file]
      else [InitialDataPoints (List.length df); Line "Filtering for land points only...";
            LandPoints (List.length (land_rows is_land df)) (List.length df);
            GridResolution (lat_res_of (land_rows is_land df))
                           (lon_res_of (land_rows is_land df));
            CreatedFeatures (List.length (features_of is_land df))]
  end.

(** Whether the tool, started on [geojson_file] in file system [fs], exits
    with status zero. *)
Definition tool_succeeds
  (subprocess_run : list string -> list (string * File) -> CompletedProcess + string)
  (fs : list (string * File)) (geojson_file output_mbtiles : string) : bool :=
  match subprocess_run (tippecanoe_cmd geojson_file output_mbtiles) fs with
  | inl result => returncode result =? 0
  | inr _ => false
  end.

(** The geometry document [csv_to_geojson] writes for the table at [path]. *)
Definition document_of (is_land : float -> float -> bool) (fs : list (string * File))
  (path : string) : File :=
  GeoJSON (features_of is_land (match table_at fs path with Some df => df | None => [] end)).

Definition geojson_entry (is_land : float -> float -> bool) (fs : list (string * File))
  (k : Z * Z) : string * File :=
  (geojson_path k, document_of is_land fs (monthly_path k)).

(** The months, among [ks] in order, whose run of the tool exits with status
    zero; each success leaves its archive before the next run starts. *)
Fixpoint archive_successes
  (subprocess_run : list string -> list (string * File) -> CompletedProcess + string)
  (fs : list (string * File)) (ks : list (Z * Z)) : list (Z * Z) :=
  match ks with
  | [] => []
  | k :: ks' =>
      if tool_succeeds subprocess_run fs (geojson_path k) (mbtiles_path k)
      then k :: archive_successes subprocess_run (store (mbtiles_path k) MBTiles fs) ks'
      else archive_successes subprocess_run fs ks'
  end.

(** The destination [create_mbtiles] derives for a geometry document. *)
Definition mbtiles_file_of (geojson_file : string) : string :=
  PyStr.join MBTILES_DIR
    (PyStr.replace (PyStr.basename geojson_file) "_land.geojson" "" ++ "_land.mbtiles")%string.

(** The layer name [create_tileserver_config] derives for an archive. *)
Definition layer_of (mbtiles_file : string) : string :=
  (PyStr.replace (PyStr.basename mbtiles_file) "_land.mbtiles" "" ++ "_land")%string.

Definition geojson_document (is_land : float -> float -> bool) (df : list Row)
  (k : Z * Z) : string * File :=
  (geojson_path k, GeoJSON (features_of is_land (filter (in_month k) df))).

(** The months of a table that have a row on land, in ascending order. *)
Definition land_months (is_land : float -> float -> bool) (df : list Row) : list (Z * Z) :=
  filter (fun k => negb (is_empty (land_rows is_land (filter (in_month k) df))))
    (map fst (groupby (with_year_month df))).

(** ** Exact values of binary64 numbers *)

(** The exact value of a finite binary64 number in units of 2^-1074, a whole
    number; the infinities get a value beyond every finite one, so that on
    numbers other than NaN the order of the keys is the order of the floats. *)
Definition SFord (x : spec_float) : Z :=
  match x with
  | S754_zero _ => 0
  | S754_infinity s => cond_Zopp s (2 ^ 2100)
  | S754_nan => 0
  | S754_finite s m e => cond_Zopp s (Zpos m * 2 ^ (e + 1074))
  end.

Definition ord (x : float) : Z := SFord (Prim2SF x).

(** The value a mantissa and exponent denote, in units of 2^-1074. *)
Definition units (m e : Z) : Z := m * 2 ^ (e + 1074).

(** A number that is a zero or finite. *)
Definition SFfinite (x : spec_float) : bool :=
  match x with
  | S754_zero _ | S754_finite _ _ _ => true
  | _ => false
  end.

(** What [k] right shifts of a positive mantissa [m0] keep: the quotient, the
    bit shifted out last and whether a lower bit was lost. *)
Definition shifted (m0 : Z) (k : nat) (r : shr_record) : Prop :=
  0 <= shr_m r
  /\ exists L, 0 <= L < 2 ^ Z.of_nat k
     /\ 2 * m0 = shr_m r * 2 ^ (Z.of_nat k + 1)
                 + (if shr_r r then 2 ^ Z.of_nat k else 0) + L
     /\ (shr_s r = true <-> L <> 0).

Definition ord_le (a b : float) : Prop := ord a <= ord b.

Definition no_nan (l : list float) : Prop := forall x, In x l -> is_nan x = false.

(** [lo] is a smallest value of [l] and [hi] a smallest among the values of
    [l] above [lo]: the two smallest distinct values. *)
Definition two_smallest (l : list float) (lo hi : float) : Prop :=
  In lo l /\ In hi l /\ (lo <? hi)%float = true
  /\ (forall c, In c l -> (lo <=? c)%float = true)
  /\ (forall c, In c l -> (lo <? c)%float = true -> (hi <=? c)%float = true).

(** ** Exact geometry of a ring *)

(** The exact value of a binary64 number as a rational. *)
Definition F2Q (x : float) : Q := ord x # (2 ^ 1074).

Definition exact_point (p : Point) : Q * Q := (F2Q (fst p), F2Q (snd p)).

Definition exact_ring (ring : list Point) : list (Q * Q) := map exact_point ring.

(** The shoelace sum of a ring given with its closing vertex: twice the
    signed area, positive for a counterclockwise ring. *)
Fixpoint shoelace (ring : list (Q * Q)) : Q :=
  match ring with
  | p :: (q :: _) as rest => (fst p * snd q - fst q * snd p + shoelace rest)%Q
  | _ => 0%Q
  end.

Definition signed_area (ring : list (Q * Q)) : Q := (shoelace ring / 2)%Q.

Fixpoint centroid_sums (ring : list (Q * Q)) : Q * Q :=
  match ring with
  | p :: (q :: _) as rest =>
      let cross := (fst p * snd q - fst q * snd p)%Q in
      (((fst p + fst q) * cross + fst (centroid_sums rest))%Q,
       ((snd p + snd q) * cross + snd (centroid_sums rest))%Q)
  | _ => (0%Q, 0%Q)
  end.

(** The centroid of the area a ring encloses. *)
Definition centroid (ring : list (Q * Q)) : Q * Q :=
  ((fst (centroid_sums ring) / (6 * signed_area ring))%Q,
   (snd (centroid_sums ring) / (6 * signed_area ring))%Q).

(** [p] lies on the closed segment from [a] to [b]. *)
Definition on_segment (p a b : Q * Q) : Prop :=
  exists t : Q, (0 <= t <= 1)%Q
    /\ (fst p == fst a + t * (fst b - fst a))%Q
    /\ (snd p == snd a + t * (snd b - snd a))%Q.

Definition same_point (p q : Q * Q) : Prop :=
  (fst p == fst q)%Q /\ (snd p == snd q)%Q.

Definition edges (ring : list (Q * Q)) : list ((Q * Q) * (Q * Q)) :=
  combine ring (tl ring).

(** A ring is non-self-intersecting when two of its edges meet only where
    consecutive edges share their vertex (the last edge and the first one
    being consecutive). *)
Definition non_self_intersecting (ring : list (Q * Q)) : Prop :=
  forall (i j : nat) (a b c d p : Q * Q),
    (i < j)%nat ->
    nth_error (edges ring) i = Some (a, b) ->
    nth_error (edges ring) j = Some (c, d) ->
    on_segment p a b -> on_segment p c d ->
    (j = S i /\ same_point p b)
    \/ (i = O /\ S j = List.length (edges ring) /\ same_point p a).

(** The ring SW, SE, NE, NW, SW of the rectangle with the given sides. *)
Definition rectangle (w e s n : Q) : list (Q * Q) :=
  [(w, s); (e, s); (e, n); (w, n); (w, s)].

(** Whether subtracting and adding the half spacing [half] moves the
    coordinate [c] in binary64 without overflow: [half] is positive and at
    least 2^-52 times the magnitude of [c]. *)
Definition separates (half c : float) : bool :=
  is_finite (c - half) && is_finite (c + half)
  && (0 <? ord half) && (Z.abs (ord c) <=? 2 ^ 52 * ord half).

(** ** The viewer page, lookups and directories *)

(** Calendar order of two timestamps by (year, month). *)
Definition month_le (a b : Timestamp) : Prop :=
  year a < year b \/ (year a = year b /\ month a <= month b).

Definition viewer_file : string := "humidity-viewer.html".

(** The table the fetcher builds from a store: the cells of the slices whose
    label passes the time filter, without those that lack a value. *)
Definition fetched_table (ds : Dataset) : list Row :=
  dropna (to_dataframe (filter (fun slice => time_filter (fst slice)) ds)).

(** The viewer page: the values of its year and month selectors, and the
    layer id [updateLayer] builds from a selection. *)
Definition year_options : list string := ["2022"; "2023"; "2024"; "2025"]%string.
Definition month_options : list string :=
  ["01"; "02"; "03"; "04"; "05"; "06"; "07"; "08"; "09"; "10"; "11"; "12"]%string.
Definition layerId (year month : string) : string :=
  ("humidity_" ++ month ++ "_" ++ year ++ "_land")%string.

(** [d.get(k)] on a dict kept in insertion order. *)
Fixpoint dict_get (d : list (string * string)) (k : string) : option string :=
  match d with
  | [] => None
  | (k', v) :: d' => if String.eqb k' k then Some v else dict_get d' k
  end.

(** The document [create_geojsons] derives for a monthly file. *)
Definition geojson_file_of (csv_file : string) : string :=
  PyStr.join OUTPUT_DIR
    (PyStr.replace (PyStr.basename csv_file) ".csv" "" ++ "_land.geojson")%string.

(** A path directly inside directory [d]: [d], a separator and a name that
    holds no separator. *)
Definition directly_in (d p : string) : Prop :=
  exists name : string, PyStr.has_char PyStr.sep name = false
                        /\ p = (d ++ String PyStr.sep name)%string.

(** ** Concrete inputs used as examples below *)

Definition jan_2022 : Timestamp := {| year := 2022; month := 1; day := 1 |}.
Definition feb_2022 : Timestamp := {| year := 2022; month := 2; day := 1 |}.
Definition jun_2024 : Timestamp := {| year := 2024; month := 6; day := 1 |}.
Definition dec_2021 : Timestamp := {| year := 2021; month := 12; day := 1 |}.

(** A store whose only cell of January 2022 has no value. *)
Definition store_jan_missing : Dataset :=
  [ (jan_2022, [(10, 20, nan)]%float);
    (feb_2022, [(10, 20, 75.5)]%float) ].

Definition jul_2024 : Timestamp := {| year := 2024; month := 7; day := 1 |}.

(** A table of two months: June 2024 with one sample on land, July 2024 with
    one sample at sea, for the land mask [example_land]. *)
Definition row_jun : Row := {| time := jun_2024; lat := 10; lon := 20; RH2M := 75.5 |}.
Definition row_jul : Row := {| time := jul_2024; lat := 0; lon := 60; RH2M := 80 |}.
Definition example_table : list Row := [row_jun; row_jul].

Definition example_land (lat lon : float) : bool := (lat =? 10)%float.

(** A tool that always exits with status zero. *)
Definition tool_ok (cmd : list string) (fs : list (string * File))
  : CompletedProcess + string :=
  inl {| returncode := 0; proc_stdout := ""; stderr := "" |}.

(** A store with no timestamp in the requested range. *)
Definition store_out_of_range : Dataset :=
  [ (dec_2021, [(10, 20, 75.5)]%float) ].

(** Two samples on land whose longitudes are neighbouring binary64 numbers:
    100 and the next number above it. *)
Definition row_east : Row :=
  {| time := jun_2024; lat := 10; lon := 100; RH2M := 50 |}.
Definition row_east_next : Row :=
  {| time := jun_2024; lat := 10.5; lon := 0x1.9000000000001p+6; RH2M := 50 |}.
Definition close_table : list Row := [row_east; row_east_next].

Definition all_land (lat lon : float) : bool := true.

(** The ring the program computes for [row_east] in [close_table]. *)
Definition collapsed_ring : list Point :=
  [(100, 9.75); (100, 9.75); (100, 10.25); (100, 10.25); (100, 9.75)]%float.

(** A tool that is not installed: starting it raises. *)
Definition tool_absent (cmd : list string) (fs : list (string * File))
  : CompletedProcess + string :=
  inr "No such file or directory: tippecanoe"%string.

(** A store holding June 2024: one cell on land for [example_land], one at
    sea. *)
Definition store_june : Dataset :=
  [ (jun_2024, [(10, 20, 75.5); (0, 60, 80)]%float) ].

(** A store whose time axis holds the label of June 2024 twice. *)
Definition store_repeated : Dataset :=
  [ (jun_2024, [(10, 20, 75.5)]%float); (jun_2024, [(10, 20, 80)]%float) ].

(** The characters of a formatted integer. *)
Definition numeric (c : ascii) : bool :=
  existsb (fun d => Ascii.eqb d c)
    ["0"; "1"; "2"; "3"; "4"; "5"; "6"; "7"; "8"; "9"; "-"]%char.

(** * Properties *)

(** ** Strings, formatted integers and paths *)

Module PyStrFacts.
Import PyStr.

Local Open Scope string_scope.
Local Arguments Ascii.eqb : simpl never.

Lemma prefix_app (p r : string) : String.prefix p (p ++ r) = true.
Proof.
  induction p as [|c p IH]; simpl.
  - destruct r; reflexivity.
  - destruct (ascii_dec c c) as [_|n]; [exact IH | congruence].
Qed.

Lemma prefix_inv (p s : string) :
  String.prefix p s = true -> exists r, s = p ++ r.
Proof.
  revert s; induction p as [|c p IH]; intros s H.
  - exists s; reflexivity.
  - destruct s as [|d s]; simpl in H; [discriminate|].
    destruct (ascii_dec c d) as [->|_]; [|discriminate].
    destruct (IH _ H) as [r ->]. exists r; reflexivity.
Qed.

Lemma append_nil_r (s : string) : s ++ "" = s.
Proof. induction s; simpl; congruence. Qed.

Lemma append_assoc (a b c : string) : (a ++ b) ++ c = a ++ (b ++ c).
Proof. induction a; simpl; congruence. Qed.

Lemma length_append (a b : string) :
  String.length (a ++ b) = (String.length a + String.length b)%nat.
Proof. induction a; simpl; congruence. Qed.

Lemma has_char_app (c : ascii) (a b : string) :
  has_char c (a ++ b) = has_char c a || has_char c b.
Proof.
  induction a as [|x a IH]; simpl; [reflexivity|].
  rewrite IH, orb_assoc; reflexivity.
Qed.

(** A string is cut in one way only at the first occurrence of a character. *)
Lemma split_first (c : ascii) (a a' r r' : string) :
  has_char c a = false -> has_char c a' = false ->
  a ++ String c r = a' ++ String c r' -> a = a' /\ r = r'.
Proof.
  revert a'; induction a as [|x a IH]; intros [|x' a'] Ha Ha' E; simpl in *.
  - injection E as E; auto.
  - injection E as E1 E2; subst x'.
    rewrite Ascii.eqb_refl in Ha'; discriminate.
  - injection E as E1 E2; subst x.
    rewrite Ascii.eqb_refl in Ha; discriminate.
  - injection E as E1 E2; subst x'.
    apply orb_false_elim in Ha as [_ Ha], Ha' as [_ Ha'].
    destruct (IH _ Ha Ha' E2) as [-> ->]; auto.
Qed.

Lemma replace_aux_skip_all (old new s : string) (k : nat) :
  (String.length s <= k)%nat -> replace_aux old new k s = "".
Proof.
  revert k; induction s as [|c s IH]; intros k H; simpl in *; [reflexivity|].
  destruct k; [lia|]. apply IH; lia.
Qed.

Lemma replace_self (old : string) :
  old <> "" -> replace_aux old "" 0 old = "".
Proof.
  intros Hne.
  assert (Hp : String.prefix old old = true).
  { rewrite <- (append_nil_r old) at 2. apply prefix_app. }
  destruct old as [|y t]; [contradiction|].
  cbn [replace_aux]. rewrite Hp. simpl.
  apply replace_aux_skip_all. lia.
Qed.

Lemma replace_suffix (c : ascii) (pre post stem : string) :
  has_char c pre = false -> has_char c stem = false ->
  replace (stem ++ pre ++ String c post) (pre ++ String c post) "" = stem.
Proof.
  intros Hpre Hstem. unfold replace.
  induction stem as [|x stem IH].
  - simpl. apply replace_self. destruct pre; discriminate.
  - simpl in Hstem. apply orb_false_elim in Hstem as [Hx Hstem].
    cbn [append replace_aux].
    destruct (String.prefix (pre ++ String c post) (String x (stem ++ pre ++ String c post))) eqn:P.
    + exfalso. apply prefix_inv in P as [r P].
      rewrite append_assoc in P. cbn [append] in P.
      change (String x (stem ++ pre ++ String c post))
        with ((String x stem) ++ pre ++ String c post) in P.
      rewrite <- append_assoc in P.
      apply split_first in P as [P _]; auto.
      * apply (f_equal String.length) in P. rewrite length_append in P.
        simpl in P. lia.
      * rewrite has_char_app. simpl. rewrite Hx, Hstem, Hpre. reflexivity.
    + f_equal. apply IH. exact Hstem.
Qed.

Lemma basename_join (d n : string) :
  has_char sep n = false -> basename (d ++ String sep n) = n.
Proof.
  intros Hn. induction d as [|c d IH]; simpl.
  - rewrite Hn. reflexivity.
  - rewrite has_char_app. simpl. rewrite orb_true_r. exact IH.
Qed.

Lemma uint_chars (c : ascii) (d : Decimal.uint) :
  numeric c = false -> has_char c (NilEmpty.string_of_uint d) = false.
Proof.
  unfold numeric; simpl; intros H.
  repeat (apply orb_false_elim in H as [? H]).
  induction d; simpl; rewrite ?IHd; auto; rewrite orb_false_r; assumption.
Qed.

Lemma format_d_chars (c : ascii) (z : Z) :
  numeric c = false -> has_char c (format_d z) = false.
Proof.
  intros H. pose proof (uint_chars c) as U.
  assert (M : Ascii.eqb "-" c = false).
  { unfold numeric in H; simpl in H.
    repeat (apply orb_false_elim in H as [? H]). assumption. }
  assert (N : forall d, has_char c (NilZero.string_of_uint d) = false).
  { intros d. destruct d; try (apply (U _ H)).
    simpl. unfold numeric in H; simpl in H.
    apply orb_false_elim in H as [H0 _]. rewrite H0. reflexivity. }
  unfold format_d. destruct (Z.to_int z); simpl; rewrite ?M; apply N.
Qed.

Lemma format_02d_chars (c : ascii) (z : Z) :
  numeric c = false -> has_char c (format_02d z) = false.
Proof.
  intros H. unfold format_02d.
  destruct (String.length (format_d z) <? 2)%nat; simpl;
    rewrite (format_d_chars c z H); [|reflexivity].
  unfold numeric in H; simpl in H.
  apply orb_false_elim in H as [H0 _]. rewrite H0. reflexivity.
Qed.

Lemma to_int_not_nil (z : Z) :
  Z.to_int z <> Decimal.Pos Decimal.Nil /\ Z.to_int z <> Decimal.Neg Decimal.Nil.
Proof.
  destruct z; simpl; split; try discriminate;
    intros E; injection E as E; exact (Unsigned.to_uint_nonnil _ E).
Qed.

Lemma format_d_inj (z z' : Z) : format_d z = format_d z' -> z = z'.
Proof.
  unfold format_d; intros E.
  apply to_int_inj.
  destruct (to_int_not_nil z) as [A B], (to_int_not_nil z') as [A' B'].
  pose proof (NilZero.isi _ A B) as I. rewrite E in I.
  rewrite (NilZero.isi _ A' B') in I. congruence.
Qed.

(** A formatted integer that starts with the digit zero is zero. *)
Lemma format_d_leading_zero (z : Z) (s : string) :
  format_d z = String "0" s -> s = "".
Proof.
  unfold format_d. destruct z as [|p|p]; simpl.
  - intros E; injection E as E; auto.
  - intros E.
    assert (Nrm : Decimal.unorm (Pos.to_uint p) = Pos.to_uint p).
    { rewrite <- (DecimalPos.Unsigned.to_of (Pos.to_uint p)).
      rewrite DecimalPos.Unsigned.of_to. reflexivity. }
    pose proof (Unsigned.to_uint_nonnil p) as NN.
    pose proof (Unsigned.to_uint_nonzero p) as NZ.
    destruct (Pos.to_uint p) as [|u|u|u|u|u|u|u|u|u|u]; simpl in E; try discriminate.
    exfalso. rewrite unorm_D0 in Nrm.
      destruct u as [|u|u|u|u|u|u|u|u|u|u]; try congruence;
        match type of Nrm with Decimal.unorm ?v = _ =>
          assert (L : (Decimal.nb_digits (Decimal.unorm v) <= Decimal.nb_digits v)%nat)
            by (apply nb_digits_unorm; discriminate);
          rewrite Nrm in L; simpl in L; lia
        end.
  - intros E; discriminate.
Qed.

Lemma format_02d_inj (z z' : Z) : format_02d z = format_02d z' -> z = z'.
Proof.
  unfold format_02d.
  destruct (String.length (format_d z) <? 2)%nat eqn:L;
  destruct (String.length (format_d z') <? 2)%nat eqn:L'; intros E.
  - injection E as E. apply format_d_inj; assumption.
  - symmetry in E. apply format_d_leading_zero in E.
    exfalso. revert E. unfold format_d. destruct (Z.to_int z) as [d|d]; simpl; [|discriminate].
    destruct d; simpl; discriminate.
  - apply format_d_leading_zero in E.
    exfalso. revert E. unfold format_d. destruct (Z.to_int z') as [d|d]; simpl; [|discriminate].
    destruct d; simpl; discriminate.
  - apply format_d_inj; assumption.
Qed.

Lemma append_inv_head (a b c : string) : a ++ b = a ++ c -> b = c.
Proof. induction a; simpl; intros E; [assumption | injection E; auto]. Qed.

Lemma string_tail_inj (c : ascii) (a b : string) : String c a = String c b -> a = b.
Proof. intros E; injection E; auto. Qed.

Lemma stem_chars (c : ascii) (k : Z * Z) :
  numeric c = false -> has_char c "humidity_" = false -> has_char c (stem k) = false.
Proof.
  intros Hn Hh. unfold stem.
  rewrite !has_char_app, Hh, (format_02d_chars c _ Hn), (format_d_chars c _ Hn).
  simpl in Hh. repeat (apply orb_false_elim in Hh as [? Hh]).
  simpl.
  match goal with H : Ascii.eqb "_" c = false |- _ => rewrite H end.
  reflexivity.
Qed.

Lemma stem_no_dot (k : Z * Z) : has_char "." (stem k) = false.
Proof. apply stem_chars; reflexivity. Qed.

Lemma stem_no_sep (k : Z * Z) : has_char sep (stem k) = false.
Proof. apply stem_chars; reflexivity. Qed.

Lemma stem_inj (k k' : Z * Z) : stem k = stem k' -> k = k'.
Proof.
  unfold stem. intros E. apply append_inv_head in E.
  change ("_" ++ format_d (fst k)) with (String "_" (format_d (fst k))) in E.
  change ("_" ++ format_d (fst k')) with (String "_" (format_d (fst k'))) in E.
  assert (D : forall z, has_char "_" (format_02d z) = false)
    by (intros z; apply format_02d_chars; reflexivity).
  destruct (split_first _ _ _ _ _ (D _) (D _) E) as [E1 E2].
  apply format_02d_inj in E1. apply format_d_inj in E2.
  destruct k, k'; simpl in *; congruence.
Qed.

(** The file name the partitioner formats is the stem with its extension. *)
Lemma monthly_filename (year month : Z) :
  "humidity_" ++ format_02d month ++ "_" ++ format_d year ++ ".csv"
  = stem (year, month) ++ ".csv".
Proof. unfold stem. simpl. rewrite !append_assoc. reflexivity. Qed.

Lemma join_stem (d : string) (k : Z * Z) (ext : string) :
  (String.eqb d "" || endswith_char d sep) = false ->
  join d (stem k ++ ext) = d ++ String sep (stem k ++ ext).
Proof. intros H. unfold join. rewrite H. reflexivity. Qed.

Lemma monthly_path_eq (year month : Z) :
  join OUTPUT_DIR ("humidity_" ++ format_02d month ++ "_" ++ format_d year ++ ".csv")
  = monthly_path (year, month).
Proof. rewrite monthly_filename. apply join_stem. reflexivity. Qed.

Lemma basename_stem (d : string) (k : Z * Z) (ext : string) :
  has_char sep ext = false -> basename (d ++ String sep (stem k ++ ext)) = stem k ++ ext.
Proof.
  intros H. apply basename_join. rewrite has_char_app, stem_no_sep, H. reflexivity.
Qed.

(** What [create_geojsons] derives from the path of a monthly table. *)
Lemma geojson_of_monthly (k : Z * Z) :
  join OUTPUT_DIR (replace (basename (monthly_path k)) ".csv" "" ++ "_land.geojson")
  = geojson_path k.
Proof.
  unfold monthly_path. rewrite basename_stem by reflexivity.
  rewrite (replace_suffix "." "" "csv") by (try apply stem_no_dot; reflexivity).
  apply join_stem. reflexivity.
Qed.

(** What [create_mbtiles] derives from the path of a geometry document. *)
Lemma base_name_of_geojson (k : Z * Z) :
  replace (basename (geojson_path k)) "_land.geojson" "" = stem k.
Proof.
  unfold geojson_path. rewrite basename_stem by reflexivity.
  apply (replace_suffix "." "_land" "geojson"); [reflexivity | apply stem_no_dot].
Qed.

Lemma mbtiles_of_geojson (k : Z * Z) :
  join MBTILES_DIR (replace (basename (geojson_path k)) "_land.geojson" "" ++ "_land.mbtiles")
  = mbtiles_path k.
Proof. rewrite base_name_of_geojson. apply join_stem. reflexivity. Qed.

(** What [create_tileserver_config] derives from the path of an archive. *)
Lemma basename_mbtiles (k : Z * Z) :
  basename (mbtiles_path k) = stem k ++ "_land.mbtiles".
Proof. unfold mbtiles_path. apply basename_stem. reflexivity. Qed.

Lemma layer_of_mbtiles (k : Z * Z) :
  replace (basename (mbtiles_path k)) "_land.mbtiles" "" ++ "_land" = layer_name k.
Proof.
  rewrite basename_mbtiles.
  rewrite (replace_suffix "." "_land" "mbtiles") by (try apply stem_no_dot; reflexivity).
  reflexivity.
Qed.

Lemma layer_name_inj (k k' : Z * Z) : layer_name k = layer_name k' -> k = k'.
Proof.
  unfold layer_name. intros E. apply stem_inj.
  assert (H : forall a b, a ++ "_land" = b ++ "_land" -> a = b).
  { induction a as [|x a IH]; intros [|y b] E'; simpl in E'; try reflexivity.
    - apply (f_equal String.length) in E'. simpl in E'.
      rewrite length_append in E'. simpl in E'. lia.
    - apply (f_equal String.length) in E'. simpl in E'.
      rewrite length_append in E'. simpl in E'. lia.
    - injection E' as -> E'. f_equal. apply IH. assumption. }
  apply H. assumption.
Qed.

Lemma monthly_path_inj (k k' : Z * Z) : monthly_path k = monthly_path k' -> k = k'.
Proof.
  unfold monthly_path. intros E. apply append_inv_head, string_tail_inj in E.
  change (stem k ++ ".csv") with (stem k ++ String "." "csv") in E.
  change (stem k' ++ ".csv") with (stem k' ++ String "." "csv") in E.
  destruct (split_first _ _ _ _ _ (stem_no_dot k) (stem_no_dot k') E) as [E1 _].
  apply stem_inj. assumption.
Qed.

Lemma geojson_path_inj (k k' : Z * Z) : geojson_path k = geojson_path k' -> k = k'.
Proof.
  unfold geojson_path. intros E. apply append_inv_head, string_tail_inj in E.
  apply stem_inj.
  change "_land.geojson" with ("_land" ++ String "." "geojson") in E.
  rewrite <- !append_assoc in E.
  assert (D : forall j, has_char "." (stem j ++ "_land") = false)
    by (intros j; rewrite has_char_app, stem_no_dot; reflexivity).
  destruct (split_first _ _ _ _ _ (D k) (D k') E) as [E1 _].
  apply layer_name_inj in E1. congruence.
Qed.

Lemma mbtiles_path_inj (k k' : Z * Z) : mbtiles_path k = mbtiles_path k' -> k = k'.
Proof.
  unfold mbtiles_path. intros E. apply append_inv_head, string_tail_inj in E.
  apply stem_inj.
  change "_land.mbtiles" with ("_land" ++ String "." "mbtiles") in E.
  rewrite <- !append_assoc in E.
  assert (D : forall j, has_char "." (stem j ++ "_land") = false)
    by (intros j; rewrite has_char_app, stem_no_dot; reflexivity).
  destruct (split_first _ _ _ _ _ (D k) (D k') E) as [E1 _].
  apply layer_name_inj in E1. congruence.
Qed.

(** A monthly table and a geometry document never share a path. *)
Lemma monthly_not_geojson (k k' : Z * Z) : monthly_path k <> geojson_path k'.
Proof.
  unfold monthly_path, geojson_path. intros E.
  apply append_inv_head, string_tail_inj in E.
  change (stem k ++ ".csv") with (stem k ++ String "." "csv") in E.
  change "_land.geojson" with ("_land" ++ String "." "geojson") in E.
  rewrite <- append_assoc in E.
  assert (D : has_char "." (stem k' ++ "_land") = false)
    by (rewrite has_char_app, stem_no_dot; reflexivity).
  destruct (split_first _ _ _ _ _ (stem_no_dot k) D E) as [_ E2].
  discriminate.
Qed.

Lemma mbtiles_not_monthly (k k' : Z * Z) : mbtiles_path k <> monthly_path k'.
Proof. discriminate. Qed.

Lemma mbtiles_not_geojson (k k' : Z * Z) : mbtiles_path k <> geojson_path k'.
Proof. discriminate. Qed.

End PyStrFacts.

(** ** Files *)

Module WorldFacts.

Lemma lookup_store_same (p : string) (f : File) (fs : list (string * File)) :
  lookup p (store p f fs) = Some f.
Proof.
  induction fs as [|[q g] fs IH]; simpl.
  - rewrite String.eqb_refl. reflexivity.
  - destruct (String.eqb q p) eqn:E; simpl; rewrite E; auto.
Qed.

Lemma lookup_store_other (p q : string) (f : File) (fs : list (string * File)) :
  p <> q -> lookup p (store q f fs) = lookup p fs.
Proof.
  intros N. induction fs as [|[r g] fs IH]; simpl.
  - destruct (String.eqb_spec q p); [congruence | reflexivity].
  - destruct (String.eqb_spec r q) as [->|Nq]; simpl.
    + destruct (String.eqb_spec q p); [congruence | reflexivity].
    + destruct (String.eqb r p); auto.
Qed.

Lemma store_all_app (es es' : list (string * File)) (fs : list (string * File)) :
  store_all (es ++ es') fs = store_all es' (store_all es fs).
Proof. unfold store_all. apply fold_left_app. Qed.

Lemma lookup_store_all_other (p : string) (es : list (string * File)) :
  forall fs, ~ In p (map fst es) -> lookup p (store_all es fs) = lookup p fs.
Proof.
  induction es as [|[q g] es IH]; intros fs N; simpl in *; [reflexivity|].
  rewrite IH by tauto. apply lookup_store_other. intros ->. tauto.
Qed.

Lemma lookup_store_all_in (p : string) (f : File) (es : list (string * File)) :
  forall fs, NoDup (map fst es) -> In (p, f) es -> lookup p (store_all es fs) = Some f.
Proof.
  induction es as [|[q g] es IH]; intros fs D I; simpl in *; [contradiction|].
  inversion D as [|? ? Nq D']; subst.
  destruct I as [E|I].
  - injection E as -> ->. rewrite lookup_store_all_other by assumption.
    apply lookup_store_same.
  - apply IH; assumption.
Qed.

End WorldFacts.

(** ** Grouping by (year, month) *)

Module GroupFacts.

Lemma key_compare_eq (k k' : Z * Z) : key_compare k k' = Eq <-> k = k'.
Proof.
  destruct k as [y m], k' as [y' m']. unfold key_compare; simpl.
  destruct (Z.compare_spec y y') as [A|A|A];
    [destruct (Z.compare_spec m m') as [B|B|B]|..];
    split; intros Q; try discriminate; try (injection Q as Q1 Q2; lia);
    subst; reflexivity.
Qed.

Lemma key_compare_refl (k : Z * Z) : key_compare k k = Eq.
Proof. apply key_compare_eq. reflexivity. Qed.

Lemma key_lt_spec (k k' : Z * Z) :
  key_lt k k' <-> fst k < fst k' \/ (fst k = fst k' /\ snd k < snd k').
Proof.
  destruct k as [y m], k' as [y' m']. unfold key_lt, key_compare; simpl.
  destruct (Z.compare_spec y y') as [A|A|A];
    [destruct (Z.compare_spec m m') as [B|B|B]|..];
    split; intros Q; try discriminate; try lia; reflexivity.
Qed.

Lemma key_compare_gt (k k' : Z * Z) : key_compare k k' = Gt <-> key_lt k' k.
Proof.
  rewrite key_lt_spec.
  destruct k as [y m], k' as [y' m']. unfold key_compare; simpl.
  destruct (Z.compare_spec y y') as [A|A|A];
    [destruct (Z.compare_spec m m') as [B|B|B]|..];
    split; intros Q; try discriminate; try lia; reflexivity.
Qed.

Lemma key_lt_trans (a b c : Z * Z) : key_lt a b -> key_lt b c -> key_lt a c.
Proof. rewrite !key_lt_spec. lia. Qed.

Lemma key_lt_irrefl (k : Z * Z) : ~ key_lt k k.
Proof. unfold key_lt. rewrite key_compare_refl. discriminate. Qed.

Lemma in_month_key (k : Z * Z) (row : Row) : in_month k row = true <-> key_of row = k.
Proof.
  destruct k as [y m]. unfold in_month, key_of; simpl.
  rewrite andb_true_iff, !Z.eqb_eq. split; [intros [-> ->]; reflexivity|].
  intros E; injection E; auto.
Qed.

(** A key below the first key of a sorted list of groups has no group. *)
Lemma group_rows_below (k : Z * Z) (groups : list ((Z * Z) * list GRow)) :
  Forall (key_lt k) (map fst groups) -> group_rows k groups = [].
Proof.
  induction groups as [|[k' g] rest IH]; simpl; intros F; [reflexivity|].
  inversion F as [|? ? L F']; subst. unfold key_lt in L. rewrite L. auto.
Qed.

Lemma group_insert_keys (k : Z * Z) (row : GRow) (groups : list ((Z * Z) * list GRow)) :
  forall k', In k' (map fst (group_insert k row groups)) <-> k' = k \/ In k' (map fst groups).
Proof.
  induction groups as [|[k1 g] rest IH]; intros k'; simpl.
  - intuition congruence.
  - destruct (key_compare k k1) eqn:C; simpl.
    + apply key_compare_eq in C. subst. intuition congruence.
    + intuition congruence.
    + rewrite IH. intuition congruence.
Qed.

Lemma group_insert_sorted (k : Z * Z) (row : GRow) (groups : list ((Z * Z) * list GRow)) :
  StronglySorted key_lt (map fst groups) ->
  StronglySorted key_lt (map fst (group_insert k row groups)).
Proof.
  induction groups as [|[k1 g] rest IH]; simpl; intros S.
  - repeat constructor.
  - inversion S as [|? ? S' F]; subst.
    destruct (key_compare k k1) eqn:C; simpl.
    + constructor; assumption.
    + constructor; [assumption|]. constructor; [exact C|].
      eapply Forall_impl; [|exact F]. intros a. apply key_lt_trans. exact C.
    + constructor; [auto|]. apply Forall_forall. intros x I.
      apply group_insert_keys in I as [->|I].
      * apply key_compare_gt. assumption.
      * rewrite Forall_forall in F. auto.
Qed.

Lemma group_insert_rows (k : Z * Z) (row : GRow) (groups : list ((Z * Z) * list GRow)) :
  StronglySorted key_lt (map fst groups) ->
  forall k', group_rows k' (group_insert k row groups)
             = group_rows k' groups
               ++ (match key_compare k' k with Eq => [row] | _ => [] end).
Proof.
  induction groups as [|[k1 g] rest IH]; simpl; intros S k'.
  - destruct (key_compare k' k); reflexivity.
  - inversion S as [|? ? S' F]; subst.
    destruct (key_compare k k1) eqn:C; simpl.
    + apply key_compare_eq in C. subst k1.
      destruct (key_compare k' k); rewrite ?List.app_nil_r; reflexivity.
    + destruct (key_compare k' k) eqn:C'.
      * apply key_compare_eq in C'. subst k'. rewrite C.
        rewrite group_rows_below; [reflexivity|].
        eapply Forall_impl; [|exact F]. intros a. apply key_lt_trans. exact C.
      * rewrite List.app_nil_r. reflexivity.
      * rewrite List.app_nil_r. reflexivity.
    + destruct (key_compare k' k1) eqn:C1.
      * apply key_compare_eq in C1. subst k'.
        apply key_compare_gt in C. unfold key_lt in C. rewrite C.
        rewrite List.app_nil_r. reflexivity.
      * apply IH. assumption.
      * apply IH. assumption.
Qed.

Lemma group_insert_nonempty (k : Z * Z) (row : GRow) (groups : list ((Z * Z) * list GRow)) :
  Forall (fun kg => snd kg <> []) groups ->
  Forall (fun kg => snd kg <> []) (group_insert k row groups).
Proof.
  induction groups as [|[k1 g] rest IH]; simpl; intros F.
  - repeat constructor. discriminate.
  - inversion F; subst.
    destruct (key_compare k k1); constructor; simpl; auto.
    + destruct g; discriminate.
    + discriminate.
Qed.

(** What holds of the groups built from a prefix [df] of the table. *)
Definition grouped (groups : list ((Z * Z) * list GRow)) (df : list GRow) : Prop :=
  StronglySorted key_lt (map fst groups)
  /\ Forall (fun kg => snd kg <> []) groups
  /\ forall k, group_rows k groups
              = filter (fun row => match key_compare k (g_year row, g_month row) with
                                   | Eq => true | _ => false end) df.

Lemma fold_group_insert (rest : list GRow) :
  forall groups df, grouped groups df ->
  grouped (fold_left (fun groups row => group_insert (g_year row, g_month row) row groups)
             rest groups) (df ++ rest).
Proof.
  induction rest as [|row rest IH]; intros groups df G; simpl.
  - rewrite List.app_nil_r. assumption.
  - replace (df ++ row :: rest) with ((df ++ [row]) ++ rest)
      by (rewrite <- List.app_assoc; reflexivity).
    apply IH. destruct G as (S & N & R). split; [|split].
    + apply group_insert_sorted. assumption.
    + apply group_insert_nonempty. assumption.
    + intros k. rewrite group_insert_rows by assumption.
      rewrite filter_app, R. simpl.
      destruct (key_compare k (g_year row, g_month row)); reflexivity.
Qed.

Lemma groupby_grouped (df : list GRow) : grouped (groupby df) df.
Proof.
  unfold groupby. apply (fold_group_insert df [] []).
  split; [constructor | split; [constructor | reflexivity]].
Qed.

Lemma sorted_keys_nodup (ks : list (Z * Z)) : StronglySorted key_lt ks -> NoDup ks.
Proof.
  induction 1 as [|k ks S IH F]; constructor; auto.
  intros I. rewrite Forall_forall in F. exact (key_lt_irrefl k (F _ I)).
Qed.

(** In a sorted list of groups, a group is found under its key. *)
Lemma group_rows_in (k : Z * Z) (g : list GRow) (groups : list ((Z * Z) * list GRow)) :
  StronglySorted key_lt (map fst groups) -> In (k, g) groups -> group_rows k groups = g.
Proof.
  induction groups as [|[k1 g1] rest IH]; simpl; intros S I; [contradiction|].
  inversion S as [|? ? S' F]; subst. destruct I as [E|I].
  - injection E as -> ->. rewrite key_compare_refl. reflexivity.
  - assert (L : key_lt k1 k).
    { rewrite Forall_forall in F. apply F. apply (in_map fst) in I. exact I. }
    apply key_compare_gt in L. rewrite L. auto.
Qed.

Lemma group_rows_found (k : Z * Z) (groups : list ((Z * Z) * list GRow)) :
  group_rows k groups <> [] -> In (k, group_rows k groups) groups.
Proof.
  induction groups as [|[k1 g1] rest IH]; simpl; intros N; [congruence|].
  destruct (key_compare k k1) eqn:C; auto.
  apply key_compare_eq in C. subst. auto.
Qed.

(** The groups of the table with its year and month columns, in terms of
    the rows of the table itself. *)
Lemma map_sample_filter (k : Z * Z) (df : list Row) :
  map sample (filter (fun row => match key_compare k (g_year row, g_month row) with
                                 | Eq => true | _ => false end) (with_year_month df))
  = filter (in_month k) df.
Proof.
  induction df as [|row df IH]; simpl; [reflexivity|].
  fold (key_of row).
  destruct (key_compare k (key_of row)) eqn:C.
  - apply key_compare_eq in C. symmetry in C.
    apply in_month_key in C. rewrite C. simpl. f_equal. exact IH.
  - destruct (in_month k row) eqn:I; [|exact IH].
    apply in_month_key in I. rewrite I, key_compare_refl in C. discriminate.
  - destruct (in_month k row) eqn:I; [|exact IH].
    apply in_month_key in I. rewrite I, key_compare_refl in C. discriminate.
Qed.

Lemma map_sample_with_year_month (df : list Row) : map sample (with_year_month df) = df.
Proof.
  unfold with_year_month. rewrite map_map. simpl. apply map_id.
Qed.

End GroupFacts.

(** ** Stage 2: the monthly partitioner *)

Module Partitioner.
Import PyStrFacts WorldFacts GroupFacts.

Lemma write_monthly_run (groups : list ((Z * Z) * list GRow)) :
  forall (monthly_files : list string) (w : World),
  write_monthly groups monthly_files w
  = (monthly_files ++ map (fun kg => monthly_path (fst kg)) groups,
     {| dirs := dirs w;
        files := store_all (map monthly_entry groups) (files w);
        stdout := stdout w;
        processes := processes w |}).
Proof.
  induction groups as [|[[y m] g] rest IH]; intros acc w.
  - simpl. rewrite List.app_nil_r. destruct w; reflexivity.
  - cbn [write_monthly]. unfold bind, write_file.
    rewrite IH. cbn [dirs files stdout processes map fst snd].
    rewrite monthly_path_eq, <- List.app_assoc. reflexivity.
Qed.

Lemma split_monthly_data_run (df : list Row) (w : World) :
  split_monthly_data df w
  = ((with_year_month df,
      map (fun kg => monthly_path (fst kg)) (groupby (with_year_month df))),
     {| dirs := dirs w;
        files := store_all (map monthly_entry (groupby (with_year_month df))) (files w);
        stdout := stdout w
                  ++ [Line "[STEP 2] Splitting into Monthly Files";
                      Line "----------------------------------------";
                      CreatedMonthlyFiles (List.length (groupby (with_year_month df)))];
        processes := processes w |}).
Proof.
  unfold split_monthly_data, bind, print, ret.
  fold (with_year_month df). rewrite write_monthly_run.
  cbn [dirs files stdout processes app].
  rewrite length_map, <- !List.app_assoc. reflexivity.
Qed.

Lemma monthly_entries_nodup (groups : list ((Z * Z) * list GRow)) :
  StronglySorted key_lt (map fst groups) -> NoDup (map fst (map monthly_entry groups)).
Proof.
  intros S. apply sorted_keys_nodup in S.
  rewrite map_map. simpl.
  induction groups as [|[k g] rest IH]; simpl in *; [constructor|].
  inversion S as [|? ? N D]; subst. constructor; auto.
  intros I. apply in_map_iff in I as ([k' g'] & E & I). simpl in E.
  apply monthly_path_inj in E. subst k'.
  apply N. apply (in_map fst) in I. exact I.
Qed.

(** The table of month [k] as the partitioner leaves it on disk. *)
Lemma monthly_file_content (df : list Row) (w : World) (k : Z * Z) :
  In k (map fst (groupby (with_year_month df))) ->
  lookup (monthly_path k) (files (snd (split_monthly_data df w)))
  = Some (CSV sample_columns (filter (in_month k) df)).
Proof.
  intros I. rewrite split_monthly_data_run. cbn [snd files].
  destruct (groupby_grouped (with_year_month df)) as (S & N & R).
  apply in_map_iff in I as ([k' g] & E & I). simpl in E. subst k'.
  rewrite <- map_sample_filter, <- R, (group_rows_in k g _ S I).
  apply lookup_store_all_in.
  - apply monthly_entries_nodup. assumption.
  - apply in_map_iff. exists (k, g). split; [reflexivity | assumption].
Qed.

Lemma groupby_keys (df : list Row) (k : Z * Z) :
  In k (map fst (groupby (with_year_month df)))
  <-> exists row, In row df /\ key_of row = k.
Proof.
  destruct (groupby_grouped (with_year_month df)) as (S & N & R).
  split.
  - intros I. apply in_map_iff in I as ([k' g] & E & I). simpl in E. subst k'.
    pose proof (group_rows_in k g _ S I) as G.
    rewrite Forall_forall in N. pose proof (N _ I) as Ng. simpl in Ng.
    assert (F : filter (in_month k) df = map sample g).
    { rewrite <- map_sample_filter, <- R, G. reflexivity. }
    destruct g as [|r g]; [congruence|].
    exists (sample r). rewrite <- in_month_key.
    apply filter_In. rewrite F. left. reflexivity.
  - intros (row & I & E).
    assert (F : In row (filter (in_month k) df)).
    { apply filter_In. split; [assumption|]. apply in_month_key. assumption. }
    rewrite <- map_sample_filter, <- R in F.
    apply (in_map fst (groupby (with_year_month df)) (k, group_rows k (groupby (with_year_month df)))).
    apply group_rows_found. intros Z. rewrite Z in F. contradiction.
Qed.

(** C3: the monthly files are those of the distinct (year, month) pairs of
    the table, listed in ascending order of (year, month); the file of a month
    holds exactly the rows of the table whose timestamp falls in that month, in
    the order of the table; an empty table yields no file. *)
Theorem partition_by_month (df : list Row) (w : World) :
  exists keys : list (Z * Z),
    snd (fst (split_monthly_data df w)) = map monthly_path keys
    /\ StronglySorted key_lt keys
    /\ NoDup (map monthly_path keys)
    /\ (forall k, In k keys <-> exists row, In row df /\ key_of row = k)
    /\ (forall k, In k keys ->
          lookup (monthly_path k) (files (snd (split_monthly_data df w)))
          = Some (CSV sample_columns (filter (in_month k) df)))
    /\ (df = [] -> keys = [] /\ files (snd (split_monthly_data df w)) = files w).
Proof.
  exists (map fst (groupby (with_year_month df))).
  destruct (groupby_grouped (with_year_month df)) as (S & N & R).
  repeat split.
  - rewrite split_monthly_data_run. simpl. rewrite map_map. reflexivity.
  - exact S.
  - pose proof (monthly_entries_nodup _ S) as D.
    rewrite !map_map in *. exact D.
  - apply groupby_keys.
  - apply groupby_keys.
  - apply monthly_file_content.
  - subst df. reflexivity.
  - subst df. rewrite split_monthly_data_run. reflexivity.
Qed.

(** C9: the partitioner leaves the four fields of every sample as they were
    (it only adds the columns year and month to the table), every file it
    writes is a CSV of exactly the columns time, lat, lon, RH2M whose rows are
    the rows of the input that fall in its month, and it touches no other
    file, directory or process. *)
Theorem partition_frame (df : list Row) (w : World) :
  map sample (fst (fst (split_monthly_data df w))) = df
  /\ (forall p, In p (snd (fst (split_monthly_data df w))) ->
        exists rows,
          lookup p (files (snd (split_monthly_data df w)))
          = Some (CSV ["time"; "lat"; "lon"; "RH2M"]%string rows)
          /\ exists k, p = monthly_path k /\ rows = filter (in_month k) df)
  /\ (forall p, ~ In p (snd (fst (split_monthly_data df w))) ->
        lookup p (files (snd (split_monthly_data df w))) = lookup p (files w))
  /\ dirs (snd (split_monthly_data df w)) = dirs w
  /\ processes (snd (split_monthly_data df w)) = processes w.
Proof.
  split; [|split; [|split; [|split]]].
  - rewrite split_monthly_data_run. apply map_sample_with_year_month.
  - intros p I. rewrite split_monthly_data_run in I. cbn [fst snd] in I.
    apply in_map_iff in I as ([k g] & E & I). simpl in E. subst p.
    exists (filter (in_month k) df). split.
    + apply monthly_file_content. apply (in_map fst) in I. exact I.
    + exists k. split; reflexivity.
  - intros p N. rewrite split_monthly_data_run in *. cbn [fst snd files] in *.
    apply lookup_store_all_other. rewrite map_map. exact N.
  - rewrite split_monthly_data_run. reflexivity.
  - rewrite split_monthly_data_run. reflexivity.
Qed.

End Partitioner.

(** ** Stage 1: the fetcher *)

Module Fetcher.
Import WorldFacts.

Lemma Timestamp_eqb_refl (t : Timestamp) : Timestamp_eqb t t = true.
Proof. unfold Timestamp_eqb. rewrite !Z.eqb_refl. reflexivity. Qed.

Lemma Timestamp_eqb_filter (t t' : Timestamp) :
  Timestamp_eqb t t' = true -> time_filter t = time_filter t'.
Proof.
  unfold Timestamp_eqb, time_filter. rewrite !andb_true_iff, !Z.eqb_eq.
  intros [[-> ->] _]. reflexivity.
Qed.

(** Selecting by the filtered labels keeps the slices that pass the filter,
    and raises on an axis with a repeated label. *)
Lemma sel_filtered (ds : Dataset) :
  sel ds (filter time_filter (map fst ds))
  = if is_unique (map fst ds)
    then inl (filter (fun slice => time_filter (fst slice)) ds)
    else inr "Reindexing only valid with uniquely valued Index objects"%string.
Proof.
  unfold sel. destruct (is_unique (map fst ds)); [|reflexivity]. f_equal.
  apply filter_ext_in. intros slice I.
  destruct (time_filter (fst slice)) eqn:T.
  - apply existsb_exists. exists (fst slice). split; [|apply Timestamp_eqb_refl].
    apply filter_In. split; [apply in_map; assumption | assumption].
  - destruct (existsb _ _) eqn:E; [|reflexivity].
    apply existsb_exists in E as (t & I' & E). apply filter_In in I' as [_ T'].
    apply Timestamp_eqb_filter in E. congruence.
Qed.

(** On calendar months the program's filter is the range 2022-01 .. 2025-05. *)
Lemma time_filter_in_range (t : Timestamp) :
  1 <= month t <= 12 -> time_filter t = in_range t.
Proof.
  intros M. unfold time_filter, in_range.
  rewrite Z.gtb_ltb, Z.geb_leb.
  apply eq_true_iff_eq.
  rewrite !andb_true_iff, !orb_true_iff, !andb_true_iff,
    !Z.ltb_lt, !Z.leb_le, !Z.eqb_eq. lia.
Qed.

Lemma to_dataframe_filter (p : Timestamp -> bool) (ds : Dataset) :
  to_dataframe (filter (fun slice => p (fst slice)) ds)
  = filter (fun row => p (time row)) (to_dataframe ds).
Proof.
  unfold to_dataframe. induction ds as [|[t grid] ds IH]; simpl; [reflexivity|].
  rewrite filter_app, <- IH.
  assert (G : forall g : list (float * float * float),
    filter (fun row => p (time row))
      (map (fun cell => {| time := t; lat := fst (fst cell); lon := snd (fst cell);
                           RH2M := snd cell |}) g)
    = if p t then map (fun cell => {| time := t; lat := fst (fst cell);
                                       lon := snd (fst cell); RH2M := snd cell |}) g
      else []).
  { induction g as [|c g IHg]; simpl; [destruct (p t); reflexivity|].
    rewrite IHg. destruct (p t); reflexivity. }
  rewrite G. destruct (p t); reflexivity.
Qed.

Lemma filter_filter {A : Type} (p q : A -> bool) (l : list A) :
  filter q (filter p l) = filter (fun x => p x && q x) l.
Proof.
  induction l as [|x l IH]; simpl; [reflexivity|].
  destruct (p x); simpl; [destruct (q x)|]; rewrite IH; reflexivity.
Qed.

Lemma download_run (open_dataset : string -> Dataset + string) (w : World) :
  download_humidity_data open_dataset w
  = match open_dataset ZARR_URL with
    | inr e =>
        (None,
         {| dirs := dirs w; files := files w;
            stdout := stdout w
              ++ [Line "[STEP 1] Downloading NASA POWER RH2M Data";
                  Line "----------------------------------------";
                  Line "Opening remote Zarr store...";
                  ErrorDownloading e];
            processes := processes w |})
    | inl ds =>
        let filtered_times := filter time_filter (map fst ds) in
        let raw := to_dataframe (filter (fun slice => time_filter (fst slice)) ds) in
        if is_empty filtered_times then
          (None,
           {| dirs := dirs w; files := files w;
              stdout := stdout w
                ++ [Line "[STEP 1] Downloading NASA POWER RH2M Data";
                    Line "----------------------------------------";
                    Line "Opening remote Zarr store...";
                    Line "Remote Zarr store opened successfully";
                    Line "Filtering time range...";
                    ErrorDownloading "No matching data found for specified date range"];
              processes := processes w |})
        else if negb (is_unique (map fst ds)) then
          (None,
           {| dirs := dirs w; files := files w;
              stdout := stdout w
                ++ [Line "[STEP 1] Downloading NASA POWER RH2M Data";
                    Line "----------------------------------------";
                    Line "Opening remote Zarr store...";
                    Line "Remote Zarr store opened successfully";
                    Line "Filtering time range...";
                    FoundTimestamps (List.length filtered_times);
                    Line "Extracting humidity data...";
                    ErrorDownloading "Reindexing only valid with uniquely valued Index objects"];
              processes := processes w |})
        else
          (Some (dropna raw),
           {| dirs := dirs w;
              files := store main_csv (CSV sample_columns (dropna raw)) (files w);
              stdout := stdout w
                ++ [Line "[STEP 1] Downloading NASA POWER RH2M Data";
                    Line "----------------------------------------";
                    Line "Opening remote Zarr store...";
                    Line "Remote Zarr store opened successfully";
                    Line "Filtering time range...";
                    FoundTimestamps (List.length filtered_times);
                    Line "Extracting humidity data...";
                    Line "Cleaning data (removing NaNs)...";
                    CleanedData (List.length raw) (List.length (dropna raw));
                    SavedMainDataset main_csv];
              processes := processes w |})
    end.
Proof.
  unfold download_humidity_data, bind, print, write_file, ret.
  cbn [dirs files stdout processes].
  destruct (open_dataset ZARR_URL) as [ds|e].
  - cbn zeta. rewrite sel_filtered.
    destruct (is_empty (filter time_filter (map fst ds)));
      [|destruct (is_unique (map fst ds))];
      cbn [negb dirs files stdout processes]; rewrite <- !List.app_assoc; reflexivity.
  - cbn [dirs files stdout processes]. rewrite <- !List.app_assoc. reflexivity.
Qed.

Lemma download_projections (open_dataset : string -> Dataset + string) (w : World) :
  dirs (snd (download_humidity_data open_dataset w)) = dirs w
  /\ processes (snd (download_humidity_data open_dataset w)) = processes w
  /\ (fst (download_humidity_data open_dataset w) = None ->
        files (snd (download_humidity_data open_dataset w)) = files w).
Proof.
  rewrite download_run. destruct (open_dataset ZARR_URL) as [ds|e]; cbn zeta.
  - destruct (is_empty _); [|destruct (negb _)]; simpl; repeat split; auto; discriminate.
  - simpl; auto.
Qed.

Lemma filter_none {A : Type} (p : A -> bool) (l : list A) :
  (forall x, In x l -> p x = false) -> filter p l = [].
Proof.
  induction l as [|x l IH]; simpl; intros H; [reflexivity|].
  rewrite (H x) by auto. apply IH. auto.
Qed.

Lemma filter_some {A : Type} (p : A -> bool) (l : list A) :
  existsb p l = true -> is_empty (filter p l) = false.
Proof.
  induction l as [|x l IH]; simpl; [discriminate|].
  destruct (p x); simpl; auto.
Qed.

(** C8, as the program has it: when the store opens and the labels of its
    time axis are pairwise distinct calendar timestamps, the table the fetcher
    returns is exactly the list of the store's cells whose timestamp lies in
    2022-01 .. 2025-05 and whose value is not missing, in the order of the
    store, and the same table is what it writes to the main CSV; it returns a
    table as soon as one timestamp of the store lies in the range, and none
    otherwise.  (A timestamp in the range whose cells all lack a value has no
    row.) *)
Theorem fetch_table (open_dataset : string -> Dataset + string) (ds : Dataset) (w : World) :
  open_dataset ZARR_URL = inl ds ->
  is_unique (map fst ds) = true ->
  (forall t, In t (map fst ds) -> 1 <= month t <= 12) ->
  (existsb in_range (map fst ds) = true ->
     fst (download_humidity_data open_dataset w)
     = Some (filter (fun row => in_range (time row) && negb (isna (RH2M row)))
               (to_dataframe ds))
     /\ lookup main_csv (files (snd (download_humidity_data open_dataset w)))
        = Some (CSV sample_columns
                  (filter (fun row => in_range (time row) && negb (isna (RH2M row)))
                     (to_dataframe ds))))
  /\ (existsb in_range (map fst ds) = false ->
        fst (download_humidity_data open_dataset w) = None).
Proof.
  intros O U V.
  assert (F : filter time_filter (map fst ds) = filter in_range (map fst ds)).
  { apply filter_ext_in. intros t I. apply time_filter_in_range. auto. }
  rewrite download_run, O. cbn zeta. rewrite F, U. split; intros E.
  - rewrite (filter_some _ _ E). cbn [negb fst snd files].
    rewrite lookup_store_same.
    assert (D : dropna (to_dataframe (filter (fun slice => time_filter (fst slice)) ds))
                = filter (fun row => in_range (time row) && negb (isna (RH2M row)))
                    (to_dataframe ds)).
    { rewrite to_dataframe_filter. unfold dropna.
      rewrite filter_filter. apply filter_ext_in. intros row I.
      apply in_flat_map in I as (slice & Is & Ir).
      apply in_map_iff in Ir as (cell & <- & _). simpl.
      rewrite time_filter_in_range; [reflexivity|].
      apply V. apply in_map. assumption. }
    rewrite D. split; reflexivity.
  - rewrite filter_none; [reflexivity|].
    intros t I. destruct (in_range t) eqn:R; [|reflexivity].
    assert (X : existsb in_range (map fst ds) = true)
      by (apply existsb_exists; exists t; auto).
    congruence.
Qed.

Lemma fetch_table_witness :
  (existsb in_range (map fst store_jan_missing) = true ->
     fst (download_humidity_data (fun _ => inl store_jan_missing) empty_world)
     = Some (filter (fun row => in_range (time row) && negb (isna (RH2M row)))
               (to_dataframe store_jan_missing))
     /\ lookup main_csv
          (files (snd (download_humidity_data (fun _ => inl store_jan_missing) empty_world)))
        = Some (CSV sample_columns
                  (filter (fun row => in_range (time row) && negb (isna (RH2M row)))
                     (to_dataframe store_jan_missing))))
  /\ (existsb in_range (map fst store_jan_missing) = false ->
        fst (download_humidity_data (fun _ => inl store_jan_missing) empty_world) = None).
Proof.
  apply (fetch_table (fun _ => inl store_jan_missing) store_jan_missing empty_world).
  - reflexivity.
  - reflexivity.
  - intros t [<-|[<-|[]]]; simpl; lia.
Defined.

(** C8 as stated fails: January 2022 lies in the range and is a timestamp of
    the store, yet the table returned has no row for it, its only value
    being missing. *)
Lemma fetch_drops_month_in_range :
  exists df,
    fst (download_humidity_data (fun _ => inl store_jan_missing) empty_world) = Some df
    /\ In jan_2022 (map fst store_jan_missing)
    /\ in_range jan_2022 = true
    /\ ~ (exists row, In row df /\ time row = jan_2022).
Proof.
  eexists. split; [vm_compute; reflexivity|].
  split; [left; reflexivity|]. split; [reflexivity|].
  intros (row & [<-|[]] & T). discriminate T.
Qed.

(** C6: when the store cannot be opened, or none of its timestamps passes the
    time filter, the fetcher returns no table and writes no file; the pipeline
    then prints its failure line and stops, so that a whole run leaves the two
    output directories, no file and no child process. *)
Theorem fetch_failure_aborts
  (open_dataset : string -> Dataset + string) (is_land : float -> float -> bool)
  (subprocess_run : list string -> list (string * File) -> CompletedProcess + string)
  (w : World) :
  (exists e, open_dataset ZARR_URL = inr e)
  \/ (exists ds, open_dataset ZARR_URL = inl ds
                 /\ forall t, In t (map fst ds) -> time_filter t = false) ->
  fst (download_humidity_data open_dataset w) = None
  /\ files (snd (download_humidity_data open_dataset w)) = files w
  /\ run_complete_pipeline open_dataset is_land subprocess_run w
     = print (Line "Pipeline failed at data download step")
         (snd (download_humidity_data open_dataset
            (snd ((print (Line "Starting Complete Humidity Processing Pipeline") ;;
                   print (Line "============================================================"))
                  w))))
  /\ files (snd (run_complete_pipeline open_dataset is_land subprocess_run w)) = files w
  /\ dirs (snd (run_complete_pipeline open_dataset is_land subprocess_run w)) = dirs w
  /\ processes (snd (run_complete_pipeline open_dataset is_land subprocess_run w))
     = processes w
  /\ files (snd (main open_dataset is_land subprocess_run empty_world)) = []
  /\ dirs (snd (main open_dataset is_land subprocess_run empty_world))
     = [OUTPUT_DIR; MBTILES_DIR]
  /\ processes (snd (main open_dataset is_land subprocess_run empty_world)) = [].
Proof.
  intros H.
  assert (N : forall w0, fst (download_humidity_data open_dataset w0) = None).
  { intros w0. rewrite download_run.
    destruct H as [[e ->]|(ds & -> & H)]; [reflexivity|].
    cbn zeta. rewrite (filter_none _ _ H). reflexivity. }
  assert (R : forall w0,
    run_complete_pipeline open_dataset is_land subprocess_run w0
    = print (Line "Pipeline failed at data download step")
        (snd (download_humidity_data open_dataset
           (snd ((print (Line "Starting Complete Humidity Processing Pipeline") ;;
                  print (Line "============================================================"))
                 w0))))).
  { intros w0. unfold run_complete_pipeline, bind. cbn [print snd].
    match goal with |- context [download_humidity_data open_dataset ?x] =>
      pose proof (N x) as Nx;
      destruct (download_humidity_data open_dataset x) as [[df|] w1] end;
      [discriminate Nx | reflexivity]. }
  assert (P : forall w0,
    files (snd (run_complete_pipeline open_dataset is_land subprocess_run w0)) = files w0
    /\ dirs (snd (run_complete_pipeline open_dataset is_land subprocess_run w0)) = dirs w0
    /\ processes (snd (run_complete_pipeline open_dataset is_land subprocess_run w0))
       = processes w0).
  { intros w0. rewrite R. cbn [print snd files dirs processes].
    match goal with |- context [download_humidity_data open_dataset ?x] =>
      destruct (download_projections open_dataset x) as (D1 & D2 & D3);
      rewrite D1, D2, (D3 (N x)) end.
    auto. }
  split; [apply N|]. split; [apply download_projections, N|]. split; [apply R|].
  destruct (P w) as (P1 & P2 & P3). rewrite P1, P2, P3.
  repeat split.
  all: unfold main, HumidityProcessor_init, bind;
    cbn [makedirs print snd];
    match goal with |- context [run_complete_pipeline _ _ _ ?x] =>
      destruct (P x) as (Q1 & Q2 & Q3);
      destruct (run_complete_pipeline open_dataset is_land subprocess_run x) as [u w1] end;
    cbn [snd] in *; rewrite ?Q1, ?Q2, ?Q3; reflexivity.
Qed.

Lemma fetch_failure_aborts_witness :
  fst (download_humidity_data (fun _ => inl store_out_of_range) empty_world) = None
  /\ files (snd (download_humidity_data (fun _ => inl store_out_of_range) empty_world)) = [].
Proof.
  pose proof (fetch_failure_aborts (fun _ => inl store_out_of_range)
                (fun _ _ => true) (fun _ _ => inr ""%string) empty_world) as H.
  assert (P : (exists e, @inl Dataset string store_out_of_range = inr e)
              \/ (exists ds, @inl Dataset string store_out_of_range = inl ds
                             /\ forall t, In t (map fst ds) -> time_filter t = false)).
  { right. exists store_out_of_range. split; [reflexivity|].
    intros t [<-|[]]. reflexivity. }
  destruct (H P) as (A & B & _). split; assumption.
Defined.

End Fetcher.

(** ** Stage 3: the polygonizer as a step on files *)

Module Polygonizer.
Import PyStrFacts WorldFacts.

Lemma boolean_index_map {A : Type} (f : A -> bool) (l : list A) :
  boolean_index l (map f l) = filter f l.
Proof. induction l as [|x l IH]; simpl; [reflexivity|]. rewrite IH. reflexivity. Qed.

Lemma land_rows_nil (is_land : float -> float -> bool) (df : list Row) :
  is_empty df = true -> is_empty (land_rows is_land df) = true.
Proof. destruct df; [reflexivity | discriminate]. Qed.

Lemma csv_to_geojson_run (is_land : float -> float -> bool)
  (csv_file output_geojson : string) (w : World) :
  csv_to_geojson is_land csv_file output_geojson w
  = (has_land is_land (files w) csv_file,
     {| dirs := dirs w;
        files := if has_land is_land (files w) csv_file
                 then store output_geojson (document_of is_land (files w) csv_file) (files w)
                 else files w;
        stdout := stdout w ++ geojson_messages is_land csv_file (table_at (files w) csv_file);
        processes := processes w |}).
Proof.
  unfold csv_to_geojson, bind, read_csv, has_land, document_of, geojson_messages.
  fold (table_at (files w) csv_file).
  destruct (table_at (files w) csv_file) as [df|]; [|reflexivity].
  destruct (is_empty df) eqn:E.
  - rewrite (land_rows_nil is_land df E). reflexivity.
  - unfold print, write_file, ret. cbn [dirs files stdout processes].
    rewrite boolean_index_map. fold (land_rows is_land df).
    destruct (is_empty (land_rows is_land df)); cbn [negb dirs files stdout processes];
      rewrite <- !List.app_assoc; reflexivity.
Qed.

Lemma table_at_store_other (fs : list (string * File)) (p q : string) (f : File) :
  p <> q -> table_at (store q f fs) p = table_at fs p.
Proof. intros N. unfold table_at. rewrite lookup_store_other by assumption. reflexivity. Qed.

Lemma create_geojsons_loop_run (is_land : float -> float -> bool) (keys : list (Z * Z)) :
  forall (geojson_files : list string) (w : World),
  fst (create_geojsons_loop is_land (map monthly_path keys) geojson_files w)
  = geojson_files
    ++ map geojson_path (filter (fun k => has_land is_land (files w) (monthly_path k)) keys)
  /\ files (snd (create_geojsons_loop is_land (map monthly_path keys) geojson_files w))
     = store_all (map (geojson_entry is_land (files w))
                    (filter (fun k => has_land is_land (files w) (monthly_path k)) keys))
         (files w)
  /\ dirs (snd (create_geojsons_loop is_land (map monthly_path keys) geojson_files w))
     = dirs w
  /\ processes (snd (create_geojsons_loop is_land (map monthly_path keys) geojson_files w))
     = processes w.
Proof.
  induction keys as [|k keys IH]; intros acc w.
  - simpl. rewrite List.app_nil_r. auto.
  - cbn [map create_geojsons_loop]. unfold bind.
    rewrite geojson_of_monthly, csv_to_geojson_run.
    match goal with |- context [create_geojsons_loop _ _ ?a ?x] =>
      destruct (IH a x) as (I1 & I2 & I3 & I4) end.
    rewrite I1, I2, I3, I4. cbn [dirs files stdout processes filter].
    assert (T : forall f k', table_at (store (geojson_path k) f (files w)) (monthly_path k')
                             = table_at (files w) (monthly_path k')).
    { intros f k'. apply table_at_store_other. apply monthly_not_geojson. }
    destruct (has_land is_land (files w) (monthly_path k)) eqn:L.
    + assert (F : filter (fun k0 => has_land is_land
                     (store (geojson_path k) (document_of is_land (files w) (monthly_path k))
                        (files w)) (monthly_path k0)) keys
                  = filter (fun k0 => has_land is_land (files w) (monthly_path k0)) keys).
      { apply filter_ext. intros k0. unfold has_land. rewrite T. reflexivity. }
      rewrite F. cbn [map]. rewrite <- List.app_assoc. repeat split; try reflexivity.
      unfold store_all at 2. cbn [fold_left fst snd geojson_entry].
      fold (store_all (map (geojson_entry is_land (files w))
              (filter (fun k0 => has_land is_land (files w) (monthly_path k0)) keys))
              (store (geojson_path k) (document_of is_land (files w) (monthly_path k))
                 (files w))).
      f_equal. apply map_ext. intros k0. unfold geojson_entry, document_of.
      rewrite T. reflexivity.
    + repeat split; reflexivity.
Qed.

Lemma create_geojsons_run (is_land : float -> float -> bool) (keys : list (Z * Z))
  (w : World) :
  fst (create_geojsons is_land (map monthly_path keys) w)
  = map geojson_path (filter (fun k => has_land is_land (files w) (monthly_path k)) keys)
  /\ files (snd (create_geojsons is_land (map monthly_path keys) w))
     = store_all (map (geojson_entry is_land (files w))
                    (filter (fun k => has_land is_land (files w) (monthly_path k)) keys))
         (files w)
  /\ dirs (snd (create_geojsons is_land (map monthly_path keys) w)) = dirs w
  /\ processes (snd (create_geojsons is_land (map monthly_path keys) w)) = processes w.
Proof.
  unfold create_geojsons, bind. cbn [print].
  match goal with |- context [create_geojsons_loop _ _ ?a ?x] =>
    destruct (create_geojsons_loop_run is_land keys a x) as (I1 & I2 & I3 & I4);
    destruct (create_geojsons_loop is_land (map monthly_path keys) a x) as [l w1] end.
  cbn [fst snd dirs files stdout processes ret] in *.
  subst l. auto.
Qed.

End Polygonizer.

(** ** Stage 4: the tile builder adapter *)

Module TileBuilder.
Import PyStrFacts WorldFacts.

Section Tool.

Variable subprocess_run : list string -> list (string * File) -> CompletedProcess + string.

Lemma tippecanoe_run (geojson_file output_mbtiles : string) (w : World) :
  geojson_to_mbtiles_tippecanoe subprocess_run geojson_file output_mbtiles w
  = (tool_succeeds subprocess_run (files w) geojson_file output_mbtiles,
     {| dirs := dirs w;
        files := if tool_succeeds subprocess_run (files w) geojson_file output_mbtiles
                 then store output_mbtiles MBTiles (files w) else files w;
        stdout := stdout w
          ++ match subprocess_run (tippecanoe_cmd geojson_file output_mbtiles) (files w) with
             | inr e => [ErrorConverting e]
             | inl result =>
                 if returncode result =? 0 then [] else [TippecanoeFailed (stderr result)]
             end;
        processes := processes w ++ [tippecanoe_cmd geojson_file output_mbtiles] |}).
Proof.
  unfold geojson_to_mbtiles_tippecanoe, tool_succeeds, bind, get_files, started.
  cbn [dirs files stdout processes].
  destruct (subprocess_run _ _) as [result|e].
  - destruct (returncode result =? 0); unfold bind, print, write_file, ret;
      cbn [dirs files stdout processes]; rewrite ?List.app_nil_r; reflexivity.
  - reflexivity.
Qed.

(** The loop gives every document of the batch to the tool, in order. *)
Lemma create_mbtiles_loop_processes (geojson_files : list string) :
  forall (mbtiles_files : list string) (w : World),
  processes (snd (create_mbtiles_loop subprocess_run geojson_files mbtiles_files w))
  = processes w ++ map (fun g => tippecanoe_cmd g (mbtiles_file_of g)) geojson_files.
Proof.
  induction geojson_files as [|g rest IH]; intros acc w.
  - simpl. rewrite List.app_nil_r. reflexivity.
  - cbn [create_mbtiles_loop map]. unfold bind.
    fold (mbtiles_file_of g). rewrite tippecanoe_run.
    destruct (tool_succeeds subprocess_run (files w) g (mbtiles_file_of g));
      cbn [print]; rewrite IH; cbn [processes]; rewrite <- List.app_assoc; reflexivity.
Qed.

Lemma create_mbtiles_loop_run (ks : list (Z * Z)) :
  forall (mbtiles_files : list string) (w : World),
  fst (create_mbtiles_loop subprocess_run (map geojson_path ks) mbtiles_files w)
  = mbtiles_files ++ map mbtiles_path (archive_successes subprocess_run (files w) ks)
  /\ files (snd (create_mbtiles_loop subprocess_run (map geojson_path ks) mbtiles_files w))
     = store_all (map (fun k => (mbtiles_path k, MBTiles))
                    (archive_successes subprocess_run (files w) ks)) (files w)
  /\ dirs (snd (create_mbtiles_loop subprocess_run (map geojson_path ks) mbtiles_files w))
     = dirs w.
Proof.
  induction ks as [|k ks IH]; intros acc w.
  - simpl. rewrite List.app_nil_r. auto.
  - cbn [map create_mbtiles_loop archive_successes]. unfold bind.
    rewrite mbtiles_of_geojson, tippecanoe_run.
    destruct (tool_succeeds subprocess_run (files w) (geojson_path k) (mbtiles_path k));
      cbn [print];
      match goal with |- context [create_mbtiles_loop _ _ ?a ?x] =>
        destruct (IH a x) as (I1 & I2 & I3) end;
      rewrite I1, I2, I3; cbn [dirs files stdout processes map];
      rewrite <- ?List.app_assoc; auto.
Qed.

Lemma create_mbtiles_run (ks : list (Z * Z)) (w : World) :
  fst (create_mbtiles subprocess_run (map geojson_path ks) w)
  = map mbtiles_path (archive_successes subprocess_run (files w) ks)
  /\ files (snd (create_mbtiles subprocess_run (map geojson_path ks) w))
     = store_all (map (fun k => (mbtiles_path k, MBTiles))
                    (archive_successes subprocess_run (files w) ks)) (files w)
  /\ dirs (snd (create_mbtiles subprocess_run (map geojson_path ks) w)) = dirs w
  /\ processes (snd (create_mbtiles subprocess_run (map geojson_path ks) w))
     = processes w ++ map (fun k => tippecanoe_cmd (geojson_path k) (mbtiles_path k)) ks.
Proof.
  unfold create_mbtiles, bind. cbn [print].
  match goal with |- context [create_mbtiles_loop _ _ ?a ?x] =>
    destruct (create_mbtiles_loop_run ks a x) as (I1 & I2 & I3);
    pose proof (create_mbtiles_loop_processes (map geojson_path ks) a x) as I4;
    destruct (create_mbtiles_loop subprocess_run (map geojson_path ks) a x) as [l w1] end.
  cbn [fst snd dirs files stdout processes ret] in *.
  subst l. rewrite I4, map_map. repeat split; try assumption.
  f_equal. apply map_ext. intros k. unfold mbtiles_file_of.
  rewrite mbtiles_of_geojson. reflexivity.
Qed.

(** C5: the adapter starts one child process, with exactly the fixed argument
    list; it returns true if and only if that process completes with exit
    status zero; on another exit status it prints the tool's stderr and returns
    false; and the loop over a batch starts the tool on every document of the
    batch, whatever the earlier runs returned. *)
Theorem tippecanoe_contract (geojson_file output_mbtiles : string) (w : World) :
  processes (snd (geojson_to_mbtiles_tippecanoe subprocess_run geojson_file output_mbtiles w))
  = processes w
    ++ [[ "tippecanoe"; "-o"; output_mbtiles; "-z"; "10"; "-Z"; "0";
          "--no-feature-limit"; "--no-tile-size-limit"; "-B0";
          "--drop-densest-as-needed"; "--extend-zooms-if-still-dropping";
          "--force"; geojson_file ]%string]
  /\ (fst (geojson_to_mbtiles_tippecanoe subprocess_run geojson_file output_mbtiles w) = true
      <-> exists result,
            subprocess_run (tippecanoe_cmd geojson_file output_mbtiles) (files w) = inl result
            /\ returncode result = 0)
  /\ (forall result,
        subprocess_run (tippecanoe_cmd geojson_file output_mbtiles) (files w) = inl result ->
        returncode result <> 0 ->
        fst (geojson_to_mbtiles_tippecanoe subprocess_run geojson_file output_mbtiles w)
        = false
        /\ stdout (snd (geojson_to_mbtiles_tippecanoe subprocess_run geojson_file
                          output_mbtiles w))
           = stdout w ++ [TippecanoeFailed (stderr result)])
  /\ (forall geojson_files w',
        processes (snd (create_mbtiles subprocess_run geojson_files w'))
        = processes w'
          ++ map (fun g => tippecanoe_cmd g (mbtiles_file_of g)) geojson_files).
Proof.
  rewrite tippecanoe_run. cbn [fst snd processes stdout]. unfold tool_succeeds.
  split; [reflexivity|]. split; [|split].
  - destruct (subprocess_run _ _) as [result|e]; split.
    + intros E. exists result. split; [reflexivity | apply Z.eqb_eq; assumption].
    + intros (r & E & Z). injection E as <-. apply Z.eqb_eq. assumption.
    + discriminate.
    + intros (r & E & _). discriminate.
  - intros result E N. rewrite E.
    destruct (Z.eqb_spec (returncode result) 0); [contradiction | auto].
  - intros geojson_files w'. unfold create_mbtiles, bind. cbn [print].
    match goal with |- context [create_mbtiles_loop _ _ ?a ?x] =>
      pose proof (create_mbtiles_loop_processes geojson_files a x) as I;
      destruct (create_mbtiles_loop subprocess_run geojson_files a x) as [l w1] end.
    cbn [fst snd processes ret] in *. exact I.
Qed.

Lemma archive_successes_incl (ks : list (Z * Z)) :
  forall fs k, In k (archive_successes subprocess_run fs ks) -> In k ks.
Proof.
  induction ks as [|k0 ks IH]; intros fs k; simpl; [tauto|].
  destruct (tool_succeeds _ _ _ _); simpl; intros I.
  - destruct I as [<-|I]; eauto.
  - eauto.
Qed.

Lemma archive_successes_nodup (ks : list (Z * Z)) :
  forall fs, NoDup ks -> NoDup (archive_successes subprocess_run fs ks).
Proof.
  induction ks as [|k0 ks IH]; intros fs D; simpl; [constructor|].
  inversion D as [|? ? N D']; subst.
  destruct (tool_succeeds _ _ _ _); auto.
  constructor; auto. intros I. apply N. eapply archive_successes_incl. exact I.
Qed.

End Tool.

End TileBuilder.

(** ** Stage 5: the tileserver configuration *)

Module ConfigEmitter.
Import PyStrFacts WorldFacts.

Lemma dict_set_keys (d : list (string * string)) (k v : string) :
  map fst (dict_set d k v)
  = if existsb (fun k' => String.eqb k' k) (map fst d) then map fst d else map fst d ++ [k].
Proof.
  induction d as [|[k' v'] d IH]; simpl; [reflexivity|].
  destruct (String.eqb k' k) eqn:E; simpl; [reflexivity|].
  rewrite IH. destruct (existsb _ _); reflexivity.
Qed.

Lemma existsb_eqb_in (k : string) (l : list string) :
  existsb (fun k' => String.eqb k' k) l = true <-> In k l.
Proof.
  rewrite existsb_exists. split.
  - intros (x & I & E). apply String.eqb_eq in E. subst. assumption.
  - intros I. exists k. split; [assumption | apply String.eqb_refl].
Qed.

Lemma dict_set_fresh (d : list (string * string)) (k v : string) :
  ~ In k (map fst d) -> dict_set d k v = d ++ [(k, v)].
Proof.
  induction d as [|[k' v'] d IH]; simpl; intros N; [reflexivity|].
  destruct (String.eqb_spec k' k) as [->|_]; [tauto|].
  rewrite IH by tauto. reflexivity.
Qed.

Lemma dict_set_in (d : list (string * string)) (k v k0 v0 : string) :
  In (k0, v0) (dict_set d k v) -> In (k0, v0) d \/ (k0 = k /\ v0 = v).
Proof.
  induction d as [|[k' v'] d IH]; simpl.
  - intros [E|[]]. injection E as <- <-. auto.
  - destruct (String.eqb_spec k' k) as [->|_]; simpl.
    + intros [E|I]; [injection E as <- <-; auto | auto].
    + intros [E|I]; [auto|]. destruct (IH I); auto.
Qed.

Lemma dict_set_nodup (d : list (string * string)) (k v : string) :
  NoDup (map fst d) -> NoDup (map fst (dict_set d k v)).
Proof.
  intros D. rewrite dict_set_keys.
  destruct (existsb _ _) eqn:E; [assumption|].
  apply NoDup_app; [assumption | repeat constructor; auto |].
  - intros x I [<-|[]]. apply existsb_eqb_in in I. congruence.
Qed.

Lemma config_data_keys (mbtiles_files : list string) :
  forall data,
  NoDup (map fst data) ->
  NoDup (map fst (config_data mbtiles_files data))
  /\ (forall name, In name (map fst (config_data mbtiles_files data))
                   <-> In name (map fst data)
                       \/ exists f, In f mbtiles_files /\ name = layer_of f)
  /\ (forall name v, In (name, v) (config_data mbtiles_files data) ->
        In (name, v) data
        \/ exists f, In f mbtiles_files /\ name = layer_of f /\ v = PyStr.basename f).
Proof.
  induction mbtiles_files as [|f rest IH]; intros data D; cbn [config_data].
  - split; [assumption|]. split.
    + intros name. split; [auto|]. intros [I|(f & [] & _)]. assumption.
    + auto.
  - fold (layer_of f).
    destruct (IH _ (dict_set_nodup data (layer_of f) (PyStr.basename f) D)) as (N & K & V).
    split; [assumption|]. split.
    + intros name. rewrite K, dict_set_keys.
      destruct (existsb _ _) eqn:E.
      * apply existsb_eqb_in in E. split.
        -- intros [I|(g & I & ->)]; [auto|]. right. exists g. simpl. auto.
        -- intros [I|(g & [<-|I] & ->)]; auto. right. exists g. auto.
      * rewrite in_app_iff. simpl. split.
        -- intros [[I|[<-|[]]]|(g & I & ->)]; auto; right; [exists f | exists g]; auto.
        -- intros [I|(g & [<-|I] & ->)]; auto. right. exists g. auto.
    + intros name v I. destruct (V _ _ I) as [J|(g & J & -> & ->)].
      * apply dict_set_in in J as [J|[-> ->]]; [auto|].
        right. exists f. simpl. auto.
      * right. exists g. simpl. auto.
Qed.

Lemma config_data_distinct (mbtiles_files : list string) :
  forall data,
  NoDup (map layer_of mbtiles_files) ->
  (forall f, In f mbtiles_files -> ~ In (layer_of f) (map fst data)) ->
  config_data mbtiles_files data
  = data ++ map (fun f => (layer_of f, PyStr.basename f)) mbtiles_files.
Proof.
  induction mbtiles_files as [|f rest IH]; intros data D F; cbn [config_data map].
  - rewrite List.app_nil_r. reflexivity.
  - fold (layer_of f). inversion D as [|? ? N D']; subst.
    rewrite dict_set_fresh by (apply F; left; reflexivity).
    rewrite IH; [rewrite <- List.app_assoc; reflexivity | assumption |].
    intros g I. rewrite map_app, in_app_iff. simpl.
    intros [J|[J|[]]].
    + apply (F g); [right; assumption | assumption].
    + apply N. rewrite J. apply in_map. assumption.
Qed.

(** The archives of distinct months have distinct layer names. *)
Lemma pipeline_layers (ks : list (Z * Z)) :
  map layer_of (map mbtiles_path ks) = map layer_name ks
  /\ (NoDup ks -> NoDup (map layer_of (map mbtiles_path ks))).
Proof.
  assert (E : map layer_of (map mbtiles_path ks) = map layer_name ks).
  { rewrite map_map. apply map_ext. intros k. apply layer_of_mbtiles. }

  split; [exact E|]. rewrite E. clear E. intros D.
  induction D as [|k ks N D IH]; simpl; constructor; [|exact IH].
  intros I. apply in_map_iff in I as (k' & E' & I).
  apply layer_name_inj in E'. subst. contradiction.
Qed.

Lemma create_tileserver_config_run (mbtiles_files : list string) (w : World) :
  fst (create_tileserver_config mbtiles_files w) = config_file
  /\ files (snd (create_tileserver_config mbtiles_files w))
     = store config_file (JSONConfig (tileserver_config mbtiles_files)) (files w)
  /\ dirs (snd (create_tileserver_config mbtiles_files w)) = dirs w
  /\ processes (snd (create_tileserver_config mbtiles_files w)) = processes w.
Proof. repeat split. Qed.

Lemma config_layer_names (mbtiles_files : list string) (name : string) :
  In name (map fst (cfg_data (tileserver_config mbtiles_files)))
  <-> exists f, In f mbtiles_files /\ name = layer_of f.
Proof.
  destruct (config_data_keys mbtiles_files [] (NoDup_nil _)) as (_ & K & _).
  cbn [cfg_data tileserver_config]. rewrite K. split.
  - intros [[]|I]. exact I.
  - intros I. right. exact I.
Qed.

(** C7: the configuration is written once, to one file, and is a function of
    the list of archives alone; its data keys are pairwise distinct and are
    exactly the layer names derived from the archives (base name without
    _land.mbtiles, then _land), each entry naming the archive it was derived
    from; when the archives have distinct layer names, as the archives of
    distinct months have, there is exactly one entry per archive, in order. *)
Theorem tileserver_config_entries (mbtiles_files : list string) (w : World) :
  fst (create_tileserver_config mbtiles_files w) = "humidity-tileserver-config.json"%string
  /\ files (snd (create_tileserver_config mbtiles_files w))
     = store "humidity-tileserver-config.json"
         (JSONConfig (tileserver_config mbtiles_files)) (files w)
  /\ dirs (snd (create_tileserver_config mbtiles_files w)) = dirs w
  /\ processes (snd (create_tileserver_config mbtiles_files w)) = processes w
  /\ NoDup (map fst (cfg_data (tileserver_config mbtiles_files)))
  /\ (forall name, In name (map fst (cfg_data (tileserver_config mbtiles_files)))
                   <-> exists f, In f mbtiles_files /\ name = layer_of f)
  /\ (forall name v, In (name, v) (cfg_data (tileserver_config mbtiles_files)) ->
        exists f, In f mbtiles_files /\ name = layer_of f /\ v = PyStr.basename f)
  /\ (NoDup (map layer_of mbtiles_files) ->
        cfg_data (tileserver_config mbtiles_files)
        = map (fun f => (layer_of f, PyStr.basename f)) mbtiles_files)
  /\ (forall ks, NoDup ks ->
        cfg_data (tileserver_config (map mbtiles_path ks))
        = map (fun k => (layer_name k, (stem k ++ "_land.mbtiles")%string)) ks).
Proof.
  destruct (config_data_keys mbtiles_files [] (NoDup_nil _)) as (N & K & V).
  repeat split.
  - exact N.
  - intros I. apply K in I as [[]|I]. exact I.
  - intros I. apply K. right. exact I.
  - intros name v I. destruct (V _ _ I) as [[]|J]. exact J.
  - intros D. apply (config_data_distinct mbtiles_files [] D). intros f _ [].
  - intros ks D. cbn [cfg_data tileserver_config].
    rewrite (config_data_distinct (map mbtiles_path ks) []).
    + rewrite map_map. apply map_ext. intros k. unfold layer_of.
      rewrite layer_of_mbtiles, basename_mbtiles. reflexivity.
    + apply pipeline_layers. assumption.
    + intros f _ [].
Qed.

End ConfigEmitter.

(** ** Stages 2 to 5 in sequence *)

Module Pipeline.
Import PyStrFacts WorldFacts GroupFacts Partitioner Polygonizer TileBuilder ConfigEmitter.

Section Run.

Variable is_land : float -> float -> bool.
Variable subprocess_run : list string -> list (string * File) -> CompletedProcess + string.

Lemma monthly_files_of (df : list Row) (w : World) :
  snd (fst (split_monthly_data df w))
  = map monthly_path (map fst (groupby (with_year_month df))).
Proof. rewrite split_monthly_data_run. cbn [fst snd]. rewrite map_map. reflexivity. Qed.

Lemma monthly_table_at (df : list Row) (w : World) (k : Z * Z) :
  In k (map fst (groupby (with_year_month df))) ->
  table_at (files (snd (split_monthly_data df w))) (monthly_path k)
  = Some (filter (in_month k) df).
Proof. intros I. unfold table_at. rewrite monthly_file_content by assumption. reflexivity. Qed.

(** What stage 3 returns and writes after stage 2. *)
Lemma geojsons_after_split (df : list Row) (w : World) :
  fst (create_geojsons is_land (snd (fst (split_monthly_data df w)))
         (snd (split_monthly_data df w)))
  = map geojson_path (land_months is_land df)
  /\ files (snd (create_geojsons is_land (snd (fst (split_monthly_data df w)))
                   (snd (split_monthly_data df w))))
     = store_all (map (fun k => (geojson_path k,
                                 GeoJSON (features_of is_land (filter (in_month k) df))))
                    (land_months is_land df))
         (files (snd (split_monthly_data df w)))
  /\ dirs (snd (create_geojsons is_land (snd (fst (split_monthly_data df w)))
                  (snd (split_monthly_data df w)))) = dirs w
  /\ processes (snd (create_geojsons is_land (snd (fst (split_monthly_data df w)))
                       (snd (split_monthly_data df w)))) = processes w.
Proof.
  rewrite monthly_files_of.
  destruct (create_geojsons_run is_land (map fst (groupby (with_year_month df)))
              (snd (split_monthly_data df w))) as (A & B & C & D).
  rewrite A, B, C, D.
  assert (F : filter (fun k => has_land is_land (files (snd (split_monthly_data df w)))
                                 (monthly_path k))
                (map fst (groupby (with_year_month df)))
              = land_months is_land df).
  { apply filter_ext_in. intros k I. unfold has_land.
    rewrite monthly_table_at by assumption. reflexivity. }
  rewrite F. split; [reflexivity|]. split; [|split].
  - f_equal. apply map_ext_in. intros k I. unfold land_months in I.
    apply filter_In in I as [I _].
    unfold geojson_entry, document_of. rewrite monthly_table_at by assumption.
    reflexivity.
  - rewrite split_monthly_data_run. reflexivity.
  - rewrite split_monthly_data_run. reflexivity.
Qed.

Lemma land_months_spec (df : list Row) (k : Z * Z) :
  In k (land_months is_land df)
  <-> exists row, In row df /\ key_of row = k /\ is_land (lat row) (lon row) = true.
Proof.
  unfold land_months. rewrite filter_In, groupby_keys. split.
  - intros [_ L]. destruct (land_rows is_land (filter (in_month k) df)) as [|row l] eqn:E;
      [discriminate|].
    assert (I : In row (land_rows is_land (filter (in_month k) df)))
      by (rewrite E; left; reflexivity).
    unfold land_rows in I. apply filter_In in I as [I La].
    apply filter_In in I as [I Mo]. apply in_month_key in Mo. eauto.
  - intros (row & I & K & La). split; [eauto|].
    assert (J : In row (land_rows is_land (filter (in_month k) df))).
    { unfold land_rows. apply filter_In. split; [|assumption].
      apply filter_In. split; [assumption|]. apply in_month_key. assumption. }
    destruct (land_rows is_land (filter (in_month k) df)); [contradiction | reflexivity].
Qed.

Lemma land_months_nodup (df : list Row) : NoDup (land_months is_land df).
Proof.
  unfold land_months. apply NoDup_filter, sorted_keys_nodup.
  apply (groupby_grouped (with_year_month df)).
Qed.

(** [run_complete_pipeline] is the download followed, when it returned a
    table, by stages 2 to 5, the viewer and the summary. *)
Lemma run_complete_pipeline_stages (open_dataset : string -> Dataset + string) (w : World) :
  run_complete_pipeline open_dataset is_land subprocess_run w
  = (print (Line "Starting Complete Humidity Processing Pipeline") ;;
     print (Line "============================================================") ;;
     downloaded <- download_humidity_data open_dataset ;;
     match downloaded with
     | None => print (Line "Pipeline failed at data download step")
     | Some df =>
         a <- stages_2_to_5 is_land subprocess_run df ;;
         create_web_viewer ;;
         print (Line "============================================================") ;;
         print (Line "PIPELINE COMPLETE!") ;;
         print (Summary (List.length (art_monthly a)) (List.length (art_geojson a))
                  (List.length (art_mbtiles a))) ;;
         print (Line "Next steps: start tileserver-gl, open humidity-viewer.html")
     end) w.
Proof.
  unfold run_complete_pipeline, stages_2_to_5, bind. cbn [print].
  destruct (download_humidity_data open_dataset _) as [[df|] w1]; [|reflexivity].
  destruct (split_monthly_data df w1) as [split w2].
  destruct (create_geojsons is_land (snd split) w2) as [g w3].
  destruct (create_mbtiles subprocess_run g w3) as [m w4].
  destruct (create_tileserver_config m w4) as [c w5].
  reflexivity.
Qed.

Lemma stages_run (df : list Row) (w : World) :
  art_monthly (fst (stages_2_to_5 is_land subprocess_run df w))
  = map monthly_path (map fst (groupby (with_year_month df)))
  /\ art_geojson (fst (stages_2_to_5 is_land subprocess_run df w))
     = map geojson_path (land_months is_land df)
  /\ (exists fs3,
        art_mbtiles (fst (stages_2_to_5 is_land subprocess_run df w))
        = map mbtiles_path (archive_successes subprocess_run fs3 (land_months is_land df))
        /\ files (snd (stages_2_to_5 is_land subprocess_run df w))
           = store config_file
               (JSONConfig (tileserver_config
                  (art_mbtiles (fst (stages_2_to_5 is_land subprocess_run df w)))))
               (store_all (map (fun k => (mbtiles_path k, MBTiles))
                             (archive_successes subprocess_run fs3
                                (land_months is_land df)))
                  (store_all (map (geojson_document is_land df) (land_months is_land df))
                     (store_all (map monthly_entry (groupby (with_year_month df)))
                        (files w)))))
  /\ dirs (snd (stages_2_to_5 is_land subprocess_run df w)) = dirs w
  /\ processes (snd (stages_2_to_5 is_land subprocess_run df w))
     = processes w
       ++ map (fun k => tippecanoe_cmd (geojson_path k) (mbtiles_path k))
            (land_months is_land df).
Proof.
  unfold stages_2_to_5, bind.
  pose proof (monthly_files_of df w) as M0.
  destruct (geojsons_after_split df w) as (G1 & G2 & G3 & G4).
  assert (W1 : files (snd (split_monthly_data df w))
               = store_all (map monthly_entry (groupby (with_year_month df))) (files w))
    by (rewrite split_monthly_data_run; reflexivity).
  destruct (split_monthly_data df w) as [split w1]. cbn [fst snd] in *.
  destruct (create_geojsons is_land (snd split) w1) as [g w2]. cbn [fst snd] in *.
  subst g.
  destruct (create_mbtiles_run subprocess_run (land_months is_land df) w2)
    as (B1 & B2 & B3 & B4).
  destruct (create_mbtiles subprocess_run (map geojson_path (land_months is_land df)) w2)
    as [m w3]. cbn [fst snd] in *.
  destruct (create_tileserver_config_run m w3) as (C1 & C2 & C3 & C4).
  destruct (create_tileserver_config m w3) as [c w4]. cbn [fst snd ret] in *.
  cbn [art_monthly art_geojson art_mbtiles].
  split; [exact M0|]. split; [reflexivity|]. split; [|split].
  - exists (files w2). split; [exact B1|].
    rewrite C2, B2, G2, W1. reflexivity.
  - congruence.
  - congruence.
Qed.

Lemma nodup_map_inj {A B : Type} (f : A -> B) (l : list A) :
  (forall x y, f x = f y -> x = y) -> NoDup l -> NoDup (map f l).
Proof.
  intros Inj D. induction D as [|x l N D IH]; simpl; constructor; [|exact IH].
  intros I. apply in_map_iff in I as (y & E & I). apply Inj in E. subst. contradiction.
Qed.

Lemma in_tippecanoe_cmd (p g o : string) :
  In p (tippecanoe_cmd g o) ->
  p = o \/ p = g
  \/ In p [ "tippecanoe"; "-o"; "-z"; "10"; "-Z"; "0"; "--no-feature-limit";
            "--no-tile-size-limit"; "-B0"; "--drop-densest-as-needed";
            "--extend-zooms-if-still-dropping"; "--force" ]%string.
Proof. unfold tippecanoe_cmd. simpl. intuition. Qed.

(** C4: a table without a row on land (an empty table is one) makes
    [csv_to_geojson] return false and write nothing.  In a run of stages 2 to 5
    a month [k] of the table none of whose rows is on land has no geometry
    document, no tile archive and no configuration entry, and the tool is not
    started on it, while every month that has a row on land still gets its
    geometry document (the document of its own rows, when their coordinates
    are numbers), and the tool is started on it. *)
Theorem no_land_no_output (df : list Row) (w : World) (k : Z * Z) :
  (exists row, In row df /\ key_of row = k) ->
  (forall row, In row df -> key_of row = k -> is_land (lat row) (lon row) = false) ->
  (forall csv_file output_geojson w0 table,
     table_at (files w0) csv_file = Some table ->
     land_rows is_land table = [] ->
     fst (csv_to_geojson is_land csv_file output_geojson w0) = false
     /\ files (snd (csv_to_geojson is_land csv_file output_geojson w0)) = files w0)
  /\ In (monthly_path k) (art_monthly (fst (stages_2_to_5 is_land subprocess_run df w)))
  /\ ~ In (geojson_path k) (art_geojson (fst (stages_2_to_5 is_land subprocess_run df w)))
  /\ ~ In (mbtiles_path k) (art_mbtiles (fst (stages_2_to_5 is_land subprocess_run df w)))
  /\ lookup (geojson_path k) (files (snd (stages_2_to_5 is_land subprocess_run df w)))
     = lookup (geojson_path k) (files w)
  /\ lookup (mbtiles_path k) (files (snd (stages_2_to_5 is_land subprocess_run df w)))
     = lookup (mbtiles_path k) (files w)
  /\ (exists started,
        processes (snd (stages_2_to_5 is_land subprocess_run df w))
        = processes w ++ started
        /\ forall cmd, In cmd started ->
             ~ In (geojson_path k) cmd /\ ~ In (mbtiles_path k) cmd)
  /\ (forall config,
        lookup config_file (files (snd (stages_2_to_5 is_land subprocess_run df w)))
        = Some (JSONConfig config) ->
        ~ In (layer_name k) (map fst (cfg_data config)))
  /\ (forall k',
        (exists row, In row df /\ key_of row = k'
                     /\ is_land (lat row) (lon row) = true) ->
        In (geojson_path k') (art_geojson (fst (stages_2_to_5 is_land subprocess_run df w)))
        /\ (exists features,
              lookup (geojson_path k')
                (files (snd (stages_2_to_5 is_land subprocess_run df w)))
              = Some (GeoJSON features))
        /\ (no_nan (map lat (filter (in_month k') df)) ->
            no_nan (map lon (filter (in_month k') df)) ->
            lookup (geojson_path k')
              (files (snd (stages_2_to_5 is_land subprocess_run df w)))
            = Some (GeoJSON (features_of is_land (filter (in_month k') df))))
        /\ In (tippecanoe_cmd (geojson_path k') (mbtiles_path k'))
             (processes (snd (stages_2_to_5 is_land subprocess_run df w)))).
Proof.
  intros Hk Hno.
  assert (NL : ~ In k (land_months is_land df)).
  { intros I. apply land_months_spec in I as (row & I & K & L).
    rewrite (Hno row I K) in L. discriminate. }
  destruct (stages_run df w) as (S1 & S2 & (fs3 & S3 & S4) & S5 & S6).
  assert (NS : ~ In k (archive_successes subprocess_run fs3 (land_months is_land df))).
  { intros I. apply NL. eapply archive_successes_incl. exact I. }
  assert (GJ : forall j, map fst (map (geojson_document is_land df) j) = map geojson_path j)
    by (intros j; rewrite map_map; reflexivity).
  assert (MB : forall j, map fst (map (fun k0 => (mbtiles_path k0, MBTiles)) j)
                         = map mbtiles_path j)
    by (intros j; rewrite map_map; reflexivity).
  assert (MO : map fst (map monthly_entry (groupby (with_year_month df)))
               = map monthly_path (map fst (groupby (with_year_month df))))
    by (rewrite !map_map; reflexivity).
  split; [|split; [|split; [|split; [|split; [|split; [|split; [|split]]]]]]].
  - intros csv_file output_geojson w0 table T L.
    rewrite csv_to_geojson_run. unfold has_land. rewrite T, L. split; reflexivity.
  - rewrite S1. apply in_map. apply groupby_keys. assumption.
  - rewrite S2. intros I. apply in_map_iff in I as (k' & E & I).
    apply geojson_path_inj in E. subst. contradiction.
  - rewrite S3. intros I. apply in_map_iff in I as (k' & E & I).
    apply mbtiles_path_inj in E. subst. contradiction.
  - rewrite S4. rewrite lookup_store_other by discriminate.
    rewrite lookup_store_all_other.
    2:{ rewrite MB. intros I. apply in_map_iff in I as (k' & E & _).
        exact (mbtiles_not_geojson _ _ E). }
    rewrite lookup_store_all_other.
    2:{ rewrite GJ. intros I. apply in_map_iff in I as (k' & E & I).
        apply geojson_path_inj in E. subst. contradiction. }
    apply lookup_store_all_other.
    rewrite MO. intros I. apply in_map_iff in I as (k' & E & _).
    revert E. apply monthly_not_geojson.
  - rewrite S4. rewrite lookup_store_other by discriminate.
    rewrite lookup_store_all_other.
    2:{ rewrite MB. intros I. apply in_map_iff in I as (k' & E & I).
        apply mbtiles_path_inj in E. subst. contradiction. }
    rewrite lookup_store_all_other.
    2:{ rewrite GJ. intros I. apply in_map_iff in I as (k' & E & _).
        exact (mbtiles_not_geojson _ _ (eq_sym E)). }
    apply lookup_store_all_other.
    rewrite MO. intros I. apply in_map_iff in I as (k' & E & _).
    exact (mbtiles_not_monthly _ _ (eq_sym E)).
  - eexists. split; [exact S6|].
    intros cmd I. apply in_map_iff in I as (k' & <- & I).
    assert (D : k' <> k) by (intros ->; contradiction).
    split; intros J; apply in_tippecanoe_cmd in J as [J|[J|J]].
    + exact (mbtiles_not_geojson _ _ (eq_sym J)).
    + apply geojson_path_inj in J. congruence.
    + simpl in J. repeat (destruct J as [J|J]; [discriminate J|]). exact J.
    + apply mbtiles_path_inj in J. congruence.
    + exact (mbtiles_not_geojson _ _ J).
    + simpl in J. repeat (destruct J as [J|J]; [discriminate J|]). exact J.
  - intros config L. rewrite S4, lookup_store_same in L. injection L as <-.
    intros I.
    apply config_layer_names in I as (f & I & E). rewrite S3 in I.
    apply in_map_iff in I as (k' & <- & I).
    unfold layer_of in E. rewrite layer_of_mbtiles in E.
    apply layer_name_inj in E. subst. contradiction.
  - intros k' Hl. apply land_months_spec in Hl.
    assert (L : lookup (geojson_path k')
                  (files (snd (stages_2_to_5 is_land subprocess_run df w)))
                = Some (GeoJSON (features_of is_land (filter (in_month k') df)))).
    { rewrite S4. rewrite lookup_store_other by discriminate.
      rewrite lookup_store_all_other.
      2:{ rewrite MB. intros I. apply in_map_iff in I as (k'' & E & _).
          exact (mbtiles_not_geojson _ _ E). }
      apply lookup_store_all_in.
      * rewrite GJ. apply nodup_map_inj; [apply geojson_path_inj|].
        apply land_months_nodup.
      * apply in_map_iff. exists k'. split; [reflexivity | assumption]. }
    split; [rewrite S2; apply in_map; assumption|].
    split; [eexists; exact L|]. split; [intros _ _; exact L|].
    rewrite S6. apply in_or_app. right.
      apply in_map_iff. exists k'. split; [reflexivity | assumption].
Qed.

End Run.

Lemma no_land_no_output_witness :
  ~ In (geojson_path (2024, 7))
       (art_geojson (fst (stages_2_to_5 example_land tool_ok example_table empty_world))).
Proof.
  assert (H1 : exists row, In row example_table /\ key_of row = (2024, 7)).
  { exists row_jul. split; [right; left; reflexivity | reflexivity]. }
  assert (H2 : forall row, In row example_table -> key_of row = (2024, 7) ->
                           example_land (lat row) (lon row) = false).
  { intros row [<-|[<-|[]]] K; [discriminate K | reflexivity]. }
  destruct (no_land_no_output example_land tool_ok example_table empty_world (2024, 7)
              H1 H2) as (_ & _ & A & _).
  exact A.
Defined.

End Pipeline.

(** ** Binary64 numbers: order and exact values *)

Module F64.

Lemma digits2_pos_bounds (m : positive) :
  2 ^ (Zpos (digits2_pos m) - 1) <= Zpos m < 2 ^ Zpos (digits2_pos m).
Proof.
  induction m as [m IH|m IH|]; cbn [digits2_pos].
  - rewrite Pos2Z.inj_succ.
    replace (Z.succ (Zpos (digits2_pos m)) - 1) with (Z.succ (Zpos (digits2_pos m) - 1)) by lia.
    rewrite !Z.pow_succ_r by lia. lia.
  - rewrite Pos2Z.inj_succ.
    replace (Z.succ (Zpos (digits2_pos m)) - 1) with (Z.succ (Zpos (digits2_pos m) - 1)) by lia.
    rewrite !Z.pow_succ_r by lia. lia.
  - simpl. lia.
Qed.

Lemma valid_finite (s : bool) (m : positive) (e : Z) :
  valid_binary (S754_finite s m e) = true ->
  -1074 <= e <= 971 /\ Zpos m < 2 ^ 53 /\ (e = -1074 \/ 2 ^ 52 <= Zpos m).
Proof.
  unfold SpecFloat.valid_binary, bounded, canonical_mantissa, fexp, emin, prec, emax.
  rewrite andb_true_iff, Z.eqb_eq, Z.leb_le. intros [C B].
  pose proof (digits2_pos_bounds m) as [L U].
  set (d := Zpos (digits2_pos m)) in *.
  assert (Hd : d <= 53) by lia.
  split; [lia|]. split.
  - eapply Z.lt_le_trans; [exact U|]. apply Z.pow_le_mono_r; lia.
  - destruct (Z.eq_dec e (-1074)) as [|N]; [left; assumption|right].
    assert (d = 53) by lia. subst d. replace (53 - 1) with 52 in L by lia.
    replace (Z.pos (digits2_pos m) - 1) with 52 in L by lia. exact L.
Qed.

Lemma pow2_pos (n : Z) : 0 <= n -> 0 < 2 ^ n.
Proof. intros. apply Z.pow_pos_nonneg; lia. Qed.

Lemma finite_ord_bounds (s : bool) (m : positive) (e : Z) :
  valid_binary (S754_finite s m e) = true ->
  0 < Zpos m * 2 ^ (e + 1074) < 2 ^ 2100.
Proof.
  intros V. apply valid_finite in V as (E & M & _).
  pose proof (pow2_pos (e + 1074) ltac:(lia)) as P.
  split; [lia|].
  assert (2 ^ (e + 1074) <= 2 ^ 2045) by (apply Z.pow_le_mono_r; lia).
  replace (2 ^ 2100) with (2 ^ 53 * 2 ^ 2047) by (rewrite <- Z.pow_add_r by lia; reflexivity).
  assert (2 ^ 2045 < 2 ^ 2047) by (apply Z.pow_lt_mono_r; lia).
  nia.
Qed.

(** Magnitudes of two finite numbers compare as exponent, then mantissa. *)
Lemma finite_magnitude_compare (s s' : bool) (m m' : positive) (e e' : Z) :
  valid_binary (S754_finite s m e) = true ->
  valid_binary (S754_finite s' m' e') = true ->
  (Zpos m * 2 ^ (e + 1074) ?= Zpos m' * 2 ^ (e' + 1074))
  = match e ?= e' with
    | Lt => Lt
    | Gt => Gt
    | Eq => Pos.compare_cont Eq m m'
    end.
Proof.
  intros V V'. apply valid_finite in V as (E & M & N), V' as (E' & M' & N').
  assert (K : forall a b (ma mb : positive), -1074 <= a -> a < b ->
            Zpos ma < 2 ^ 53 -> 2 ^ 52 <= Zpos mb ->
            Zpos ma * 2 ^ (a + 1074) < Zpos mb * 2 ^ (b + 1074)).
  { intros a b ma mb A AB Ha Hb.
    assert (P : 2 ^ (b + 1074) = 2 ^ (b - a) * 2 ^ (a + 1074))
      by (rewrite <- Z.pow_add_r by lia; f_equal; lia).
    rewrite P.
    pose proof (pow2_pos (a + 1074) ltac:(lia)).
    assert (2 ^ 1 <= 2 ^ (b - a)) by (apply Z.pow_le_mono_r; lia).
    change (2 ^ 1) with 2 in *. change (2 ^ 53) with (2 * 2 ^ 52) in Ha.
    nia. }
  destruct (Z.compare_spec e e') as [->|L|G].
  - change (Pos.compare_cont Eq m m') with (Zpos m ?= Zpos m').
    pose proof (pow2_pos (e' + 1074) ltac:(lia)).
    destruct (Z.compare_spec (Zpos m) (Zpos m')) as [Q|Q|Q].
    + rewrite Q. apply Z.compare_refl.
    + apply Z.compare_lt_iff. nia.
    + apply Z.compare_gt_iff. nia.
  - apply Z.compare_lt_iff. apply K; lia.
  - apply Z.compare_gt_iff. apply K; lia.
Qed.

Lemma SFcompare_ord (a b : spec_float) :
  valid_binary a = true -> valid_binary b = true ->
  a <> S754_nan -> b <> S754_nan ->
  SFcompare a b = Some (SFord a ?= SFord b).
Proof.
  intros Va Vb Na Nb.
  destruct a as [sa|sa| |sa ma ea], b as [sb|sb| |sb mb eb]; try congruence;
    cbn [SFcompare SFord].
  - reflexivity.
  - destruct sb; reflexivity.
  - pose proof (finite_ord_bounds _ _ _ Vb). destruct sb; cbn [cond_Zopp]; f_equal; symmetry.
    + apply Z.compare_gt_iff; lia.
    + apply Z.compare_lt_iff; lia.
  - destruct sa; reflexivity.
  - destruct sa, sb; reflexivity.
  - pose proof (finite_ord_bounds _ _ _ Vb).
    assert (0 < 2 ^ 2100) by (apply pow2_pos; lia).
    destruct sa, sb; cbn [cond_Zopp]; f_equal; symmetry;
      (apply Z.compare_gt_iff; lia) || (apply Z.compare_lt_iff; lia).
  - pose proof (finite_ord_bounds _ _ _ Va). destruct sa; cbn [cond_Zopp]; f_equal; symmetry.
    + apply Z.compare_lt_iff; lia.
    + apply Z.compare_gt_iff; lia.
  - pose proof (finite_ord_bounds _ _ _ Va).
    assert (0 < 2 ^ 2100) by (apply pow2_pos; lia).
    destruct sa, sb; cbn [cond_Zopp]; f_equal; symmetry;
      (apply Z.compare_gt_iff; lia) || (apply Z.compare_lt_iff; lia).
  - pose proof (finite_ord_bounds _ _ _ Va). pose proof (finite_ord_bounds _ _ _ Vb).
    pose proof (finite_magnitude_compare _ _ _ _ _ _ Va Vb) as C.
    destruct sa, sb; cbn [cond_Zopp]; f_equal.
    + rewrite Z.compare_opp,
        (Z.compare_antisym (Zpos ma * 2 ^ (ea + 1074)) (Zpos mb * 2 ^ (eb + 1074))), C.
      destruct (ea ?= eb); reflexivity.
    + symmetry. apply Z.compare_lt_iff; lia.
    + symmetry. apply Z.compare_gt_iff; lia.
    + symmetry. exact C.
Qed.

Lemma is_nan_spec (x : float) : is_nan x = true <-> Prim2SF x = S754_nan.
Proof.
  unfold is_nan. rewrite eqb_spec. unfold SFeqb.
  destruct (Prim2SF x) as [s|s| |s m e] eqn:E.
  - simpl. split; discriminate.
  - simpl. destruct s; split; discriminate.
  - simpl. split; reflexivity.
  - pose proof (Prim2SF_valid x) as V. rewrite E in V.
    rewrite (SFcompare_ord _ _ V V) by discriminate.
    rewrite Z.compare_refl. simpl. split; discriminate.
Qed.

Lemma not_nan (x : float) : is_nan x = false -> Prim2SF x <> S754_nan.
Proof. intros N E. apply is_nan_spec in E. congruence. Qed.

Lemma compare_ord (x y : float) :
  is_nan x = false -> is_nan y = false ->
  SFcompare (Prim2SF x) (Prim2SF y) = Some (ord x ?= ord y)%Z.
Proof.
  intros Nx Ny. apply SFcompare_ord; auto using Prim2SF_valid, not_nan.
Qed.

Lemma ltb_ord (x y : float) :
  is_nan x = false -> is_nan y = false -> (x <? y)%float = (ord x <? ord y)%Z.
Proof.
  intros Nx Ny. rewrite ltb_spec. unfold SFltb. rewrite compare_ord by assumption.
  unfold Z.ltb. destruct (ord x ?= ord y)%Z; reflexivity.
Qed.

Lemma leb_ord (x y : float) :
  is_nan x = false -> is_nan y = false -> (x <=? y)%float = (ord x <=? ord y)%Z.
Proof.
  intros Nx Ny. rewrite leb_spec. unfold SFleb. rewrite compare_ord by assumption.
  unfold Z.leb. destruct (ord x ?= ord y)%Z; reflexivity.
Qed.

Lemma eqb_ord (x y : float) :
  is_nan x = false -> is_nan y = false -> (x =? y)%float = (ord x =? ord y)%Z.
Proof.
  intros Nx Ny. rewrite eqb_spec. unfold SFeqb. rewrite compare_ord by assumption.
  destruct (Z.compare_spec (ord x) (ord y)), (Z.eqb_spec (ord x) (ord y));
    try reflexivity; lia.
Qed.

Lemma same_value_ord (a b : float) :
  is_nan a = false -> is_nan b = false -> same_value a b = (ord a =? ord b).
Proof.
  intros Na Nb. unfold same_value. rewrite Na, eqb_ord by assumption.
  rewrite orb_false_r. reflexivity.
Qed.

Lemma unique_incl (l : list float) : forall x, In x (unique l) -> In x l.
Proof.
  induction l as [|a l IH]; simpl; intros x I; [assumption|].
  destruct I as [->|I]; [auto|]. apply filter_In in I as [I _]. auto.
Qed.

Lemma unique_complete (l : list float) :
  no_nan l -> forall x, In x l -> exists y, In y (unique l) /\ ord y = ord x.
Proof.
  induction l as [|a l IH]; intros N x I; [contradiction|].
  assert (N' : no_nan l) by (intros y J; apply N; right; assumption).
  destruct I as [->|I].
  - exists x. split; [left; reflexivity | reflexivity].
  - destruct (IH N' x I) as (y & J & E).
    destruct (Z.eq_dec (ord a) (ord y)) as [Q|Q].
    + exists a. split; [left; reflexivity | congruence].
    + exists y. split; [|assumption]. simpl. right. apply filter_In. split; [assumption|].
      rewrite same_value_ord.
      * apply negb_true_iff. apply Z.eqb_neq. assumption.
      * apply N. left. reflexivity.
      * apply N'. apply unique_incl. assumption.
Qed.

Lemma unique_distinct (l : list float) : no_nan l -> NoDup (map ord (unique l)).
Proof.
  induction l as [|a l IH]; intros N; simpl; [constructor|].
  assert (N' : no_nan l) by (intros y J; apply N; right; assumption).
  constructor.
  - intros I. apply in_map_iff in I as (y & E & I). apply filter_In in I as [I S].
    rewrite same_value_ord in S.
    + apply negb_true_iff, Z.eqb_neq in S. congruence.
    + apply N. left. reflexivity.
    + apply N'. apply unique_incl. assumption.
  - specialize (IH N'). revert IH. generalize (unique l). intros u D.
    induction u as [|b u IHu]; simpl; [constructor|].
    inversion D as [|? ? Nb D']; subst.
    destruct (negb (same_value a b)); simpl; auto.
    constructor; auto. intros I. apply Nb.
    apply in_map_iff in I as (y & E & I). apply filter_In in I as [I _].
    apply in_map_iff. eauto.
Qed.

Lemma insert_perm (a : float) (l : list float) : Permutation (insert a l) (a :: l).
Proof.
  induction l as [|b l IH]; simpl; [reflexivity|].
  destruct (b <? a)%float; [|reflexivity].
  rewrite IH. apply perm_swap.
Qed.

Lemma sorted_perm (l : list float) : Permutation (sorted l) l.
Proof.
  induction l as [|a l IH]; simpl; [reflexivity|].
  rewrite insert_perm. constructor. assumption.
Qed.

Lemma insert_sorted (a : float) (l : list float) :
  is_nan a = false -> no_nan l ->
  StronglySorted ord_le l -> StronglySorted ord_le (insert a l).
Proof.
  intros Na N S. induction S as [|b l S IH F]; simpl.
  - repeat constructor.
  - assert (Nb : is_nan b = false) by (apply N; left; reflexivity).
    assert (N' : no_nan l) by (intros y J; apply N; right; assumption).
    rewrite ltb_ord by assumption.
    destruct (Z.ltb_spec (ord b) (ord a)) as [L|G].
    + constructor; [auto|]. apply Forall_forall. intros x I.
      apply (Permutation_in _ (insert_perm a l)) in I. destruct I as [<-|I].
      * unfold ord_le. lia.
      * rewrite Forall_forall in F. auto.
    + constructor; [constructor; assumption|].
      constructor; [exact G|].
      eapply Forall_impl; [|exact F]. unfold ord_le. intros; lia.
Qed.

Lemma sorted_sorted (l : list float) : no_nan l -> StronglySorted ord_le (sorted l).
Proof.
  induction l as [|a l IH]; intros N; simpl; [constructor|].
  assert (N' : no_nan l) by (intros y J; apply N; right; assumption).
  apply insert_sorted; auto.
  - apply N. left. reflexivity.
  - intros x I. apply N'. apply (Permutation_in _ (sorted_perm l)). assumption.
Qed.

(** The first two elements of the sorted distinct values. *)
Lemma sorted_unique_head (l : list float) :
  no_nan l ->
  match sorted (unique l) with
  | [] => l = []
  | [u0] => forall x, In x l -> ord x = ord u0
  | u0 :: u1 :: _ =>
      In u0 l /\ In u1 l /\ ord u0 < ord u1
      /\ (forall x, In x l -> ord u0 <= ord x)
      /\ (forall x, In x l -> ord u0 < ord x -> ord u1 <= ord x)
  end.
Proof.
  intros N.
  assert (Nu : no_nan (unique l)) by (intros x I; apply N, unique_incl; assumption).
  pose proof (sorted_sorted _ Nu) as S.
  pose proof (sorted_perm (unique l)) as P.
  pose proof (unique_distinct l N) as D.
  assert (Ds : NoDup (map ord (sorted (unique l)))).
  { eapply Permutation_NoDup; [|exact D]. apply Permutation_map. symmetry. exact P. }
  assert (In_s : forall x, In x (sorted (unique l)) -> In x l).
  { intros x I. apply unique_incl. apply (Permutation_in _ P). assumption. }
  assert (Cov : forall x, In x l -> exists y, In y (sorted (unique l)) /\ ord y = ord x).
  { intros x I. destruct (unique_complete l N x I) as (y & J & E).
    exists y. split; [|assumption]. apply (Permutation_in _ (Permutation_sym P)). assumption. }
  destruct (sorted (unique l)) as [|u0 [|u1 rest]].
  - destruct l as [|a l]; [reflexivity|].
    destruct (Cov a (or_introl eq_refl)) as (y & [] & _).
  - intros x I. destruct (Cov x I) as (y & [<-|[]] & E). congruence.
  - inversion S as [|? ? S1 F0]; subst. inversion S1 as [|? ? S2 F1]; subst.
    inversion F0 as [|? ? L01 F0']; subst.
    inversion Ds as [|? ? Nd0 Ds1]; subst.
    rewrite Forall_forall in F0', F1. unfold ord_le in *.
    split; [apply In_s; left; reflexivity|].
    split; [apply In_s; right; left; reflexivity|].
    split.
    + assert (ord u0 <> ord u1) by (intros E; apply Nd0; left; symmetry; exact E).
      lia.
    + split.
      * intros x I. destruct (Cov x I) as (y & [<-|[<-|J]] & E); try lia.
        specialize (F0' _ J). lia.
      * intros x I Lx. destruct (Cov x I) as (y & [<-|[<-|J]] & E); try lia.
        specialize (F1 _ J). lia.
Qed.

(** Two numbers that compare equal are the same number or two zeros. *)
Lemma SFeqb_cases (a b : spec_float) :
  SFeqb a b = true -> a = b \/ exists s s', a = S754_zero s /\ b = S754_zero s'.
Proof.
  unfold SFeqb.
  destruct a as [sa|sa| |sa ma ea], b as [sb|sb| |sb mb eb]; cbn [SFcompare]; intros H.
  all: try discriminate H.
  all: try (right; eexists; eexists; split; reflexivity).
  all: try (destruct sa; discriminate H).
  all: try (destruct sb; discriminate H).
  - destruct sa, sb; try discriminate H; auto.
  - destruct sa, sb; try discriminate H;
      destruct (Z.compare_spec ea eb) as [->|L|G]; try discriminate H;
      destruct (Pos.compare_cont Eq ma mb) eqn:C; try discriminate H;
      apply Pos.compare_eq in C; subst; auto.
Qed.

Lemma ord_eq_cases (a b : float) :
  is_nan a = false -> is_nan b = false -> ord a = ord b ->
  a = b \/ exists s s', Prim2SF a = S754_zero s /\ Prim2SF b = S754_zero s'.
Proof.
  intros Na Nb E.
  assert (Q : (a =? b)%float = true)
    by (rewrite eqb_ord by assumption; apply Z.eqb_eq; assumption).
  rewrite eqb_spec in Q. apply SFeqb_cases in Q as [Q|Q]; [|auto].
  left. apply Prim2SF_inj. assumption.
Qed.

Lemma ord_positive (x : float) :
  0 < ord x ->
  (exists m e, Prim2SF x = S754_finite false m e) \/ Prim2SF x = S754_infinity false.
Proof.
  unfold ord. pose proof (Prim2SF_valid x) as V.
  destruct (Prim2SF x) as [s|s| |s m e]; cbn [SFord]; try lia.
  - destruct s; cbn [cond_Zopp]; [|auto].
    assert (0 < 2 ^ 2100) by (apply pow2_pos; lia). lia.
  - pose proof (finite_ord_bounds _ _ _ V). destruct s; cbn [cond_Zopp]; [lia|eauto].
Qed.

Lemma ord_negative (x : float) :
  ord x < 0 ->
  (exists m e, Prim2SF x = S754_finite true m e) \/ Prim2SF x = S754_infinity true.
Proof.
  unfold ord. pose proof (Prim2SF_valid x) as V.
  destruct (Prim2SF x) as [s|s| |s m e]; cbn [SFord]; try lia.
  - destruct s; cbn [cond_Zopp]; [auto|].
    assert (0 < 2 ^ 2100) by (apply pow2_pos; lia). lia.
  - pose proof (finite_ord_bounds _ _ _ V). destruct s; cbn [cond_Zopp]; [eauto|lia].
Qed.

(** The difference of two numbers does not depend on the sign of a zero
    among them. *)
Lemma sub_same_ord (a a' b b' : float) :
  is_nan a = false -> is_nan a' = false -> is_nan b = false -> is_nan b' = false ->
  ord a = ord a' -> ord b = ord b' -> ord a < ord b ->
  (b - a)%float = (b' - a')%float.
Proof.
  intros Na Na' Nb Nb' Ea Eb L.
  destruct (ord_eq_cases a a' Na Na' Ea) as [->|(s & s' & Za & Za')];
  destruct (ord_eq_cases b b' Nb Nb' Eb) as [->|(t & t' & Zb & Zb')].
  - reflexivity.
  - apply Prim2SF_inj. rewrite !sub_spec, Zb, Zb'.
    assert (N : ord a' < 0) by (unfold ord at 2 in L; rewrite Zb in L; exact L).
    destruct (ord_negative _ N) as [(m & e & ->)| ->]; reflexivity.
  - apply Prim2SF_inj. rewrite !sub_spec, Za, Za'.
    assert (P : 0 < ord b') by (unfold ord at 1 in L; rewrite Za in L; exact L).
    destruct (ord_positive _ P) as [(m & e & ->)| ->]; reflexivity.
  - unfold ord in L. rewrite Za, Zb in L. simpl in L. lia.
Qed.

Lemma iter_pos_nat {A : Type} (f : A -> A) (p : positive) :
  forall x, iter_pos f p x = Nat.iter (Pos.to_nat p) f x.
Proof.
  induction p as [p IH|p IH|]; intros x; cbn [iter_pos].
  - rewrite !IH. rewrite Pos2Nat.inj_xI.
    replace (S (2 * Pos.to_nat p)) with (Pos.to_nat p + (Pos.to_nat p + 1))%nat by lia.
    rewrite !Nat.iter_add. simpl. reflexivity.
  - rewrite !IH. rewrite Pos2Nat.inj_xO.
    replace (2 * Pos.to_nat p)%nat with (Pos.to_nat p + Pos.to_nat p)%nat by lia.
    rewrite Nat.iter_add. reflexivity.
  - reflexivity.
Qed.

Lemma shr_1_shifted (m0 : Z) (k : nat) (r : shr_record) :
  shifted m0 k r -> shifted m0 (S k) (shr_1 r).
Proof.
  intros (P & L & B & E & Hs). destruct r as [m rb sb]. cbn [shr_m shr_r shr_s] in *.
  assert (P2 : 2 ^ Z.succ (Z.of_nat k) = 2 * 2 ^ Z.of_nat k) by (apply Z.pow_succ_r; lia).
  assert (P3 : 2 ^ (Z.succ (Z.of_nat k) + 1) = 4 * 2 ^ Z.of_nat k).
  { replace (Z.succ (Z.of_nat k) + 1) with (Z.succ (Z.succ (Z.of_nat k))) by lia.
    rewrite !Z.pow_succ_r by lia. lia. }
  assert (P1 : 2 ^ (Z.of_nat k + 1) = 2 * 2 ^ Z.of_nat k)
    by (rewrite Z.add_1_r; apply Z.pow_succ_r; lia).
  rewrite P1 in E.
  assert (Q : forall m' (b : bool), m = 2 * m' + (if b then 1 else 0) -> 0 <= m' ->
     shifted m0 (S k) {| shr_m := m'; shr_r := b; shr_s := rb || sb |}).
  { intros m' b Hm Hm'. split; [exact Hm'|]. cbn [shr_m shr_r shr_s].
    exists ((if rb then 2 ^ Z.of_nat k else 0) + L).
    rewrite Nat2Z.inj_succ, P2, P3. split; [|split].
    - destruct rb; lia.
    - destruct b; lia.
    - rewrite orb_true_iff. destruct rb.
      + split; [lia|auto].
      + split; [intros [X|X]; [discriminate | apply Hs in X; lia]|].
        intros X. right. apply Hs. lia. }
  unfold shr_1.
  destruct m as [|[p|p|]|p]; try lia.
  - apply (Q 0 false); lia.
  - apply (Q (Zpos p) true); lia.
  - apply (Q (Zpos p) false); lia.
  - apply (Q 0 true); lia.
Qed.

Lemma iter_shifted (m0 : Z) (k : nat) :
  0 <= m0 ->
  shifted m0 k (Nat.iter k shr_1 {| shr_m := m0; shr_r := false; shr_s := false |}).
Proof.
  intros P. induction k as [|k IH].
  - split; [exact P|]. exists 0. cbn [Nat.iter nat_rect shr_m shr_r shr_s Z.of_nat].
    change (2 ^ (0 + 1)) with 2. change (2 ^ 0) with 1.
    split; [lia|]. split; [lia|]. split; [discriminate | congruence].
  - simpl. apply shr_1_shifted. exact IH.
Qed.

(** Rounding to nearest after [k] shifts is off by at most half a unit of
    the quotient. *)
Lemma round_shifted (m0 : Z) (k : nat) (r : shr_record) :
  shifted m0 k r ->
  let m1 := round_nearest_even (shr_m r) (loc_of_shr_record r) in
  shr_m r <= m1 <= shr_m r + 1
  /\ 2 * Z.abs (m1 * 2 ^ Z.of_nat k - m0) <= 2 ^ Z.of_nat k.
Proof.
  intros (P & L & B & E & Hs). destruct r as [m rb sb]. cbn [shr_m shr_r shr_s] in *.
  assert (P1 : 2 ^ (Z.of_nat k + 1) = 2 * 2 ^ Z.of_nat k)
    by (rewrite Z.add_1_r; apply Z.pow_succ_r; lia).
  rewrite P1 in E.
  unfold loc_of_shr_record, round_nearest_even.
  destruct rb, sb; cbn zeta.
  - assert (L <> 0) by (apply Hs; reflexivity). split; lia.
  - assert (L = 0) by (destruct (Z.eq_dec L 0); [assumption | apply Hs in n; discriminate]).
    destruct (Z.even m); split; lia.
  - split; lia.
  - assert (L = 0) by (destruct (Z.eq_dec L 0); [assumption | apply Hs in n; discriminate]).
    split; lia.
Qed.

Lemma shr_fexp_exact (m e : Z) :
  shr_fexp 53 1024 m e loc_Exact
  = shr {| shr_m := m; shr_r := false; shr_s := false |} e
      (Z.max (Zdigits2 m + e - 53) (-1074) - e).
Proof. reflexivity. Qed.

Lemma digits_of_bounds (q : positive) (d : Z) :
  2 ^ (d - 1) <= Zpos q < 2 ^ d -> 1 <= d -> Zpos (digits2_pos q) = d.
Proof.
  intros [L U] D. pose proof (digits2_pos_bounds q) as [L' U'].
  set (d' := Zpos (digits2_pos q)) in *.
  assert (D' : 1 <= d') by (subst d'; lia).
  destruct (Z.lt_trichotomy d' d) as [X|[X|X]]; [|assumption|]; exfalso.
  - assert (2 ^ d' <= 2 ^ (d - 1)) by (apply Z.pow_le_mono_r; lia). lia.
  - assert (2 ^ d <= 2 ^ (d' - 1)) by (apply Z.pow_le_mono_r; lia). lia.
Qed.

(** Rounding an exact mantissa to binary64: the result, when it is not an
    infinity, is within 2^-53 of the value rounded, relatively. *)
Lemma binary_round_aux_error (s : bool) (mz : positive) (ez : Z) :
  -1074 <= ez ->
  match binary_round_aux 53 1024 s (Zpos mz) ez loc_Exact with
  | S754_infinity _ => True
  | z => exists R, SFord z = cond_Zopp s R
                   /\ 2 ^ 53 * Z.abs (R - units (Zpos mz) ez) <= units (Zpos mz) ez
  end.
Proof.
  intros E. unfold binary_round_aux. rewrite shr_fexp_exact.
  cbn [Zdigits2]. pose proof (digits2_pos_bounds mz) as [DL DU].
  set (d := Zpos (digits2_pos mz)) in *.
  assert (PE : 0 < 2 ^ (ez + 1074)) by (apply pow2_pos; lia).
  destruct (Z.max (d + ez - 53) (-1074) - ez) as [|pn|nn] eqn:N1; cbn [shr].
  - (* no shift *)
    cbn [shr_m loc_of_shr_record round_nearest_even].
    rewrite shr_fexp_exact. cbn [Zdigits2]. fold d. rewrite N1. cbn [shr shr_m].
    destruct (ez <=? 1024 - 53); [|exact I].
    exists (units (Zpos mz) ez). split; [reflexivity|].
    rewrite Z.sub_diag. simpl Z.abs. unfold units. lia.
  - (* a shift by [pn] bits *)
    assert (Hd : Zpos pn = d - 53) by lia.
    rewrite iter_pos_nat.
    set (k := Pos.to_nat pn).
    assert (Hk : Z.of_nat k = Zpos pn) by (subst k; apply positive_nat_Z).
    pose proof (iter_shifted (Zpos mz) k ltac:(lia)) as Sh.
    set (r := Nat.iter k shr_1 {| shr_m := Zpos mz; shr_r := false; shr_s := false |}) in *.
    destruct (round_shifted _ _ _ Sh) as (Rb & Re).
    set (m1 := round_nearest_even (shr_m r) (loc_of_shr_record r)) in *.
    destruct Sh as (P0 & L & LB & LE & _).
    rewrite Hk in *.
    set (T := 2 ^ Zpos pn) in *.
    assert (PT : 0 < T) by (subst T; apply pow2_pos; lia).
    assert (T1 : 2 ^ (Zpos pn + 1) = 2 * T)
      by (subst T; rewrite Z.add_1_r; apply Z.pow_succ_r; lia).
    rewrite T1 in LE.
    assert (D1 : 2 ^ (d - 1) = 2 ^ 52 * T).
    { subst T. rewrite <- Z.pow_add_r by lia. f_equal. lia. }
    assert (D2 : 2 ^ d = 2 ^ 53 * T).
    { subst T. rewrite <- Z.pow_add_r by lia. f_equal. lia. }
    rewrite D1 in DL. rewrite D2 in DU.
    assert (Mt : 2 ^ 52 <= shr_m r < 2 ^ 53).
    { assert (0 <= (if shr_r r then T else 0) + L < 2 * T) by (destruct (shr_r r); lia).
      change (2 ^ 53) with (2 * 2 ^ 52) in *. split; nia. }
    assert (M1 : 2 ^ 52 <= m1 <= 2 ^ 53) by lia.
    assert (PEn : 2 ^ (ez + Zpos pn + 1074) = T * 2 ^ (ez + 1074)).
    { subst T. rewrite <- Z.pow_add_r by lia. f_equal. lia. }
    assert (Err : 2 ^ 53 * Z.abs (units m1 (ez + Zpos pn) - units (Zpos mz) ez)
                  <= units (Zpos mz) ez).
    { unfold units. rewrite PEn.
      replace (m1 * (T * 2 ^ (ez + 1074)) - Zpos mz * 2 ^ (ez + 1074))
        with ((m1 * T - Zpos mz) * 2 ^ (ez + 1074)) by ring.
      rewrite Z.abs_mul, (Z.abs_eq (2 ^ (ez + 1074))) by lia.
      change (2 ^ 53) with (2 ^ 52 * 2).
      assert (2 ^ 52 * (2 * Z.abs (m1 * T - Zpos mz)) <= Zpos mz) by nia.
      nia. }
    rewrite shr_fexp_exact.
    destruct m1 as [|q|q] eqn:Em1; try lia.
    cbn [Zdigits2].
    destruct (Z.eq_dec (Zpos q) (2 ^ 53)) as [Top|NTop].
    + (* the mantissa rounded up to 2^53 *)
      assert (Dq : Zpos (digits2_pos q) = 54).
      { apply digits_of_bounds; [|lia]. rewrite Top. split; [reflexivity|].
        apply Z.pow_lt_mono_r; lia. }
      rewrite Dq.
      replace (Z.max (54 + (ez + Zpos pn) - 53) (-1074) - (ez + Zpos pn)) with 1 by lia.
      assert (Q : q = (2 ^ 53)%positive) by (apply Pos2Z.inj; rewrite Top; reflexivity).
      subst q. cbn [shr].
      replace (iter_pos shr_1 1
                 {| shr_m := Z.pos (2 ^ 53); shr_r := false; shr_s := false |})
        with {| shr_m := 4503599627370496; shr_r := false; shr_s := false |}
        by (vm_compute; reflexivity).
      cbn [shr_m].
      destruct (ez + Zpos pn + 1 <=? 1024 - 53); [|exact I].
      exists (units (2 ^ 53) (ez + Zpos pn)). split.
      * cbn [SFord]. f_equal. unfold units.
        replace (ez + Zpos pn + 1 + 1074) with (Z.succ (ez + Zpos pn + 1074)) by lia.
        rewrite Z.pow_succ_r by lia.
        change (2 ^ 53) with (4503599627370496 * 2). ring.
      * exact Err.
    + assert (Dq : Zpos (digits2_pos q) = 53).
      { apply digits_of_bounds; [|lia]. change (53 - 1) with 52. lia. }
      rewrite Dq.
      replace (Z.max (53 + (ez + Zpos pn) - 53) (-1074) - (ez + Zpos pn)) with 0 by lia.
      cbn [shr shr_m].
      destruct (ez + Zpos pn <=? 1024 - 53); [|exact I].
      exists (units (Zpos q) (ez + Zpos pn)). split; [reflexivity | exact Err].
  - (* a negative count: no shift *)
    cbn [shr_m loc_of_shr_record round_nearest_even].
    rewrite shr_fexp_exact. cbn [Zdigits2]. fold d. rewrite N1. cbn [shr shr_m].
    destruct (ez <=? 1024 - 53); [|exact I].
    exists (units (Zpos mz) ez). split; [reflexivity|].
    rewrite Z.sub_diag. simpl Z.abs. unfold units. lia.
Qed.

Lemma pos_iter_xO (m d : positive) : Zpos (Pos.iter xO m d) = Zpos m * 2 ^ Zpos d.
Proof.
  induction d as [|d IH] using Pos.peano_ind.
  - simpl. lia.
  - rewrite Pos.iter_succ, Pos2Z.inj_xO, IH, Pos2Z.inj_succ, Z.pow_succ_r by lia. ring.
Qed.

(** Aligning a mantissa to a smaller exponent keeps the value. *)
Lemma shl_align_units (mx : positive) (ex ex' : Z) :
  -1074 <= ex -> -1074 <= ex' ->
  units (Zpos (fst (shl_align mx ex ex'))) (snd (shl_align mx ex ex')) = units (Zpos mx) ex
  /\ -1074 <= snd (shl_align mx ex ex')
  /\ (ex' <= ex -> snd (shl_align mx ex ex') = ex').
Proof.
  intros E E'. unfold shl_align.
  destruct (ex' - ex) as [|d|d] eqn:D; cbn [fst snd].
  - split; [reflexivity|]. split; lia.
  - split; [reflexivity|]. split; lia.
  - split; [|split; lia]. unfold units. rewrite pos_iter_xO.
    replace (ex + 1074) with (Zpos d + (ex' + 1074)) by lia.
    rewrite (Z.pow_add_r 2 (Zpos d) (ex' + 1074)) by lia. ring.
Qed.

Lemma binary_round_error (s : bool) (p : positive) (e : Z) :
  -1074 <= e ->
  match binary_round 53 1024 s p e with
  | S754_infinity _ => True
  | z => exists R, SFord z = cond_Zopp s R
                   /\ 2 ^ 53 * Z.abs (R - units (Zpos p) e) <= units (Zpos p) e
  end.
Proof.
  intros E. unfold binary_round.
  set (fe := SpecFloat.fexp 53 1024 (Zpos (digits2_pos p) + e)).
  assert (F : -1074 <= fe) by (subst fe; unfold SpecFloat.fexp, emin; lia).
  destruct (shl_align_units p e fe E F) as (U & B & _).
  destruct (shl_align p e fe) as [mz ez]. cbn [fst snd] in *.
  rewrite <- U. apply binary_round_aux_error. exact B.
Qed.

Lemma binary_normalize_error (m e : Z) :
  -1074 <= e ->
  match binary_normalize 53 1024 m e false with
  | S754_infinity _ => True
  | z => 2 ^ 53 * Z.abs (SFord z - units m e) <= Z.abs (units m e)
  end.
Proof.
  intros E. unfold binary_normalize. destruct m as [|p|p].
  - simpl. lia.
  - pose proof (binary_round_error false p e E) as H.
    destruct (binary_round 53 1024 false p e); try exact I;
      destruct H as (R & -> & H); cbn [cond_Zopp]; lia.
  - pose proof (binary_round_error true p e E) as H.
    assert (N : units (Zneg p) e = - units (Zpos p) e)
      by (unfold units; rewrite <- Pos2Z.opp_pos; ring).
    destruct (binary_round 53 1024 true p e); try exact I;
      destruct H as (R & -> & H); cbn [cond_Zopp]; rewrite N; lia.
Qed.

Lemma aligned_units (s : bool) (m : positive) (e ez : Z) :
  -1074 <= ez -> ez <= e ->
  units (cond_Zopp s (Zpos (fst (shl_align m e ez)))) ez = cond_Zopp s (units (Zpos m) e).
Proof.
  intros Ez L. destruct (shl_align_units m e ez ltac:(lia) Ez) as (U & _ & Sn).
  rewrite (Sn L) in U. unfold units in *.
  destruct s; cbn [cond_Zopp]; lia.
Qed.

Ltac exact_result :=
  match goal with
  | |- 2 ^ 53 * Z.abs (?a - ?b) <= Z.abs _ =>
      replace (a - b) with 0 by (repeat match goal with s : bool |- _ => destruct s end;
                                  cbn [negb cond_Zopp]; lia);
      change (Z.abs 0) with 0; rewrite Z.mul_0_r; apply Z.abs_nonneg
  end.

Lemma SFadd_error (x y : spec_float) :
  valid_binary x = true -> valid_binary y = true ->
  SFfinite x = true -> SFfinite y = true ->
  SFfinite (SFadd 53 1024 x y) = true ->
  2 ^ 53 * Z.abs (SFord (SFadd 53 1024 x y) - (SFord x + SFord y))
  <= Z.abs (SFord x + SFord y).
Proof.
  intros Vx Vy Fx Fy.
  destruct x as [sx|sx| |sx mx ex], y as [sy|sy| |sy my ey]; try discriminate;
    cbn [SFadd SFord].
  - intros _. destruct sx, sy; cbn [SFord]; exact_result.
  - intros _. set (v := Zpos my * 2 ^ (ey + 1074)). exact_result.
  - intros _. set (v := Zpos mx * 2 ^ (ex + 1074)). exact_result.
  - apply valid_finite in Vx as (Ex & _), Vy as (Ey & _).
    cbn zeta. set (ez := Z.min ex ey).
    pose proof (binary_normalize_error
      (cond_Zopp sx (Zpos (fst (shl_align mx ex ez)))
       + cond_Zopp sy (Zpos (fst (shl_align my ey ez)))) ez ltac:(lia)) as H.
    assert (U : units (cond_Zopp sx (Zpos (fst (shl_align mx ex ez)))
                       + cond_Zopp sy (Zpos (fst (shl_align my ey ez)))) ez
                = cond_Zopp sx (Zpos mx * 2 ^ (ex + 1074))
                  + cond_Zopp sy (Zpos my * 2 ^ (ey + 1074))).
    { pose proof (aligned_units sx mx ex ez ltac:(lia) ltac:(lia)) as A.
      pose proof (aligned_units sy my ey ez ltac:(lia) ltac:(lia)) as B.
      unfold units in *. rewrite Z.mul_add_distr_r, A, B. reflexivity. }
    rewrite U in H.
    destruct (binary_normalize 53 1024 _ ez false); try discriminate; intros _; exact H.
Qed.

Lemma SFsub_error (x y : spec_float) :
  valid_binary x = true -> valid_binary y = true ->
  SFfinite x = true -> SFfinite y = true ->
  SFfinite (SFsub 53 1024 x y) = true ->
  2 ^ 53 * Z.abs (SFord (SFsub 53 1024 x y) - (SFord x - SFord y))
  <= Z.abs (SFord x - SFord y).
Proof.
  intros Vx Vy Fx Fy.
  destruct x as [sx|sx| |sx mx ex], y as [sy|sy| |sy my ey]; try discriminate;
    cbn [SFsub SFord].
  - intros _. destruct sx, sy; cbn [SFord]; exact_result.
  - intros _. cbn [SFord]. set (v := Zpos my * 2 ^ (ey + 1074)). exact_result.
  - intros _. set (v := Zpos mx * 2 ^ (ex + 1074)). exact_result.
  - apply valid_finite in Vx as (Ex & _), Vy as (Ey & _).
    cbn zeta. set (ez := Z.min ex ey).
    pose proof (binary_normalize_error
      (cond_Zopp sx (Zpos (fst (shl_align mx ex ez)))
       - cond_Zopp sy (Zpos (fst (shl_align my ey ez)))) ez ltac:(lia)) as H.
    assert (U : units (cond_Zopp sx (Zpos (fst (shl_align mx ex ez)))
                       - cond_Zopp sy (Zpos (fst (shl_align my ey ez)))) ez
                = cond_Zopp sx (Zpos mx * 2 ^ (ex + 1074))
                  - cond_Zopp sy (Zpos my * 2 ^ (ey + 1074))).
    { pose proof (aligned_units sx mx ex ez ltac:(lia) ltac:(lia)) as A.
      pose proof (aligned_units sy my ey ez ltac:(lia) ltac:(lia)) as B.
      unfold units in *. rewrite Z.mul_sub_distr_r, A, B. reflexivity. }
    rewrite U in H.
    destruct (binary_normalize 53 1024 _ ez false); try discriminate; intros _; exact H.
Qed.

Lemma is_finite_spec (x : float) : is_finite x = SFfinite (Prim2SF x).
Proof.
  unfold is_finite, is_infinity. rewrite eqb_spec, abs_spec.
  change (Prim2SF infinity) with (S754_infinity false).
  destruct (is_nan x) eqn:N.
  - apply is_nan_spec in N. rewrite N. reflexivity.
  - apply not_nan in N.
    destruct (Prim2SF x) as [s|s| |s m e]; try congruence; reflexivity.
Qed.

Lemma finite_not_nan (x : float) : is_finite x = true -> is_nan x = false.
Proof.
  unfold is_finite. destruct (is_nan x); [discriminate | reflexivity].
Qed.

(** Binary64 addition and subtraction of finite numbers, when they do not
    overflow, are within 2^-53 of the exact result, relatively. *)
Lemma add_error (x y : float) :
  is_finite x = true -> is_finite y = true -> is_finite (x + y) = true ->
  2 ^ 53 * Z.abs (ord (x + y) - (ord x + ord y)) <= Z.abs (ord x + ord y).
Proof.
  rewrite !is_finite_spec. unfold ord. rewrite add_spec.
  intros Fx Fy Fz. apply SFadd_error; auto using Prim2SF_valid.
Qed.

Lemma sub_error (x y : float) :
  is_finite x = true -> is_finite y = true -> is_finite (x - y) = true ->
  2 ^ 53 * Z.abs (ord (x - y) - (ord x - ord y)) <= Z.abs (ord x - ord y).
Proof.
  rewrite !is_finite_spec. unfold ord. rewrite sub_spec.
  intros Fx Fy Fz. apply SFsub_error; auto using Prim2SF_valid.
Qed.

(** A finite sum or difference has finite operands. *)
Lemma SFadd_finite_args (x y : spec_float) :
  SFfinite (SFadd prec emax x y) = true -> SFfinite x = true /\ SFfinite y = true.
Proof.
  destruct x as [sx|sx| |sx mx ex], y as [sy|sy| |sy my ey];
    try (intros _; split; reflexivity); simpl; try discriminate.
  all: destruct sx, sy; discriminate.
Qed.

Lemma SFsub_finite_args (x y : spec_float) :
  SFfinite (SFsub prec emax x y) = true -> SFfinite x = true /\ SFfinite y = true.
Proof.
  destruct x as [sx|sx| |sx mx ex], y as [sy|sy| |sy my ey];
    try (intros _; split; reflexivity); simpl; try discriminate.
  all: destruct sx, sy; discriminate.
Qed.

Lemma add_finite_args (x y : float) :
  is_finite (x + y) = true -> is_finite x = true /\ is_finite y = true.
Proof. rewrite !is_finite_spec, add_spec. apply SFadd_finite_args. Qed.

Lemma sub_finite_args (x y : float) :
  is_finite (x - y) = true -> is_finite x = true /\ is_finite y = true.
Proof. rewrite !is_finite_spec, sub_spec. apply SFsub_finite_args. Qed.

Lemma ltb_of_ord (a b : float) :
  is_finite a = true -> is_finite b = true -> ord a < ord b -> (a <? b)%float = true.
Proof.
  intros Fa Fb L. rewrite ltb_ord by (apply finite_not_nan; assumption).
  apply Z.ltb_lt. assumption.
Qed.

(** A half spacing that [separates] a coordinate puts the two sides of the
    cell strictly around it. *)
Lemma separates_spec (half c : float) :
  separates half c = true ->
  is_finite c = true /\ is_finite half = true
  /\ is_finite (c - half) = true /\ is_finite (c + half) = true
  /\ ord (c - half) < ord c < ord (c + half).
Proof.
  unfold separates. rewrite !andb_true_iff.
  intros (((Fs & Fa) & P) & B). apply Z.ltb_lt in P. apply Z.leb_le in B.
  destruct (sub_finite_args _ _ Fs) as (Fc & Fh).
  pose proof (sub_error c half Fc Fh Fs) as Es.
  pose proof (add_error c half Fc Fh Fa) as Ea.
  change (2 ^ 53) with 9007199254740992 in *.
  change (2 ^ 52) with 4503599627370496 in *.
  repeat split; try assumption; lia.
Qed.

End F64.

(** ** Rectangles and exact values *)

Module Geometry.
Import F64.
Local Open Scope Q_scope.

Lemma rectangle_area (w e s n : Q) :
  signed_area (rectangle w e s n) == (e - w) * (n - s).
Proof. unfold signed_area, rectangle. cbn [shoelace fst snd]. field. Qed.

Lemma rectangle_area_pos (w e s n : Q) :
  w < e -> s < n -> 0 < signed_area (rectangle w e s n).
Proof.
  intros H1 H2. pose proof (rectangle_area w e s n) as A.
  pose proof (Qmult_lt_0_compat (e - w) (n - s)) as P.
  set (x := signed_area (rectangle w e s n)) in *.
  set (y := (e - w) * (n - s)) in *. lra.
Qed.

Lemma rectangle_centroid (w e s n : Q) :
  w < e -> s < n ->
  fst (centroid (rectangle w e s n)) == (w + e) / 2
  /\ snd (centroid (rectangle w e s n)) == (s + n) / 2.
Proof.
  intros H1 H2. unfold centroid, signed_area, rectangle.
  cbn [shoelace centroid_sums fst snd].
  assert (A : ~ (e - w) * (n - s) == 0).
  { intros Z. pose proof (Qmult_lt_0_compat (e - w) (n - s)) as P.
    set (y := (e - w) * (n - s)) in *. lra. }
  split; field; intros Z; apply A; lra.
Qed.

Lemma rectangle_simple (w e s n : Q) :
  w < e -> s < n -> non_self_intersecting (rectangle w e s n).
Proof.
  intros H1 H2 i j a b c d p Lij Ei Ej (t & Ht & X1 & Y1) (u & Hu & X2 & Y2).
  unfold rectangle, edges in *. simpl in Ei, Ej. cbn [List.length combine tl].
  destruct i as [|[|[|[|i]]]]; simpl in Ei; try (destruct i; discriminate Ei);
  destruct j as [|[|[|[|j]]]]; simpl in Ej; try lia; try (destruct j; discriminate Ej);
  injection Ei as <- <-; injection Ej as <- <-; simpl in *; unfold same_point; simpl.
  - left. split; [reflexivity|]. split; lra.
  - exfalso. lra.
  - right. split; [reflexivity|]. split; [reflexivity|]. split; lra.
  - left. split; [reflexivity|]. split; lra.
  - exfalso. lra.
  - left. split; [reflexivity|]. split; lra.
Qed.

Lemma units_minus (a b : Z) (D : positive) : (a # D) - (b # D) == (a - b) # D.
Proof. unfold Qeq, Qminus, Qplus, Qopp. simpl. rewrite Pos2Z.inj_mul. ring. Qed.

Lemma units_plus (a b : Z) (D : positive) : (a # D) + (b # D) == (a + b) # D.
Proof. unfold Qeq, Qplus. simpl. rewrite Pos2Z.inj_mul. ring. Qed.

Lemma units_le (a b : Z) (D : positive) : (a # D) <= (b # D) <-> (a <= b)%Z.
Proof. unfold Qle. simpl. split; intros H; nia. Qed.

Lemma units_lt (a b : Z) (D : positive) : (a # D) < (b # D) <-> (a < b)%Z.
Proof. unfold Qlt. simpl. split; intros H; nia. Qed.

Lemma units_scale (k a : Z) (D : positive) : (k # 1) * (a # D) == (k * a) # D.
Proof. unfold Qeq, Qmult. simpl. reflexivity. Qed.

Lemma F2Q_lt (a b : float) :
  is_nan a = false -> is_nan b = false ->
  (a <? b)%float = true -> F2Q a < F2Q b.
Proof.
  intros Na Nb L. rewrite ltb_ord in L by assumption. apply Z.ltb_lt in L.
  apply units_lt. assumption.
Qed.

(** The rounding error bounds of [F64], on exact values. *)
Lemma sub_error_Q (x y : float) :
  is_finite x = true -> is_finite y = true -> is_finite (x - y) = true ->
  (2 ^ 53 # 1) * Qabs (F2Q (x - y) - (F2Q x - F2Q y)) <= Qabs (F2Q x - F2Q y).
Proof.
  intros Fx Fy Fz. pose proof (sub_error x y Fx Fy Fz) as H.
  unfold F2Q. rewrite !units_minus. unfold Qabs at 1 2.
  rewrite units_scale. apply units_le. exact H.
Qed.

Lemma add_error_Q (x y : float) :
  is_finite x = true -> is_finite y = true -> is_finite (x + y) = true ->
  (2 ^ 53 # 1) * Qabs (F2Q (x + y) - (F2Q x + F2Q y)) <= Qabs (F2Q x + F2Q y).
Proof.
  intros Fx Fy Fz. pose proof (add_error x y Fx Fy Fz) as H.
  unfold F2Q. rewrite units_plus, units_minus. unfold Qabs at 1 2.
  rewrite units_scale. apply units_le. exact H.
Qed.

(** The midpoint of [l - h] and [l + h], each rounded, is close to [l]. *)
Lemma midpoint_tolerance (w e l h : Q) :
  (2 ^ 53 # 1) * Qabs (w - (l - h)) <= Qabs (l - h) ->
  (2 ^ 53 # 1) * Qabs (e - (l + h)) <= Qabs (l + h) ->
  Qabs ((w + e) / 2 - l) <= (1 # 2 ^ 53) * (Qabs l + Qabs h).
Proof.
  intros Hw He.
  assert (M : (w + e) / 2 == (w + e) * (1 # 2)) by field. rewrite M. clear M.
  pose proof (Qle_Qabs l) as L1. pose proof (Qle_Qabs (- l)) as L2.
  rewrite Qabs_opp in L2.
  pose proof (Qle_Qabs h) as H1. pose proof (Qle_Qabs (- h)) as H2.
  rewrite Qabs_opp in H2.
  set (al := Qabs l) in *. set (ah := Qabs h) in *.
  assert (T1 : Qabs (l - h) <= al + ah) by (apply Qabs_Qle_condition; lra).
  assert (T2 : Qabs (l + h) <= al + ah) by (apply Qabs_Qle_condition; lra).
  pose proof (Qle_Qabs (w - (l - h))) as W1.
  pose proof (Qle_Qabs (- (w - (l - h)))) as W2. rewrite Qabs_opp in W2.
  pose proof (Qle_Qabs (e - (l + h))) as E1.
  pose proof (Qle_Qabs (- (e - (l + h)))) as E2. rewrite Qabs_opp in E2.
  set (ew := Qabs (w - (l - h))) in *. set (ee := Qabs (e - (l + h))) in *.
  change (2 ^ 53 # 1) with (9007199254740992 # 1) in *.
  change (1 # 2 ^ 53) with (1 # 9007199254740992).
  set (x1 := Qabs (l - h)) in *. set (x2 := Qabs (l + h)) in *.
  clearbody ew ee al ah x1 x2.
  apply Qabs_Qle_condition. split; lra.
Qed.

Lemma exact_rectangle (W E S N : float) :
  exact_ring [(W, S); (E, S); (E, N); (W, N); (W, S)]
  = rectangle (F2Q W) (F2Q E) (F2Q S) (F2Q N).
Proof. reflexivity. Qed.

Lemma F2Q_lt_ord (a b : float) : (ord a < ord b)%Z -> F2Q a < F2Q b.
Proof. intros L. apply units_lt. assumption. Qed.

(** The midpoint of the two sides of a cell is within half a unit in the last
    place of the coordinate they were computed from. *)
Lemma centred (c half : float) :
  is_finite (c - half) = true -> is_finite (c + half) = true ->
  Qabs ((F2Q (c - half) + F2Q (c + half)) / 2 - F2Q c)
  <= (1 # 2 ^ 53) * (Qabs (F2Q c) + Qabs (F2Q half)).
Proof.
  intros Fs Fa. destruct (sub_finite_args _ _ Fs) as (Fc & Fh).
  apply midpoint_tolerance; [apply sub_error_Q | apply add_error_Q]; assumption.
Qed.

End Geometry.

(** ** Stage 3: the inferred grid spacing *)

Module Resolution.
Import F64.

(** The spacing computed from the values of one coordinate. *)
Lemma spacing_of_values (values : list float) (default : float) :
  no_nan values ->
  (forall lo hi, two_smallest values lo hi ->
     (if (1 <? List.length (sorted (unique values)))%nat
      then abs (nth 1 (sorted (unique values)) nan - nth 0 (sorted (unique values)) nan)
      else default)
     = abs (hi - lo)%float)
  /\ ((forall a b, In a values -> In b values -> (a =? b)%float = true) ->
       (if (1 <? List.length (sorted (unique values)))%nat
        then abs (nth 1 (sorted (unique values)) nan - nth 0 (sorted (unique values)) nan)
        else default)
       = default)
  /\ ((exists a b, In a values /\ In b values /\ (a =? b)%float = false) ->
       exists lo hi, two_smallest values lo hi).
Proof.
  intros N. pose proof (sorted_unique_head values N) as H.
  destruct (sorted (unique values)) as [|u0 [|u1 rest]].
  - subst values. split; [|split].
    + intros lo hi (I & _). contradiction.
    + reflexivity.
    + intros (a & b & I & _). contradiction.
  - split; [|split].
    + intros lo hi (Il & Ih & L & _). exfalso.
      rewrite ltb_ord in L by auto. apply Z.ltb_lt in L.
      rewrite (H _ Il), (H _ Ih) in L. lia.
    + reflexivity.
    + intros (a & b & Ia & Ib & Q). exfalso.
      rewrite eqb_ord in Q by auto. apply Z.eqb_neq in Q.
      rewrite (H _ Ia), (H _ Ib) in Q. congruence.
  - destruct H as (I0 & I1 & L01 & Min & Next).
    cbn [List.length Nat.ltb Nat.leb nth]. split; [|split].
    + intros lo hi (Il & Ih & L & Ml & Mh). f_equal.
      rewrite ltb_ord in L by auto. apply Z.ltb_lt in L.
      assert (E0 : ord u0 = ord lo).
      { pose proof (Min _ Il). pose proof (Ml _ I0) as X.
        rewrite leb_ord in X by auto. apply Z.leb_le in X. lia. }
      assert (E1 : ord u1 = ord hi).
      { assert (A : ord u1 <= ord hi) by (apply Next; [assumption | lia]).
        assert (B : (lo <? u1)%float = true)
          by (rewrite ltb_ord by auto; apply Z.ltb_lt; lia).
        pose proof (Mh _ I1 B) as X.
        rewrite leb_ord in X by auto. apply Z.leb_le in X. lia. }
      apply sub_same_ord; auto.
    + intros Q. exfalso. specialize (Q _ _ I0 I1).
      rewrite eqb_ord in Q by auto. apply Z.eqb_eq in Q. lia.
    + intros _. exists u0, u1. split; [assumption|]. split; [assumption|].
      split; [rewrite ltb_ord by auto; apply Z.ltb_lt; assumption|]. split.
      * intros c I. rewrite leb_ord by auto. apply Z.leb_le. auto.
      * intros c I L. rewrite ltb_ord in L by auto. apply Z.ltb_lt in L.
        rewrite leb_ord by auto. apply Z.leb_le. auto.
Qed.

Lemma make_features_cells (lat_res lon_res : float) (df_land : list Row) :
  make_features lat_res lon_res df_land
  = map (grid_cell lat_res lon_res) (filter (fun row => negb (isna (RH2M row))) df_land).
Proof.
  induction df_land as [|row rest IH]; simpl; [reflexivity|].
  destruct (isna (RH2M row)); simpl; rewrite IH; reflexivity.
Qed.

(** C2: on land rows whose coordinates are numbers, the latitude spacing is
    the absolute difference of the two smallest distinct latitudes when two
    distinct latitudes exist, and 0.5 when all latitudes are equal; the
    longitude spacing is computed in the same way with default 0.625; and in
    the document written for a table the corners of every cell are the row's
    longitude minus and plus half of this one longitude spacing and the row's
    latitude minus and plus half of this one latitude spacing. *)
Theorem grid_spacing (df_land : list Row) :
  no_nan (map lat df_land) -> no_nan (map lon df_land) ->
  (forall lo hi, two_smallest (map lat df_land) lo hi ->
     lat_res_of df_land = abs (hi - lo)%float)
  /\ ((exists a b, In a (map lat df_land) /\ In b (map lat df_land)
                   /\ (a =? b)%float = false) ->
      exists lo hi, two_smallest (map lat df_land) lo hi)
  /\ ((forall a b, In a (map lat df_land) -> In b (map lat df_land) ->
                   (a =? b)%float = true) ->
      lat_res_of df_land = 0.5%float)
  /\ (forall lo hi, two_smallest (map lon df_land) lo hi ->
        lon_res_of df_land = abs (hi - lo)%float)
  /\ ((exists a b, In a (map lon df_land) /\ In b (map lon df_land)
                   /\ (a =? b)%float = false) ->
      exists lo hi, two_smallest (map lon df_land) lo hi)
  /\ ((forall a b, In a (map lon df_land) -> In b (map lon df_land) ->
                   (a =? b)%float = true) ->
      lon_res_of df_land = 0.625%float)
  /\ (forall is_land csv_file output_geojson w table,
        table_at (files w) csv_file = Some table ->
        land_rows is_land table = df_land ->
        df_land <> [] ->
        lookup output_geojson
          (files (snd (csv_to_geojson is_land csv_file output_geojson w)))
        = Some (GeoJSON
                  (map (fun row =>
                          {| coordinates :=
                               [[ (lon row - lon_res_of df_land / 2,
                                   lat row - lat_res_of df_land / 2);
                                  (lon row + lon_res_of df_land / 2,
                                   lat row - lat_res_of df_land / 2);
                                  (lon row + lon_res_of df_land / 2,
                                   lat row + lat_res_of df_land / 2);
                                  (lon row - lon_res_of df_land / 2,
                                   lat row + lat_res_of df_land / 2);
                                  (lon row - lon_res_of df_land / 2,
                                   lat row - lat_res_of df_land / 2) ]]%float;
                             p_humidity := RH2M row; p_time := time row;
                             p_lat := lat row; p_lon := lon row |})
                     (filter (fun row => negb (isna (RH2M row))) df_land)))).
Proof.
  intros Nlat Nlon.
  destruct (spacing_of_values (map lat df_land) 0.5%float Nlat) as (A1 & A2 & A3).
  destruct (spacing_of_values (map lon df_land) 0.625%float Nlon) as (B1 & B2 & B3).
  repeat split; try assumption.
  intros is_land csv_file output_geojson w table T L Ne.
  rewrite Polygonizer.csv_to_geojson_run. cbn [snd files].
  unfold has_land, document_of, features_of. rewrite T, L.
  destruct df_land as [|r l]; [congruence|]. cbn [is_empty negb].
  rewrite WorldFacts.lookup_store_same, make_features_cells. reflexivity.
Qed.

Lemma grid_spacing_witness :
  no_nan (map lat example_table) /\ no_nan (map lon example_table)
  /\ lat_res_of example_table = abs (10 - 0)%float.
Proof.
  assert (H1 : no_nan (map lat example_table))
    by (intros x [<-|[<-|[]]]; reflexivity).
  assert (H2 : no_nan (map lon example_table))
    by (intros x [<-|[<-|[]]]; reflexivity).
  split; [exact H1|]. split; [exact H2|].
  destruct (grid_spacing example_table H1 H2) as (A & _).
  apply A. unfold two_smallest. simpl.
  repeat split; try (right; left; reflexivity); try (left; reflexivity);
    intros c [<-|[<-|[]]]; try reflexivity; intros L; vm_compute in L; discriminate L.
Defined.

End Resolution.

(** ** Stage 3: the grid cells *)

Module Cells.
Import F64 Geometry.

Lemma filter_land_value (is_land : float -> float -> bool) (df : list Row) :
  filter (fun row => negb (isna (RH2M row))) (land_rows is_land df)
  = filter (fun row => is_land (lat row) (lon row) && negb (isna (RH2M row))) df.
Proof.
  unfold land_rows. induction df as [|row df IH]; [reflexivity|]. cbn [filter].
  destruct (is_land (lat row) (lon row)); cbn [filter andb]; rewrite IH; reflexivity.
Qed.

(** C1, as the spec states it, fails on [close_table]: [row_east] is on land
    and has a value, its spacing of longitude is the distance to the next
    binary64 number, half of which is lost when it is added to or subtracted
    from 100; the west and east sides of its cell are both 100 and the ring
    runs up and down one segment. *)
Lemma close_longitudes_self_touching :
  In (grid_cell (lat_res_of (land_rows all_land close_table))
        (lon_res_of (land_rows all_land close_table)) row_east)
     (features_of all_land close_table)
  /\ all_land (lat row_east) (lon row_east) = true
  /\ isna (RH2M row_east) = false
  /\ coordinates (grid_cell (lat_res_of (land_rows all_land close_table))
                    (lon_res_of (land_rows all_land close_table)) row_east)
     = [collapsed_ring]
  /\ ~ non_self_intersecting (exact_ring collapsed_ring).
Proof.
  split; [left; reflexivity|]. split; [reflexivity|]. split; [reflexivity|].
  split; [vm_compute; reflexivity|].
  intros H.
  destruct (H 1%nat 3%nat (F2Q 100, F2Q 9.75) (F2Q 100, F2Q 10.25)
              (F2Q 100, F2Q 10.25) (F2Q 100, F2Q 9.75) (F2Q 100, F2Q 10))
    as [(E & _)|(E & _)]; try discriminate E; try reflexivity.
  - lia.
  - exists (1 # 2)%Q. split; [split; discriminate|]. split; vm_compute; reflexivity.
  - exists (1 # 2)%Q. split; [split; discriminate|]. split; vm_compute; reflexivity.
Qed.

(** C1: for a table whose coordinates are numbers, the features are the
    cells of its rows that are on land and have a value, one each and in
    order, and they are what the document written holds; the cell of a row is
    one ring of 5 vertices, the first equal to the last, at
    (lon -/+ lon_res/2, lat -/+ lat_res/2), tagged with the row's humidity,
    time, lat and lon.  When each half spacing is positive, at least 2^-52
    times the magnitude of the coordinate it is applied to, and leaves the
    corners finite, the ring is non-self-intersecting, its centroid is the
    midpoint of the corners, and the centroid is within
    2^-53 (|lon| + |lon_res/2|) of lon and within 2^-53 (|lat| + |lat_res/2|)
    of lat. *)
Theorem polygonizer_cells (is_land : float -> float -> bool) (df : list Row) :
  no_nan (map lat df) -> no_nan (map lon df) ->
  let lat_res := lat_res_of (land_rows is_land df) in
  let lon_res := lon_res_of (land_rows is_land df) in
  features_of is_land df
  = map (grid_cell lat_res lon_res)
      (filter (fun row => is_land (lat row) (lon row) && negb (isna (RH2M row))) df)
  /\ (forall csv_file output_geojson w,
        table_at (files w) csv_file = Some df ->
        land_rows is_land df <> [] ->
        lookup output_geojson
          (files (snd (csv_to_geojson is_land csv_file output_geojson w)))
        = Some (GeoJSON (features_of is_land df)))
  /\ forall row : Row,
       let f := grid_cell lat_res lon_res row in
       let W := (lon row - lon_res / 2)%float in
       let E := (lon row + lon_res / 2)%float in
       let S := (lat row - lat_res / 2)%float in
       let N := (lat row + lat_res / 2)%float in
       let ring := [(W, S); (E, S); (E, N); (W, N); (W, S)] in
       coordinates f = [ring]
       /\ List.length ring = 5%nat
       /\ hd_error ring = Some (last ring (W, S))
       /\ p_humidity f = RH2M row /\ p_time f = time row
       /\ p_lat f = lat row /\ p_lon f = lon row
       /\ (separates (lat_res / 2) (lat row) = true ->
           separates (lon_res / 2) (lon row) = true ->
           non_self_intersecting (exact_ring ring)
           /\ (fst (centroid (exact_ring ring)) == (F2Q W + F2Q E) / 2)%Q
           /\ (snd (centroid (exact_ring ring)) == (F2Q S + F2Q N) / 2)%Q
           /\ (Qabs (fst (centroid (exact_ring ring)) - F2Q (lon row))
               <= (1 # 2 ^ 53) * (Qabs (F2Q (lon row)) + Qabs (F2Q (lon_res / 2))))%Q
           /\ (Qabs (snd (centroid (exact_ring ring)) - F2Q (lat row))
               <= (1 # 2 ^ 53) * (Qabs (F2Q (lat row)) + Qabs (F2Q (lat_res / 2))))%Q).
Proof.
  intros _ _ lat_res lon_res. split; [|split].
  - unfold features_of. rewrite Resolution.make_features_cells, filter_land_value.
    reflexivity.
  - intros csv_file output_geojson w T Ne.
    rewrite Polygonizer.csv_to_geojson_run. cbn [snd files].
    unfold has_land, document_of. rewrite T.
    destruct (land_rows is_land df) as [|r l] eqn:L; [congruence|]. cbn [is_empty negb].
    rewrite WorldFacts.lookup_store_same. reflexivity.
  - intros row f W E S N ring.
    repeat (split; [reflexivity|]).
    intros Hlat Hlon.
    apply separates_spec in Hlat as (_ & _ & Fs & Fn & Ls & Ln).
    apply separates_spec in Hlon as (_ & _ & Fw & Fe & Lw & Le).
    fold W E S N in Fs, Fn, Fw, Fe, Ls, Ln, Lw, Le.
    assert (Lx : (F2Q W < F2Q E)%Q) by (apply F2Q_lt_ord; lia).
    assert (Ly : (F2Q S < F2Q N)%Q) by (apply F2Q_lt_ord; lia).
    unfold ring. rewrite exact_rectangle.
    destruct (rectangle_centroid _ _ _ _ Lx Ly) as (Cx & Cy).
    split; [apply rectangle_simple; assumption|].
    split; [exact Cx|]. split; [exact Cy|]. split.
    + rewrite Cx. apply centred; assumption.
    + rewrite Cy. apply centred; assumption.
Qed.

Lemma polygonizer_cells_witness :
  separates (0.5 / 2) 10 = true /\ separates (0.625 / 2) 20 = true
  /\ non_self_intersecting
       (exact_ring [(19.6875, 9.75); (20.3125, 9.75); (20.3125, 10.25);
                    (19.6875, 10.25); (19.6875, 9.75)]%float).
Proof.
  split; [vm_compute; reflexivity|]. split; [vm_compute; reflexivity|].
  assert (H1 : no_nan (map lat example_table))
    by (intros x [<-|[<-|[]]]; reflexivity).
  assert (H2 : no_nan (map lon example_table))
    by (intros x [<-|[<-|[]]]; reflexivity).
  destruct (polygonizer_cells example_land example_table H1 H2) as (_ & _ & H).
  destruct (H row_jun) as (_ & _ & _ & _ & _ & _ & _ & G).
  apply G; vm_compute; reflexivity.
Defined.

(** C10, as stated, fails on [close_table]: both spacings are positive, and
    the ring of [row_east] encloses no area. *)
Lemma close_longitudes_no_area :
  (0 <? lat_res_of (land_rows all_land close_table))%float = true
  /\ (0 <? lon_res_of (land_rows all_land close_table))%float = true
  /\ In (grid_cell (lat_res_of (land_rows all_land close_table))
           (lon_res_of (land_rows all_land close_table)) row_east)
        (features_of all_land close_table)
  /\ coordinates (grid_cell (lat_res_of (land_rows all_land close_table))
                    (lon_res_of (land_rows all_land close_table)) row_east)
     = [collapsed_ring]
  /\ ~ (0 < signed_area (exact_ring collapsed_ring))%Q.
Proof.
  split; [vm_compute; reflexivity|]. split; [vm_compute; reflexivity|].
  split; [left; reflexivity|]. split; [vm_compute; reflexivity|].
  vm_compute. discriminate.
Qed.

(** C10: for every cell of a document whose half spacings are positive,
    finite when subtracted from and added to the cell's coordinates, and at
    least 2^-52 times the magnitude of the coordinate they are applied to, the
    ring is SW, SE, NE, NW, SW with the west side west of the sample, the
    east side east of it, the south side south of it and the north side north
    of it, and its signed area is positive. *)
Theorem cells_counterclockwise (is_land : float -> float -> bool) (df : list Row)
  (f : Feature) :
  In f (features_of is_land df) ->
  separates (lat_res_of (land_rows is_land df) / 2) (p_lat f) = true ->
  separates (lon_res_of (land_rows is_land df) / 2) (p_lon f) = true ->
  exists W E S N : float,
    coordinates f = [[(W, S); (E, S); (E, N); (W, N); (W, S)]]
    /\ (W <? p_lon f)%float = true /\ (p_lon f <? E)%float = true
    /\ (S <? p_lat f)%float = true /\ (p_lat f <? N)%float = true
    /\ (0 < signed_area (exact_ring [(W, S); (E, S); (E, N); (W, N); (W, S)]))%Q.
Proof.
  unfold features_of. rewrite Resolution.make_features_cells.
  intros I Hlat Hlon. apply in_map_iff in I as (row & <- & _).
  cbn [grid_cell p_lat p_lon coordinates] in *.
  apply separates_spec in Hlat as (Fy & Fhy & Fs & Fn & Ls & Ln).
  apply separates_spec in Hlon as (Fx & Fhx & Fw & Fe & Lw & Le).
  eexists _, _, _, _. split; [reflexivity|].
  repeat split; try (apply ltb_of_ord; assumption).
  rewrite exact_rectangle. apply rectangle_area_pos; apply F2Q_lt_ord; lia.
Qed.

Lemma cells_counterclockwise_witness :
  exists W E S N : float,
    coordinates (grid_cell 0.5 0.625 row_jun) = [[(W, S); (E, S); (E, N); (W, N); (W, S)]]
    /\ (W <? 20)%float = true /\ (20 <? E)%float = true
    /\ (S <? 10)%float = true /\ (10 <? N)%float = true
    /\ (0 < signed_area (exact_ring [(W, S); (E, S); (E, N); (W, N); (W, S)]))%Q.
Proof.
  apply (cells_counterclockwise example_land example_table (grid_cell 0.5 0.625 row_jun)).
  - left. reflexivity.
  - vm_compute. reflexivity.
  - vm_compute. reflexivity.
Defined.

End Cells.

(** ** The constructor *)

Module Setup.

Lemma existsb_eqb (d : string) (l : list string) :
  existsb (String.eqb d) l = true <-> In d l.
Proof.
  rewrite existsb_exists. split.
  - intros (x & I & E). apply String.eqb_eq in E. subst. assumption.
  - intros I. exists d. split; [assumption | apply String.eqb_refl].
Qed.

Lemma makedirs_dirs (d : string) (w : World) :
  In d (dirs (snd (makedirs d w)))
  /\ (forall d', In d' (dirs (snd (makedirs d w))) <-> In d' (dirs w) \/ d' = d)
  /\ (In d (dirs w) -> dirs (snd (makedirs d w)) = dirs w).
Proof.
  unfold makedirs. cbn [snd dirs].
  destruct (existsb (String.eqb d) (dirs w)) eqn:E.
  - apply existsb_eqb in E. repeat split; auto.
    + intros [I| ->]; assumption.
  - assert (N : ~ In d (dirs w)).
    { intros I. apply existsb_eqb in I. congruence. }
    repeat split.
    + apply in_or_app. right. left. reflexivity.
    + intros I. apply in_app_or in I as [I|[<-|[]]]; auto.
    + intros [I| ->]; apply in_or_app; [left; assumption | right; left; reflexivity].
    + intros I. contradiction.
Qed.

(** X1: constructing the processor makes the two output directories exist,
    keeps every directory that existed and adds no other, touches no file and
    starts no process; constructing it again changes no directory. *)
Theorem init_directories (w : World) :
  In OUTPUT_DIR (dirs (snd (HumidityProcessor_init w)))
  /\ In MBTILES_DIR (dirs (snd (HumidityProcessor_init w)))
  /\ (forall d, In d (dirs (snd (HumidityProcessor_init w)))
                <-> In d (dirs w) \/ d = OUTPUT_DIR \/ d = MBTILES_DIR)
  /\ files (snd (HumidityProcessor_init w)) = files w
  /\ processes (snd (HumidityProcessor_init w)) = processes w
  /\ dirs (snd (HumidityProcessor_init (snd (HumidityProcessor_init w))))
     = dirs (snd (HumidityProcessor_init w)).
Proof.
  assert (D : forall w0, dirs (snd (HumidityProcessor_init w0))
                         = dirs (snd (makedirs MBTILES_DIR (snd (makedirs OUTPUT_DIR w0))))).
  { intros w0. reflexivity. }
  assert (K : forall w0 d, In d (dirs (snd (HumidityProcessor_init w0)))
                <-> In d (dirs w0) \/ d = OUTPUT_DIR \/ d = MBTILES_DIR).
  { intros w0 d. rewrite D.
    destruct (makedirs_dirs MBTILES_DIR (snd (makedirs OUTPUT_DIR w0))) as (_ & B & _).
    destruct (makedirs_dirs OUTPUT_DIR w0) as (_ & A & _).
    rewrite B, A. tauto. }
  split; [apply K; auto|]. split; [apply K; auto|]. split; [apply K|].
  split; [reflexivity|]. split; [reflexivity|].
  rewrite (D (snd (HumidityProcessor_init w))).
  destruct (makedirs_dirs OUTPUT_DIR (snd (HumidityProcessor_init w))) as (_ & _ & A).
  destruct (makedirs_dirs MBTILES_DIR (snd (makedirs OUTPUT_DIR (snd (HumidityProcessor_init w)))))
    as (_ & _ & B).
  rewrite B by (rewrite A by (apply K; auto); apply K; auto).
  apply A. apply K. auto.
Qed.

End Setup.


(** ** The time filter *)

Module Selection.

(** X2: the months the time filter accepts have no gap: a month between two
    accepted months, in calendar order, is accepted. *)
Theorem time_filter_convex (a b c : Timestamp) :
  month_le a b -> month_le b c ->
  time_filter a = true -> time_filter c = true -> time_filter b = true.
Proof.
  unfold month_le, time_filter. intros Hab Hbc Ha Hc.
  rewrite !andb_true_iff, !orb_true_iff, !andb_true_iff in *.
  rewrite !Z.gtb_lt, !Z.ltb_lt, !Z.eqb_eq, !Z.geb_le, !Z.leb_le in *.
  lia.
Qed.

Lemma time_filter_convex_witness : time_filter feb_2022 = true.
Proof.
  apply (time_filter_convex jan_2022 feb_2022 jun_2024).
  - right. simpl. lia.
  - left. simpl. lia.
  - reflexivity.
  - reflexivity.
Defined.

End Selection.


(** ** Stage 3: what [csv_to_geojson] changes *)

Module Documents.
Import WorldFacts Polygonizer.

Lemma land_rows_nonempty (is_land : float -> float -> bool) (df : list Row) :
  is_empty (land_rows is_land df) = false
  <-> exists row, In row df /\ is_land (lat row) (lon row) = true.
Proof.
  unfold land_rows. split.
  - destruct (filter _ df) as [|row l] eqn:E; [discriminate|]. intros _.
    assert (I : In row (filter (fun row => is_land (lat row) (lon row)) df))
      by (rewrite E; left; reflexivity).
    apply filter_In in I. exists row. exact I.
  - intros (row & I & L).
    assert (J : In row (filter (fun row => is_land (lat row) (lon row)) df))
      by (apply filter_In; auto).
    destruct (filter _ df); [contradiction | reflexivity].
Qed.

(** X3: [csv_to_geojson] returns true exactly when the path holds a table
    with a row on land, and then the output path holds a geometry document
    (the document of that table, when its coordinates are numbers); when it
    returns false it changes no file and prints the reason (the file could not
    be read, it is empty, or it has no row on land).  In every case it changes
    no path but the output path, no directory and no process. *)
Theorem csv_to_geojson_frame (is_land : float -> float -> bool)
  (csv_file output_geojson : string) (w : World) :
  (fst (csv_to_geojson is_land csv_file output_geojson w) = true
   <-> exists df, table_at (files w) csv_file = Some df
                  /\ exists row, In row df /\ is_land (lat row) (lon row) = true)
  /\ (fst (csv_to_geojson is_land csv_file output_geojson w) = true ->
      exists features,
        lookup output_geojson (files (snd (csv_to_geojson is_land csv_file output_geojson w)))
        = Some (GeoJSON features))
  /\ (forall df, table_at (files w) csv_file = Some df ->
        fst (csv_to_geojson is_land csv_file output_geojson w) = true ->
        no_nan (map lat df) -> no_nan (map lon df) ->
        lookup output_geojson (files (snd (csv_to_geojson is_land csv_file output_geojson w)))
        = Some (GeoJSON (features_of is_land df)))
  /\ (fst (csv_to_geojson is_land csv_file output_geojson w) = false ->
        files (snd (csv_to_geojson is_land csv_file output_geojson w)) = files w)
  /\ (forall p, p <> output_geojson ->
        lookup p (files (snd (csv_to_geojson is_land csv_file output_geojson w)))
        = lookup p (files w))
  /\ dirs (snd (csv_to_geojson is_land csv_file output_geojson w)) = dirs w
  /\ processes (snd (csv_to_geojson is_land csv_file output_geojson w)) = processes w
  /\ (fst (csv_to_geojson is_land csv_file output_geojson w) = false ->
        exists m, stdout (snd (csv_to_geojson is_land csv_file output_geojson w))
                  = stdout w ++ m
                  /\ (In (ErrorCreatingGeoJSON csv_file) m \/ In (EmptyCsvFile csv_file) m
                      \/ In (NoLandPoints csv_file) m)).
Proof.
  rewrite csv_to_geojson_run. cbn [fst snd dirs files stdout processes].
  unfold has_land, document_of, geojson_messages.
  destruct (table_at (files w) csv_file) as [df|] eqn:T.
  - destruct (is_empty (land_rows is_land df)) eqn:E; cbn [negb].
    + assert (N : ~ exists row, In row df /\ is_land (lat row) (lon row) = true).
      { intros X. apply land_rows_nonempty in X. congruence. }
      split; [split; [discriminate|]|].
      { intros (df' & Q & X). injection Q as <-. contradiction. }
      split; [discriminate|]. split; [discriminate|].
      split; [reflexivity|]. split; [reflexivity|].
      split; [reflexivity|]. split; [reflexivity|]. intros _.
      eexists. split; [reflexivity|].
      destruct (is_empty df); simpl; auto 10.
    + split; [split; [|reflexivity]|].
      { intros _. exists df. split; [reflexivity|]. apply land_rows_nonempty. exact E. }
      split. { intros _. eexists. apply lookup_store_same. }
      split. { intros df' Q _ _ _. injection Q as <-. apply lookup_store_same. }
      split; [discriminate|]. split.
      { intros p Np. apply lookup_store_other. assumption. }
      split; [reflexivity|]. split; [reflexivity|]. discriminate.
  - split; [split; [discriminate|]|].
    { intros (df' & Q & _). discriminate. }
    split; [discriminate|]. split; [discriminate|].
    split; [reflexivity|]. split; [reflexivity|].
    split; [reflexivity|]. split; [reflexivity|]. intros _.
    eexists. split; [reflexivity|]. simpl. auto.
Qed.

End Documents.


(** ** Stage 4: a tool that cannot be started *)

Module Archives.
Import WorldFacts TileBuilder Pipeline.

Section Unavailable.

Variable subprocess_run : list string -> list (string * File) -> CompletedProcess + string.
Variable e : string.
Hypothesis unavailable : forall cmd fs, subprocess_run cmd fs = inr e.

Lemma create_mbtiles_loop_unavailable (geojson_files : list string) :
  forall (mbtiles_files : list string) (w : World),
  create_mbtiles_loop subprocess_run geojson_files mbtiles_files w
  = (mbtiles_files,
     {| dirs := dirs w; files := files w;
        stdout := stdout w
          ++ flat_map (fun g => [ErrorConverting e;
                                 FailedMBTiles (PyStr.replace (PyStr.basename g)
                                                  "_land.geojson" "")]) geojson_files;
        processes := processes w
          ++ map (fun g => tippecanoe_cmd g (mbtiles_file_of g)) geojson_files |}).
Proof.
  induction geojson_files as [|g rest IH]; intros acc w.
  - simpl. unfold ret. rewrite !List.app_nil_r. destruct w; reflexivity.
  - cbn [create_mbtiles_loop]. unfold bind at 1. rewrite tippecanoe_run.
    unfold tool_succeeds. rewrite unavailable. unfold bind at 1. cbn [print].
    rewrite IH. cbn [dirs files stdout processes flat_map map].
    rewrite <- !List.app_assoc. reflexivity.
Qed.

Lemma archive_successes_unavailable (ks : list (Z * Z)) (fs : list (string * File)) :
  archive_successes subprocess_run fs ks = [].
Proof.
  induction ks as [|k ks IH]; [reflexivity|]. cbn [archive_successes].
  unfold tool_succeeds. rewrite unavailable. exact IH.
Qed.

(** X4: when the tool cannot be started at all (every call raises), the
    batch still tries every document in order, prints the error and the
    failure line for each, builds no archive and changes no file; stages 2 to
    5 then return no archive and write a configuration with an empty data
    section. *)
Theorem tool_unavailable :
  (forall geojson_files w,
     fst (create_mbtiles subprocess_run geojson_files w) = []
     /\ files (snd (create_mbtiles subprocess_run geojson_files w)) = files w
     /\ processes (snd (create_mbtiles subprocess_run geojson_files w))
        = processes w ++ map (fun g => tippecanoe_cmd g (mbtiles_file_of g)) geojson_files
     /\ stdout (snd (create_mbtiles subprocess_run geojson_files w))
        = stdout w
          ++ [Line "[STEP 4] Creating MBTiles from GeoJSON";
              Line "----------------------------------------"]
          ++ flat_map (fun g => [ErrorConverting e;
                                 FailedMBTiles (PyStr.replace (PyStr.basename g)
                                                  "_land.geojson" "")]) geojson_files
          ++ [CreatedMBTilesFiles 0])
  /\ (forall is_land df w,
        art_mbtiles (fst (stages_2_to_5 is_land subprocess_run df w)) = []
        /\ lookup config_file (files (snd (stages_2_to_5 is_land subprocess_run df w)))
           = Some (JSONConfig (tileserver_config []))
        /\ cfg_data (tileserver_config []) = []).
Proof.
  split.
  - intros geojson_files w. unfold create_mbtiles, bind. cbn [print].
    rewrite create_mbtiles_loop_unavailable. unfold ret.
    cbn [fst snd dirs files stdout processes List.length].
    rewrite <- !List.app_assoc. repeat split; reflexivity.
  - intros is_land df w.
    destruct (stages_run is_land subprocess_run df w) as (_ & _ & (fs3 & A & F) & _).
    rewrite archive_successes_unavailable in A.
    split; [exact A|]. split; [|reflexivity].
    rewrite F, A. apply lookup_store_same.
Qed.

End Unavailable.

Lemma tool_unavailable_witness :
  fst (create_mbtiles tool_absent [geojson_path (2024, 6)] empty_world) = []
  /\ files (snd (create_mbtiles tool_absent [geojson_path (2024, 6)] empty_world)) = [].
Proof.
  destruct (tool_unavailable tool_absent "No such file or directory: tippecanoe"
              (fun cmd fs => eq_refl)) as (H & _).
  destruct (H [geojson_path (2024, 6)] empty_world) as (A & B & _).
  split; [exact A | exact B].
Defined.

End Archives.


(** ** A complete run *)

Module Run.
Import PyStrFacts WorldFacts GroupFacts Partitioner Fetcher Pipeline.

Lemma main_csv_not_monthly (k : Z * Z) : main_csv <> monthly_path k.
Proof. discriminate. Qed.
Lemma main_csv_not_geojson (k : Z * Z) : main_csv <> geojson_path k.
Proof. discriminate. Qed.
Lemma main_csv_not_mbtiles (k : Z * Z) : main_csv <> mbtiles_path k.
Proof. discriminate. Qed.
Lemma config_not_monthly (k : Z * Z) : config_file <> monthly_path k.
Proof. discriminate. Qed.
Lemma config_not_geojson (k : Z * Z) : config_file <> geojson_path k.
Proof. discriminate. Qed.
Lemma config_not_mbtiles (k : Z * Z) : config_file <> mbtiles_path k.
Proof. discriminate. Qed.
Lemma viewer_not_monthly (k : Z * Z) : viewer_file <> monthly_path k.
Proof. discriminate. Qed.
Lemma viewer_not_geojson (k : Z * Z) : viewer_file <> geojson_path k.
Proof. discriminate. Qed.
Lemma viewer_not_mbtiles (k : Z * Z) : viewer_file <> mbtiles_path k.
Proof. discriminate. Qed.

Lemma fetched_rows (ds : Dataset) (row : Row) :
  In row (fetched_table ds) ->
  time_filter (time row) = true /\ In (time row) (map fst ds) /\ isna (RH2M row) = false.
Proof.
  unfold fetched_table, dropna. rewrite to_dataframe_filter.
  intros I. apply filter_In in I as [I V]. apply filter_In in I as [I T].
  split; [exact T|]. split; [|apply negb_true_iff; exact V].
  unfold to_dataframe in I. apply in_flat_map in I as (slice & Is & Ir).
  apply in_map_iff in Ir as (cell & <- & _). simpl. apply in_map. exact Is.
Qed.

Section Success.

Variable open_dataset : string -> Dataset + string.
Variable is_land : float -> float -> bool.
Variable subprocess_run : list string -> list (string * File) -> CompletedProcess + string.

Lemma download_success (ds : Dataset) (w : World) :
  open_dataset ZARR_URL = inl ds ->
  is_unique (map fst ds) = true ->
  existsb time_filter (map fst ds) = true ->
  fst (download_humidity_data open_dataset w) = Some (fetched_table ds)
  /\ files (snd (download_humidity_data open_dataset w))
     = store main_csv (CSV sample_columns (fetched_table ds)) (files w)
  /\ dirs (snd (download_humidity_data open_dataset w)) = dirs w
  /\ processes (snd (download_humidity_data open_dataset w)) = processes w.
Proof.
  intros O U X. rewrite download_run, O. cbn zeta.
  rewrite (filter_some _ _ X), U. repeat split.
Qed.

(** A run whose download succeeds, as stages 2 to 5 after the download and
    the viewer after them. *)
Lemma run_success (ds : Dataset) (w : World) :
  open_dataset ZARR_URL = inl ds ->
  is_unique (map fst ds) = true ->
  existsb time_filter (map fst ds) = true ->
  exists w1 : World,
    files w1 = store main_csv (CSV sample_columns (fetched_table ds)) (files w)
    /\ dirs w1 = dirs w /\ processes w1 = processes w
    /\ files (snd (run_complete_pipeline open_dataset is_land subprocess_run w))
       = store viewer_file ViewerHTML
           (files (snd (stages_2_to_5 is_land subprocess_run (fetched_table ds) w1)))
    /\ dirs (snd (run_complete_pipeline open_dataset is_land subprocess_run w))
       = dirs (snd (stages_2_to_5 is_land subprocess_run (fetched_table ds) w1))
    /\ processes (snd (run_complete_pipeline open_dataset is_land subprocess_run w))
       = processes (snd (stages_2_to_5 is_land subprocess_run (fetched_table ds) w1))
    /\ stdout (snd (run_complete_pipeline open_dataset is_land subprocess_run w))
       = stdout (snd (stages_2_to_5 is_land subprocess_run (fetched_table ds) w1))
         ++ [Line "Created web viewer: humidity-viewer.html";
             Line "============================================================";
             Line "PIPELINE COMPLETE!";
             Summary
               (List.length (art_monthly
                  (fst (stages_2_to_5 is_land subprocess_run (fetched_table ds) w1))))
               (List.length (art_geojson
                  (fst (stages_2_to_5 is_land subprocess_run (fetched_table ds) w1))))
               (List.length (art_mbtiles
                  (fst (stages_2_to_5 is_land subprocess_run (fetched_table ds) w1))));
             Line "Next steps: start tileserver-gl, open humidity-viewer.html"].
Proof.
  intros O U X. rewrite run_complete_pipeline_stages.
  unfold bind, create_web_viewer, write_file. cbn [print].
  match goal with |- context [download_humidity_data open_dataset ?w0] =>
    destruct (download_success ds w0 O U X) as (D1 & D2 & D3 & D4);
    destruct (download_humidity_data open_dataset w0) as [d w1] end.
  cbn [fst snd dirs files stdout processes] in *. subst d.
  exists w1. split; [exact D2|]. split; [exact D3|]. split; [exact D4|].
  unfold bind.
  destruct (stages_2_to_5 is_land subprocess_run (fetched_table ds) w1) as [a w2].
  cbn [fst snd dirs files stdout processes].
  repeat split. unfold print. cbn [fst snd dirs files stdout processes].
  rewrite <- !List.app_assoc. reflexivity.
Qed.

Lemma archive_successes_exit (ks : list (Z * Z)) :
  forall fs k, In k (archive_successes subprocess_run fs ks) ->
  exists fs' result,
    subprocess_run (tippecanoe_cmd (geojson_path k) (mbtiles_path k)) fs' = inl result
    /\ returncode result = 0.
Proof.
  induction ks as [|k0 ks IH]; intros fs k; cbn [archive_successes]; [intros []|].
  destruct (tool_succeeds subprocess_run fs (geojson_path k0) (mbtiles_path k0)) eqn:T.
  - intros [<-|I]; [|exact (IH _ _ I)].
    unfold tool_succeeds in T.
    destruct (subprocess_run _ fs) as [result|e] eqn:R; [|discriminate].
    exists fs, result. split; [exact R | apply Z.eqb_eq; exact T].
  - apply IH.
Qed.

Lemma config_of_months (ks : list (Z * Z)) :
  NoDup ks ->
  cfg_data (tileserver_config (map mbtiles_path ks))
  = map (fun k => (layer_name k, (stem k ++ "_land.mbtiles")%string)) ks.
Proof.
  intros D. cbn [cfg_data tileserver_config].
  rewrite (ConfigEmitter.config_data_distinct (map mbtiles_path ks) []).
  - rewrite map_map. apply map_ext. intros k. unfold layer_of.
    rewrite layer_of_mbtiles, basename_mbtiles. reflexivity.
  - apply ConfigEmitter.pipeline_layers. assumption.
  - intros f _ [].
Qed.

(** The files after a run whose download succeeds, in the order they were
    written. *)
Lemma run_files (ds : Dataset) (w : World) :
  open_dataset ZARR_URL = inl ds ->
  is_unique (map fst ds) = true ->
  existsb time_filter (map fst ds) = true ->
  exists fs3 : list (string * File),
    files (snd (run_complete_pipeline open_dataset is_land subprocess_run w))
    = store viewer_file ViewerHTML
        (store config_file
           (JSONConfig (tileserver_config
              (map mbtiles_path
                 (archive_successes subprocess_run fs3
                    (land_months is_land (fetched_table ds))))))
           (store_all (map (fun k => (mbtiles_path k, MBTiles))
                         (archive_successes subprocess_run fs3
                            (land_months is_land (fetched_table ds))))
              (store_all (map (geojson_document is_land (fetched_table ds))
                            (land_months is_land (fetched_table ds)))
                 (store_all (map monthly_entry
                               (groupby (with_year_month (fetched_table ds))))
                    (store main_csv (CSV sample_columns (fetched_table ds))
                       (files w)))))).
Proof.
  intros O U X.
  destruct (run_success ds w O U X) as (w1 & F1 & _ & _ & F & _).
  destruct (stages_run is_land subprocess_run (fetched_table ds) w1)
    as (_ & _ & (fs3 & A & S) & _).
  rewrite A in S. exists fs3. rewrite F, S, F1. reflexivity.
Qed.

Lemma run_geojson (ds : Dataset) (w : World) (k : Z * Z) :
  open_dataset ZARR_URL = inl ds ->
  is_unique (map fst ds) = true ->
  existsb time_filter (map fst ds) = true ->
  In k (land_months is_land (fetched_table ds)) ->
  lookup (geojson_path k)
    (files (snd (run_complete_pipeline open_dataset is_land subprocess_run w)))
  = Some (GeoJSON (features_of is_land (filter (in_month k) (fetched_table ds)))).
Proof.
  intros O U X Hk. destruct (run_files ds w O U X) as (fs3 & ->).
  rewrite lookup_store_other by (intros E; exact (viewer_not_geojson _ (eq_sym E))).
  rewrite lookup_store_other by (intros E; exact (config_not_geojson _ (eq_sym E))).
  rewrite lookup_store_all_other.
  - apply lookup_store_all_in.
    + rewrite map_map. apply (nodup_map_inj geojson_path); [apply geojson_path_inj|].
      apply land_months_nodup.
    + apply in_map_iff. exists k. split; [reflexivity | exact Hk].
  - rewrite map_map. intros I. apply in_map_iff in I as (k' & E & _).
    exact (mbtiles_not_geojson _ _ E).
Qed.

Lemma run_config (ds : Dataset) (w : World) :
  open_dataset ZARR_URL = inl ds ->
  is_unique (map fst ds) = true ->
  existsb time_filter (map fst ds) = true ->
  exists built : list (Z * Z),
    (forall k, In k built -> In k (land_months is_land (fetched_table ds)))
    /\ lookup config_file
         (files (snd (run_complete_pipeline open_dataset is_land subprocess_run w)))
       = Some (JSONConfig (tileserver_config (map mbtiles_path built)))
    /\ cfg_data (tileserver_config (map mbtiles_path built))
       = map (fun k => (layer_name k, (stem k ++ "_land.mbtiles")%string)) built.
Proof.
  intros O U X. destruct (run_files ds w O U X) as (fs3 & ->).
  exists (archive_successes subprocess_run fs3 (land_months is_land (fetched_table ds))).
  split; [intros k; apply TileBuilder.archive_successes_incl|]. split.
  - rewrite lookup_store_other by discriminate. apply lookup_store_same.
  - apply config_of_months, TileBuilder.archive_successes_nodup, land_months_nodup.
Qed.

(** X5: after a run on a store that opens, has pairwise distinct time labels
    and a label in the range, the main CSV holds the fetched table, every
    month of the table has its monthly CSV with its rows, every month with a
    row on land has a geometry document (the document of its rows, when their
    coordinates are numbers), every month listed in
    the configuration has a row on land, a run of the tool that exited with
    status zero and its archive, the configuration lists these months once
    each under their layer names, the viewer page is written, and every other
    path is as it was. *)
Theorem pipeline_outputs (ds : Dataset) (w : World) :
  open_dataset ZARR_URL = inl ds ->
  is_unique (map fst ds) = true ->
  existsb time_filter (map fst ds) = true ->
  let df := fetched_table ds in
  let final := files (snd (run_complete_pipeline open_dataset is_land subprocess_run w)) in
  exists built : list (Z * Z),
    NoDup built
    /\ (forall k, In k built ->
          (exists row, In row df /\ key_of row = k /\ is_land (lat row) (lon row) = true)
          /\ (exists fs result,
                subprocess_run (tippecanoe_cmd (geojson_path k) (mbtiles_path k)) fs
                = inl result /\ returncode result = 0)
          /\ lookup (mbtiles_path k) final = Some MBTiles)
    /\ lookup main_csv final = Some (CSV sample_columns df)
    /\ (forall k, (exists row, In row df /\ key_of row = k) ->
          lookup (monthly_path k) final = Some (CSV sample_columns (filter (in_month k) df)))
    /\ (forall k,
          (exists row, In row df /\ key_of row = k /\ is_land (lat row) (lon row) = true) ->
          (exists features, lookup (geojson_path k) final = Some (GeoJSON features))
          /\ (no_nan (map lat (filter (in_month k) df)) ->
              no_nan (map lon (filter (in_month k) df)) ->
              lookup (geojson_path k) final
              = Some (GeoJSON (features_of is_land (filter (in_month k) df)))))
    /\ lookup config_file final = Some (JSONConfig (tileserver_config (map mbtiles_path built)))
    /\ cfg_data (tileserver_config (map mbtiles_path built))
       = map (fun k => (layer_name k, (stem k ++ "_land.mbtiles")%string)) built
    /\ lookup viewer_file final = Some ViewerHTML
    /\ (forall p,
          p <> main_csv -> p <> config_file -> p <> viewer_file ->
          (forall k, (exists row, In row df /\ key_of row = k) ->
             p <> monthly_path k /\ p <> geojson_path k /\ p <> mbtiles_path k) ->
          lookup p final = lookup p (files w)).
Proof.
  intros O U X df final.
  destruct (run_success ds w O U X) as (w1 & F1 & D1 & P1 & F & _).
  fold df in F1, F.
  destruct (stages_run is_land subprocess_run df w1) as (_ & _ & (fs3 & A & S) & _).
  rewrite A in S. unfold final. rewrite F, S. clear F S final.
  set (ks := land_months is_land df) in *.
  set (built := archive_successes subprocess_run fs3 ks) in *.
  set (MO := map monthly_entry (groupby (with_year_month df))).
  set (GJ := map (geojson_document is_land df) ks).
  set (MB := map (fun k => (mbtiles_path k, MBTiles)) built).
  assert (Dk : NoDup ks) by apply land_months_nodup.
  assert (Db : NoDup built) by (apply TileBuilder.archive_successes_nodup; exact Dk).
  assert (Ib : forall k, In k built -> In k ks)
    by (intros k; apply TileBuilder.archive_successes_incl).
  assert (EMO : map fst MO = map monthly_path (map fst (groupby (with_year_month df))))
    by (unfold MO; rewrite !map_map; reflexivity).
  assert (EGJ : map fst GJ = map geojson_path ks)
    by (unfold GJ; rewrite map_map; reflexivity).
  assert (EMB : map fst MB = map mbtiles_path built)
    by (unfold MB; rewrite map_map; reflexivity).
  assert (Keys : forall k, In k ks -> exists row, In row df /\ key_of row = k).
  { intros k I. apply land_months_spec in I as (row & I & K & _). eauto. }
  exists built. split; [exact Db|]. split; [|split; [|split; [|split; [|split; [|split; [|split]]]]]].
  - intros k I. split; [apply land_months_spec, Ib, I|].
    split; [exact (archive_successes_exit _ _ _ I)|].
    rewrite lookup_store_other by (intros E; exact (viewer_not_mbtiles _ (eq_sym E))).
    rewrite lookup_store_other by (intros E; exact (config_not_mbtiles _ (eq_sym E))).
    apply lookup_store_all_in.
    + rewrite EMB. apply nodup_map_inj; [apply mbtiles_path_inj | exact Db].
    + unfold MB. apply in_map_iff. exists k. split; [reflexivity | exact I].
  - rewrite lookup_store_other by discriminate.
    rewrite lookup_store_other by discriminate.
    rewrite !lookup_store_all_other.
    + rewrite F1. apply lookup_store_same.
    + rewrite EMO. intros I. apply in_map_iff in I as (k & E & _).
      exact (main_csv_not_monthly _ (eq_sym E)).
    + rewrite EGJ. intros I. apply in_map_iff in I as (k & E & _).
      exact (main_csv_not_geojson _ (eq_sym E)).
    + rewrite EMB. intros I. apply in_map_iff in I as (k & E & _).
      exact (main_csv_not_mbtiles _ (eq_sym E)).
  - intros k Hk. apply groupby_keys in Hk.
    rewrite lookup_store_other by (intros E; exact (viewer_not_monthly _ (eq_sym E))).
    rewrite lookup_store_other by (intros E; exact (config_not_monthly _ (eq_sym E))).
    rewrite (lookup_store_all_other _ MB), (lookup_store_all_other _ GJ).
    + pose proof (monthly_file_content df w1 k Hk) as M.
      rewrite split_monthly_data_run in M. exact M.
    + rewrite EGJ. intros I. apply in_map_iff in I as (k' & E & _).
      exact (monthly_not_geojson _ _ (eq_sym E)).
    + rewrite EMB. intros I. apply in_map_iff in I as (k' & E & _).
      exact (mbtiles_not_monthly _ _ E).
  - intros k Hk. apply land_months_spec in Hk. fold ks in Hk.
    match goal with |- (exists features, ?l = _) /\ _ =>
      assert (L : l = Some (GeoJSON (features_of is_land (filter (in_month k) df)))) end.
    { rewrite lookup_store_other by (intros E; exact (viewer_not_geojson _ (eq_sym E))).
      rewrite lookup_store_other by (intros E; exact (config_not_geojson _ (eq_sym E))).
      rewrite lookup_store_all_other.
      + apply lookup_store_all_in.
        * rewrite EGJ. apply nodup_map_inj; [apply geojson_path_inj | exact Dk].
        * unfold GJ. apply in_map_iff. exists k. split; [reflexivity | exact Hk].
      + rewrite EMB. intros I. apply in_map_iff in I as (k' & E & _).
        exact (mbtiles_not_geojson _ _ E). }
    split; [eexists; exact L | intros _ _; exact L].
  - rewrite lookup_store_other by discriminate. apply lookup_store_same.
  - apply config_of_months. exact Db.
  - apply lookup_store_same.
  - intros p N1 N2 N3 N4.
    rewrite lookup_store_other by congruence.
    rewrite lookup_store_other by congruence.
    rewrite !lookup_store_all_other.
    + rewrite F1. apply lookup_store_other. congruence.
    + rewrite EMO. intros I. apply in_map_iff in I as (k & E & I).
      apply groupby_keys in I. destruct (N4 k I) as (N & _). congruence.
    + rewrite EGJ. intros I. apply in_map_iff in I as (k & E & I).
      destruct (N4 k (Keys k I)) as (_ & N & _). congruence.
    + rewrite EMB. intros I. apply in_map_iff in I as (k & E & I).
      destruct (N4 k (Keys k (Ib k I))) as (_ & _ & N). congruence.
Qed.

(** X6: in a run on a store that opens, has pairwise distinct time labels and
    a label in the range, the geometry document of a month
    with a row on land is not empty: it holds one feature for each row of the
    month on land, each of that month, with a value and on land. *)
Theorem documents_nonempty (ds : Dataset) (w : World) (k : Z * Z) :
  open_dataset ZARR_URL = inl ds ->
  is_unique (map fst ds) = true ->
  existsb time_filter (map fst ds) = true ->
  (exists row, In row (fetched_table ds) /\ key_of row = k
               /\ is_land (lat row) (lon row) = true) ->
  exists features : list Feature,
    lookup (geojson_path k)
      (files (snd (run_complete_pipeline open_dataset is_land subprocess_run w)))
    = Some (GeoJSON features)
    /\ features <> []
    /\ List.length features
       = List.length (filter (fun row => in_month k row && is_land (lat row) (lon row))
                        (fetched_table ds))
    /\ (forall f, In f features ->
          (year (p_time f), month (p_time f)) = k
          /\ isna (p_humidity f) = false
          /\ is_land (p_lat f) (p_lon f) = true).
Proof.
  intros O U X Hk.
  set (df := fetched_table ds) in *.
  exists (features_of is_land (filter (in_month k) df)).
  split; [apply run_geojson; [exact O | exact U | exact X | apply land_months_spec; exact Hk]|].
  assert (E : features_of is_land (filter (in_month k) df)
              = map (grid_cell (lat_res_of (land_rows is_land (filter (in_month k) df)))
                       (lon_res_of (land_rows is_land (filter (in_month k) df))))
                  (filter (fun row => in_month k row && is_land (lat row) (lon row)) df)).
  { unfold features_of. rewrite Resolution.make_features_cells, Cells.filter_land_value.
    f_equal. rewrite filter_filter. apply filter_ext_in. intros row I.
    destruct (fetched_rows ds row I) as (_ & _ & V). rewrite V.
    destruct (is_land (lat row) (lon row)); reflexivity. }
  rewrite E. split; [|split].
  - destruct Hk as (row & I & K & L).
    assert (J : In row (filter (fun row => in_month k row && is_land (lat row) (lon row)) df)).
    { apply filter_In. split; [exact I|]. rewrite L, andb_true_r.
      apply in_month_key. exact K. }
    intros Z. apply map_eq_nil in Z. rewrite Z in J. contradiction.
  - apply length_map.
  - intros f I. apply in_map_iff in I as (row & <- & I).
    apply filter_In in I as [I C]. apply andb_true_iff in C as [M L].
    apply in_month_key in M. destruct (fetched_rows ds row I) as (_ & _ & V).
    cbn [grid_cell p_time p_humidity p_lat p_lon]. auto.
Qed.

(** X7: a run on a store that opens, has pairwise distinct time labels and a
    label in the range ends with the summary line, whose
    counts are the number of months of the table, the number of months with a
    row on land and the number of archives built, each at most the one before
    it, and the first at most the number of rows. *)
Theorem summary_counts (ds : Dataset) (w : World) :
  open_dataset ZARR_URL = inl ds ->
  is_unique (map fst ds) = true ->
  existsb time_filter (map fst ds) = true ->
  exists (out : list Message) (n_monthly n_geojson n_mbtiles : nat),
    stdout (snd (run_complete_pipeline open_dataset is_land subprocess_run w))
    = out ++ [Line "============================================================";
              Line "PIPELINE COMPLETE!";
              Summary n_monthly n_geojson n_mbtiles;
              Line "Next steps: start tileserver-gl, open humidity-viewer.html"]
    /\ (n_mbtiles <= n_geojson <= n_monthly)%nat
    /\ (n_monthly <= List.length (fetched_table ds))%nat
    /\ n_monthly = List.length (map fst (groupby (with_year_month (fetched_table ds))))
    /\ n_geojson = List.length (land_months is_land (fetched_table ds)).
Proof.
  intros O U X.
  destruct (run_success ds w O U X) as (w1 & _ & _ & _ & _ & _ & _ & S).
  set (df := fetched_table ds) in *.
  destruct (stages_run is_land subprocess_run df w1) as (A1 & A2 & (fs3 & A3 & _) & _).
  rewrite A1, A2, A3, !length_map in S.
  eexists (_ ++ [_]), _, _, _. split; [rewrite <- List.app_assoc; exact S|].
  pose proof (groupby_grouped (with_year_month df)) as (St & _).
  assert (Dk : NoDup (map fst (groupby (with_year_month df))))
    by (apply sorted_keys_nodup; exact St).
  split; [split|split; [|split]].
  - apply NoDup_incl_length.
    + apply TileBuilder.archive_successes_nodup, land_months_nodup.
    + intros k. apply TileBuilder.archive_successes_incl.
  - unfold land_months. rewrite <- (length_map fst (groupby _)). apply filter_length_le.
  - rewrite <- (length_map fst (groupby _)), <- (length_map key_of df).
    apply NoDup_incl_length; [exact Dk|].
    intros k I. apply groupby_keys in I as (row & I & <-). apply in_map. exact I.
  - rewrite length_map. reflexivity.
  - reflexivity.
Qed.

End Success.

Lemma layer_of_selection (y m : Z) :
  2022 <= y <= 2025 -> 1 <= m <= 12 ->
  In (PyStr.format_d y) year_options /\ In (PyStr.format_02d m) month_options
  /\ layer_name (y, m) = layerId (PyStr.format_d y) (PyStr.format_02d m).
Proof.
  intros Hy Hm. split; [|split].
  3:{ unfold layer_name, stem, layerId. cbn [fst snd].
      rewrite !append_assoc. reflexivity. }
  - assert (C : y = 2022 \/ y = 2023 \/ y = 2024 \/ y = 2025) by lia.
    destruct C as [->|[->|[->| ->]]]; vm_compute; auto.
  - assert (C : m = 1 \/ m = 2 \/ m = 3 \/ m = 4 \/ m = 5 \/ m = 6 \/ m = 7 \/ m = 8
                \/ m = 9 \/ m = 10 \/ m = 11 \/ m = 12) by lia.
    repeat (destruct C as [->|C]; [vm_compute; auto 20|]). subst. vm_compute. auto 20.
Qed.

(** X8: when the store opens, its time labels are pairwise distinct calendar
    timestamps and one of them is in the range, every layer the configuration
    of the run lists is the layer id the viewer builds
    from one of its year options and one of its month options; the viewer's
    selections 2025-06 to 2025-12 name no layer of the configuration. *)
Theorem viewer_reaches_layers (open_dataset : string -> Dataset + string)
  (is_land : float -> float -> bool)
  (subprocess_run : list string -> list (string * File) -> CompletedProcess + string)
  (ds : Dataset) (w : World) :
  open_dataset ZARR_URL = inl ds ->
  is_unique (map fst ds) = true ->
  existsb time_filter (map fst ds) = true ->
  (forall t, In t (map fst ds) -> 1 <= month t <= 12) ->
  exists config : Config,
    lookup config_file
      (files (snd (run_complete_pipeline open_dataset is_land subprocess_run w)))
    = Some (JSONConfig config)
    /\ (forall name, In name (map fst (cfg_data config)) ->
          exists year month,
            In year year_options /\ In month month_options /\ name = layerId year month)
    /\ (forall month,
          In month ["06"; "07"; "08"; "09"; "10"; "11"; "12"]%string ->
          ~ In (layerId "2025" month) (map fst (cfg_data config))).
Proof.
  intros O U X V.
  destruct (run_config open_dataset is_land subprocess_run ds w O U X) as (built & B & C & K).
  exists (tileserver_config (map mbtiles_path built)). split; [exact C|].
  assert (R : forall name, In name (map fst (cfg_data (tileserver_config (map mbtiles_path built)))) ->
              exists k, name = layer_name k /\ time_filter {| year := fst k; month := snd k; day := 1 |} = true
                        /\ 1 <= snd k <= 12).
  { intros name I. rewrite K, map_map in I. apply in_map_iff in I as (k & <- & I).
    destruct (proj1 (land_months_spec is_land _ k) (B k I)) as (row & Ir & Kr & _).
    destruct (fetched_rows ds row Ir) as (T & It & _).
    exists k. split; [reflexivity|]. subst k. split; [|apply V; exact It].
    unfold key_of. cbn [fst snd]. unfold time_filter in *. exact T. }
  split.
  - intros name I. destruct (R name I) as ([y m] & -> & T & M). cbn [fst snd] in *.
    assert (Hy : 2022 <= y <= 2025).
    { unfold time_filter in T. cbn [year month] in T.
      rewrite !andb_true_iff, !orb_true_iff, !andb_true_iff in T.
      rewrite !Z.gtb_lt, !Z.ltb_lt, !Z.eqb_eq in T. lia. }
    destruct (layer_of_selection y m Hy M) as (A1 & A2 & A3). eauto.
  - intros mo Im I. destruct (R _ I) as ([y m] & E & T & M). cbn [fst snd] in *.
    assert (F : exists m', 6 <= m' <= 12 /\ layerId "2025" mo = layer_name (2025, m')).
    { simpl in Im.
      destruct Im as [<-|[<-|[<-|[<-|[<-|[<-|[<-|[]]]]]]]];
        [exists 6|exists 7|exists 8|exists 9|exists 10|exists 11|exists 12];
        (split; [lia | reflexivity]). }
    destruct F as (m' & Hm' & E'). rewrite E' in E. apply layer_name_inj in E.
    injection E as <- <-.
    unfold time_filter in T. cbn [year month] in T.
    rewrite !andb_true_iff, !orb_true_iff, !andb_true_iff in T.
    rewrite !Z.gtb_lt, !Z.ltb_lt, !Z.eqb_eq, !Z.leb_le in T. lia.
Qed.

Lemma pipeline_outputs_witness :
  lookup main_csv
    (files (snd (run_complete_pipeline (fun _ => inl store_june) example_land tool_ok
                   empty_world)))
  = Some (CSV sample_columns (fetched_table store_june)).
Proof.
  pose proof (pipeline_outputs (fun _ => inl store_june) example_land tool_ok store_june
                empty_world eq_refl eq_refl eq_refl) as H.
  cbv zeta in H. destruct H as (built & _ & _ & M & _). exact M.
Defined.

Lemma documents_nonempty_witness :
  exists features : list Feature,
    lookup (geojson_path (2024, 6))
      (files (snd (run_complete_pipeline (fun _ => inl store_june) example_land tool_ok
                     empty_world)))
    = Some (GeoJSON features)
    /\ features <> [].
Proof.
  destruct (documents_nonempty (fun _ => inl store_june) example_land tool_ok store_june
              empty_world (2024, 6) eq_refl eq_refl eq_refl) as (features & L & N & _).
  - exists {| time := jun_2024; lat := 10; lon := 20; RH2M := 75.5 |}.
    split; [left; reflexivity|]. split; reflexivity.
  - exists features. split; [exact L | exact N].
Defined.

Lemma summary_counts_witness :
  exists (out : list Message) (n_monthly n_geojson n_mbtiles : nat),
    stdout (snd (run_complete_pipeline (fun _ => inl store_june) example_land tool_ok
                   empty_world))
    = out ++ [Line "============================================================";
              Line "PIPELINE COMPLETE!";
              Summary n_monthly n_geojson n_mbtiles;
              Line "Next steps: start tileserver-gl, open humidity-viewer.html"]
    /\ (n_mbtiles <= n_geojson <= n_monthly)%nat.
Proof.
  destruct (summary_counts (fun _ => inl store_june) example_land tool_ok store_june
              empty_world eq_refl eq_refl eq_refl) as (out & n1 & n2 & n3 & S & L & _).
  exists out, n1, n2, n3. split; [exact S | exact L].
Defined.

Lemma viewer_reaches_layers_witness :
  exists config : Config,
    lookup config_file
      (files (snd (run_complete_pipeline (fun _ => inl store_june) example_land tool_ok
                     empty_world)))
    = Some (JSONConfig config)
    /\ (forall name, In name (map fst (cfg_data config)) ->
          exists year month,
            In year year_options /\ In month month_options /\ name = layerId year month).
Proof.
  assert (V : forall t, In t (map fst store_june) -> 1 <= month t <= 12)
    by (intros t [<-|[]]; simpl; lia).
  destruct (viewer_reaches_layers (fun _ => inl store_june) example_land tool_ok store_june
              empty_world eq_refl eq_refl eq_refl V) as (config & C & R & _).
  exists config. split; [exact C | exact R].
Defined.

(** X9: whatever the store, the land mask and the tool do, the script leaves
    the directories as the constructor left them, and the processes it starts
    are tippecanoe runs with the fixed arguments, one for each month of a
    duplicate-free list, each from the month's geometry document to the
    month's archive. *)
Theorem script_frame (open_dataset : string -> Dataset + string)
  (is_land : float -> float -> bool)
  (subprocess_run : list string -> list (string * File) -> CompletedProcess + string)
  (w : World) :
  dirs (snd (main open_dataset is_land subprocess_run w))
  = dirs (snd (HumidityProcessor_init w))
  /\ exists ks : list (Z * Z),
       NoDup ks
       /\ processes (snd (main open_dataset is_land subprocess_run w))
          = processes w
            ++ map (fun k => tippecanoe_cmd (geojson_path k) (mbtiles_path k)) ks.
Proof.
  assert (E : snd (main open_dataset is_land subprocess_run w)
              = snd (run_complete_pipeline open_dataset is_land subprocess_run
                       (snd (HumidityProcessor_init w)))).
  { unfold main, bind. destruct (HumidityProcessor_init w). reflexivity. }
  rewrite E. clear E.
  assert (P0 : processes (snd (HumidityProcessor_init w)) = processes w) by reflexivity.
  set (w0 := snd (HumidityProcessor_init w)) in *.
  assert (G : dirs (snd (run_complete_pipeline open_dataset is_land subprocess_run w0))
              = dirs w0
              /\ exists ks : list (Z * Z),
                   NoDup ks
                   /\ processes (snd (run_complete_pipeline open_dataset is_land
                                        subprocess_run w0))
                      = processes w0
                        ++ map (fun k => tippecanoe_cmd (geojson_path k) (mbtiles_path k)) ks).
  2:{ rewrite P0 in G. exact G. }
  clearbody w0. clear P0 w.
  assert (Failure : fst (download_humidity_data open_dataset
                           (snd ((print (Line "Starting Complete Humidity Processing Pipeline") ;;
                                  print (Line "============================================================"))
                                 w0))) = None ->
                    dirs (snd (run_complete_pipeline open_dataset is_land subprocess_run w0))
                    = dirs w0
                    /\ processes (snd (run_complete_pipeline open_dataset is_land
                                         subprocess_run w0)) = processes w0).
  { intros N. rewrite run_complete_pipeline_stages.
    unfold bind in *. cbn [print snd] in *.
    match goal with |- context [download_humidity_data open_dataset ?x] =>
      destruct (download_projections open_dataset x) as (D & P & _);
      destruct (download_humidity_data open_dataset x) as [d w1] end.
    cbn [fst snd dirs processes] in *. subst d. cbn [snd dirs processes].
    split; assumption. }
  destruct (open_dataset ZARR_URL) as [ds|e] eqn:O.
  - destruct (existsb time_filter (map fst ds)) eqn:X;
      [destruct (is_unique (map fst ds)) eqn:U|].
    + destruct (run_success open_dataset is_land subprocess_run ds w0 O U X)
        as (w1 & _ & D1 & P1 & _ & D & P & _).
      destruct (stages_run is_land subprocess_run (fetched_table ds) w1)
        as (_ & _ & _ & D2 & P2).
      rewrite D, P, D2, P2, D1, P1. split; [reflexivity|].
      exists (land_months is_land (fetched_table ds)).
      split; [apply land_months_nodup | reflexivity].
    + destruct Failure as (D & P).
      { rewrite download_run, O. cbn zeta. rewrite U.
        destruct (is_empty _); reflexivity. }
      split; [exact D|]. exists []. split; [constructor|].
      simpl. rewrite List.app_nil_r. exact P.
    + destruct Failure as (D & P).
      { rewrite download_run, O. cbn zeta.
        destruct (filter time_filter (map fst ds)) as [|t l] eqn:F; [reflexivity|].
        assert (J : In t (filter time_filter (map fst ds))) by (rewrite F; left; reflexivity).
        apply filter_In in J as [J T].
        assert (Y : existsb time_filter (map fst ds) = true)
          by (apply existsb_exists; eauto).
        congruence. }
      split; [exact D|]. exists []. split; [constructor|].
      simpl. rewrite List.app_nil_r. exact P.
  - destruct Failure as (D & P).
    { rewrite download_run, O. reflexivity. }
    split; [exact D|]. exists []. split; [constructor|].
    simpl. rewrite List.app_nil_r. exact P.
Qed.

End Run.


(** ** Stage 5: lookups in the configuration *)

Module Layers.

Lemma dict_get_set_same (d : list (string * string)) (k v : string) :
  dict_get (dict_set d k v) k = Some v.
Proof.
  induction d as [|[k' v'] d IH]; simpl.
  - rewrite String.eqb_refl. reflexivity.
  - destruct (String.eqb k' k) eqn:E; simpl; rewrite E; [reflexivity | exact IH].
Qed.

Lemma dict_get_set_other (d : list (string * string)) (k v name : string) :
  k <> name -> dict_get (dict_set d k v) name = dict_get d name.
Proof.
  intros N. induction d as [|[k' v'] d IH]; simpl.
  - apply String.eqb_neq in N. rewrite N. reflexivity.
  - destruct (String.eqb k' k) eqn:E; simpl.
    + apply String.eqb_eq in E. subst k'. apply String.eqb_neq in N. rewrite N. reflexivity.
    + destruct (String.eqb k' name); [reflexivity | exact IH].
Qed.

Lemma find_last {A : Type} (p : A -> bool) (l : list A) (x : A) :
  find p (l ++ [x])
  = match find p l with Some y => Some y | None => if p x then Some x else None end.
Proof.
  induction l as [|a l IH]; simpl; [reflexivity|].
  destruct (p a); [reflexivity | exact IH].
Qed.

Lemma config_data_get (name : string) (mbtiles_files : list string) :
  forall data,
  dict_get (config_data mbtiles_files data) name
  = match find (fun f => String.eqb (layer_of f) name) (rev mbtiles_files) with
    | Some f => Some (PyStr.basename f)
    | None => dict_get data name
    end.
Proof.
  induction mbtiles_files as [|f rest IH]; intros data; [reflexivity|].
  cbn [config_data rev]. fold (layer_of f). rewrite IH, find_last.
  destruct (find _ (rev rest)); [reflexivity|].
  destruct (String.eqb (layer_of f) name) eqn:E.
  - apply String.eqb_eq in E. subst name. apply dict_get_set_same.
  - apply String.eqb_neq in E. apply dict_get_set_other. exact E.
Qed.

Lemma dict_get_absent (d : list (string * string)) (k : string) :
  ~ In k (map fst d) -> dict_get d k = None.
Proof.
  induction d as [|[k' v'] d IH]; simpl; [reflexivity|]. intros N.
  destruct (String.eqb_spec k' k) as [->|_]; [exfalso; auto | apply IH; auto].
Qed.

(** Two dicts with the same keys in the same order and the same value under
    every key are equal. *)
Lemma dict_ext (d1 : list (string * string)) :
  forall d2, NoDup (map fst d1) -> map fst d1 = map fst d2 ->
  (forall k, dict_get d1 k = dict_get d2 k) -> d1 = d2.
Proof.
  induction d1 as [|[k v] d1 IH]; intros [|[k' v'] d2] D K G; try discriminate K;
    [reflexivity|].
  simpl in K. injection K as <- K. inversion D as [|? ? N D']; subst.
  assert (V : v = v').
  { specialize (G k). simpl in G. rewrite String.eqb_refl in G. congruence. }
  subst v'. f_equal. apply IH; [exact D' | exact K |].
  intros name. destruct (String.eqb_spec k name) as [<-|Ne].
  - rewrite !dict_get_absent; [reflexivity | rewrite <- K; exact N | exact N].
  - specialize (G name). simpl in G. apply String.eqb_neq in Ne. rewrite Ne in G. exact G.
Qed.

Lemma config_data_present (mbtiles_files : list string) :
  forall data,
  (forall f, In f mbtiles_files -> In (layer_of f) (map fst data)) ->
  map fst (config_data mbtiles_files data) = map fst data.
Proof.
  induction mbtiles_files as [|f rest IH]; intros data P; [reflexivity|].
  cbn [config_data]. fold (layer_of f).
  assert (K : map fst (dict_set data (layer_of f) (PyStr.basename f)) = map fst data).
  { rewrite ConfigEmitter.dict_set_keys.
    assert (E : existsb (fun k' => String.eqb k' (layer_of f)) (map fst data) = true)
      by (apply ConfigEmitter.existsb_eqb_in, P; left; reflexivity).
    rewrite E. reflexivity. }
  rewrite IH; [exact K|]. intros g I. rewrite K. apply P. right. exact I.
Qed.

Lemma config_data_app (l l' : list string) :
  forall data, config_data (l ++ l') data = config_data l' (config_data l data).
Proof. induction l as [|f l IH]; intros data; [reflexivity | apply IH]. Qed.

(** X10: looking a layer name up in the configuration gives the base name
    of the last archive of the list with that layer name, and nothing exactly
    when no archive of the list has that layer name; listing every archive
    twice gives the same data section. *)
Theorem config_last_archive (mbtiles_files : list string) (name : string) :
  dict_get (cfg_data (tileserver_config mbtiles_files)) name
  = option_map PyStr.basename
      (find (fun f => String.eqb (layer_of f) name) (rev mbtiles_files))
  /\ (dict_get (cfg_data (tileserver_config mbtiles_files)) name = None
      <-> forall f, In f mbtiles_files -> layer_of f <> name)
  /\ cfg_data (tileserver_config (mbtiles_files ++ mbtiles_files))
     = cfg_data (tileserver_config mbtiles_files).
Proof.
  cbn [cfg_data tileserver_config].
  assert (G : forall name, dict_get (config_data mbtiles_files []) name
              = option_map PyStr.basename
                  (find (fun f => String.eqb (layer_of f) name) (rev mbtiles_files))).
  { intros n. rewrite config_data_get. destruct (find _ _); reflexivity. }
  split; [apply G|]. split.
  - rewrite G. split.
    + intros N f I E.
      destruct (find (fun f => String.eqb (layer_of f) name) (rev mbtiles_files)) eqn:F;
        [discriminate|].
      apply in_rev in I. pose proof (find_none _ _ F f I) as X. simpl in X.
      apply String.eqb_neq in X. contradiction.
    + intros N.
      destruct (find (fun f => String.eqb (layer_of f) name) (rev mbtiles_files)) eqn:F;
        [|reflexivity].
      apply find_some in F as [I E]. apply String.eqb_eq in E.
      apply in_rev in I. exfalso. exact (N _ I E).
  - rewrite config_data_app.
    destruct (ConfigEmitter.config_data_keys mbtiles_files [] (NoDup_nil _)) as (D & K & _).
    assert (P : map fst (config_data mbtiles_files (config_data mbtiles_files []))
                = map fst (config_data mbtiles_files [])).
    { apply config_data_present. intros f I. apply K. right. exists f. auto. }
    apply dict_ext; [rewrite P; exact D | exact P |].
    intros n. rewrite config_data_get, G.
    destruct (find _ _); reflexivity.
Qed.

End Layers.


(** ** Stage 3: further properties of the inferred spacing *)

Module Spacing.
Import F64 Resolution.

Lemma values_cases (v : list float) :
  (exists a b, In a v /\ In b v /\ (a =? b)%float = false)
  \/ (forall a b, In a v -> In b v -> (a =? b)%float = true).
Proof.
  destruct (existsb (fun a => existsb (fun b => negb (a =? b)%float) v) v) eqn:E.
  - left. apply existsb_exists in E as (a & Ia & E).
    apply existsb_exists in E as (b & Ib & E). apply negb_true_iff in E. eauto.
  - right. intros a b Ia Ib. destruct (a =? b)%float eqn:Q; [reflexivity|].
    assert (X : existsb (fun a => existsb (fun b => negb (a =? b)%float) v) v = true).
    { apply existsb_exists. exists a. split; [exact Ia|].
      apply existsb_exists. exists b. split; [exact Ib|]. rewrite Q. reflexivity. }
    congruence.
Qed.

Lemma spacing_same_values (v v' : list float) (default : float) :
  no_nan v -> (forall x, In x v <-> In x v') ->
  (if (1 <? List.length (sorted (unique v)))%nat
   then abs (nth 1 (sorted (unique v)) nan - nth 0 (sorted (unique v)) nan)
   else default)
  = (if (1 <? List.length (sorted (unique v')))%nat
     then abs (nth 1 (sorted (unique v')) nan - nth 0 (sorted (unique v')) nan)
     else default).
Proof.
  intros N S.
  assert (N' : no_nan v') by (intros x I; apply N, S, I).
  destruct (spacing_of_values v default N) as (A1 & A2 & A3).
  destruct (spacing_of_values v' default N') as (B1 & B2 & _).
  destruct (values_cases v) as [D|Q].
  - destruct (A3 D) as (lo & hi & T).
    rewrite (A1 lo hi T). symmetry. apply B1.
    destruct T as (Il & Ih & L & Ml & Mh).
    repeat split; try (apply S; assumption); try assumption.
    + intros c I. apply Ml, S, I.
    + intros c I. apply Mh, S, I.
  - rewrite (A2 Q). symmetry. apply B2.
    intros a b Ia Ib. apply Q; apply S; assumption.
Qed.

(** X11: the inferred spacings depend only on which latitudes and which
    longitudes occur among the rows (coordinates that are numbers), not on the
    order of the rows or on how often a coordinate occurs. *)
Theorem spacing_of_coordinate_set (df df' : list Row) :
  no_nan (map lat df) -> no_nan (map lon df) ->
  (forall x, In x (map lat df) <-> In x (map lat df')) ->
  (forall x, In x (map lon df) <-> In x (map lon df')) ->
  lat_res_of df = lat_res_of df' /\ lon_res_of df = lon_res_of df'.
Proof.
  intros Nlat Nlon Slat Slon. split.
  - apply (spacing_same_values (map lat df) (map lat df') 0.5%float Nlat Slat).
  - apply (spacing_same_values (map lon df) (map lon df') 0.625%float Nlon Slon).
Qed.

Lemma spacing_of_coordinate_set_witness :
  lat_res_of example_table = lat_res_of (row_jul :: example_table ++ [row_jun])
  /\ lon_res_of example_table = lon_res_of (row_jul :: example_table ++ [row_jun]).
Proof.
  apply spacing_of_coordinate_set.
  - intros x [<-|[<-|[]]]; reflexivity.
  - intros x [<-|[<-|[]]]; reflexivity.
  - intros x. simpl. tauto.
  - intros x. simpl. tauto.
Defined.

Lemma binary_round_sign (s s' : bool) (p : positive) (e : Z) :
  binary_round 53 1024 s p e = S754_infinity s' -> s' = s.
Proof.
  unfold binary_round, binary_round_aux.
  destruct (shl_align p e _) as [mz ez].
  destruct (shr_fexp 53 1024 (Zpos mz) ez loc_Exact) as [mrs e1].
  destruct (shr_fexp 53 1024 _ e1 loc_Exact) as [mrs2 e2].
  destruct (shr_m mrs2); try discriminate.
  destruct (e2 <=? 1024 - 53); [discriminate|]. intros H. injection H as <-. reflexivity.
Qed.

Lemma binary_normalize_positive (m e : Z) :
  -1074 <= e -> 0 < m ->
  binary_normalize 53 1024 m e false <> S754_nan
  /\ 0 < SFord (binary_normalize 53 1024 m e false).
Proof.
  intros E M. destruct m as [|p|p]; try lia. cbn [binary_normalize].
  pose proof (binary_round_error false p e E) as H.
  pose proof (binary_round_sign false) as Sg.
  assert (U : 0 < units (Zpos p) e).
  { unfold units. apply Z.mul_pos_pos; [lia|]. apply Z.pow_pos_nonneg; lia. }
  change (2 ^ 53) with 9007199254740992 in H.
  destruct (binary_round 53 1024 false p e) as [s|s| |s m' e'] eqn:R.
  - destruct H as (R0 & Eq & H). simpl in Eq. subst R0. lia.
  - rewrite (Sg s p e R). split; [discriminate|]. simpl. lia.
  - destruct H as (R0 & Eq & H). simpl in Eq. subst R0. lia.
  - destruct H as (R0 & Eq & H). split; [discriminate|]. rewrite Eq. cbn [cond_Zopp]. lia.
Qed.

Lemma SFsub_positive (x y : spec_float) :
  valid_binary x = true -> valid_binary y = true ->
  x <> S754_nan -> y <> S754_nan -> SFord y < SFord x ->
  SFsub 53 1024 x y <> S754_nan /\ 0 < SFord (SFsub 53 1024 x y).
Proof.
  intros Vx Vy Nx Ny L.
  assert (P : 0 < 2 ^ 2100) by (apply Z.pow_pos_nonneg; lia).
  destruct x as [sx|sx| |sx mx ex], y as [sy|sy| |sy my ey]; try contradiction;
    cbn [SFsub].
  - simpl in L. lia.
  - cbn [SFord] in *. destruct sy; cbn [cond_Zopp negb] in *; [|lia].
    split; [discriminate | lia].
  - pose proof (finite_ord_bounds _ _ _ Vy) as B. cbn [SFord] in *.
    destruct sy; cbn [cond_Zopp negb] in *; [|lia]. split; [discriminate | lia].
  - cbn [SFord] in *. split; [discriminate | exact L].
  - cbn [SFord] in *. destruct sx, sy; cbn [cond_Zopp] in *; try lia.
    split; [discriminate|]. simpl. lia.
  - pose proof (finite_ord_bounds _ _ _ Vy) as B. cbn [SFord] in *.
    destruct sx; cbn [cond_Zopp] in *; [destruct sy; cbn [cond_Zopp] in *; lia|].
    split; [discriminate | lia].
  - cbn [SFord] in *. split; [discriminate | exact L].
  - pose proof (finite_ord_bounds _ _ _ Vx) as B. cbn [SFord] in *.
    destruct sy; cbn [cond_Zopp negb] in *; [|destruct sx; cbn [cond_Zopp] in *; lia].
    split; [discriminate | lia].
  - apply valid_finite in Vx as (Ex & _), Vy as (Ey & _).
    cbn zeta. set (ez := Z.min ex ey).
    assert (U : units (cond_Zopp sx (Zpos (fst (shl_align mx ex ez)))
                       - cond_Zopp sy (Zpos (fst (shl_align my ey ez)))) ez
                = cond_Zopp sx (Zpos mx * 2 ^ (ex + 1074))
                  - cond_Zopp sy (Zpos my * 2 ^ (ey + 1074))).
    { pose proof (aligned_units sx mx ex ez ltac:(lia) ltac:(lia)) as A.
      pose proof (aligned_units sy my ey ez ltac:(lia) ltac:(lia)) as B.
      unfold units in *. rewrite Z.mul_sub_distr_r, A, B. reflexivity. }
    apply binary_normalize_positive; [lia|].
    cbn [SFord] in L.
    set (m := cond_Zopp sx (Zpos (fst (shl_align mx ex ez)))
              - cond_Zopp sy (Zpos (fst (shl_align my ey ez)))) in *.
    assert (Pw : 0 < 2 ^ (ez + 1074)) by (apply Z.pow_pos_nonneg; lia).
    unfold units in U. nia.
Qed.

Lemma sub_positive (x y : float) :
  is_nan x = false -> is_nan y = false -> ord y < ord x ->
  is_nan (abs (x - y)) = false /\ 0 < ord (abs (x - y)).
Proof.
  intros Nx Ny L. unfold ord in *.
  destruct (SFsub_positive (Prim2SF x) (Prim2SF y) (Prim2SF_valid x) (Prim2SF_valid y)
              (not_nan x Nx) (not_nan y Ny) L) as (N & P).
  rewrite <- sub_spec in N, P.
  assert (A : Prim2SF (abs (x - y)) = SFabs (Prim2SF (x - y))) by apply abs_spec.
  split.
  - destruct (is_nan (abs (x - y))) eqn:E; [|reflexivity].
    apply is_nan_spec in E. rewrite A in E.
    destruct (Prim2SF (x - y)); try discriminate; contradiction.
  - rewrite A. destruct (Prim2SF (x - y)) as [s|s| |s m e]; cbn [SFabs SFord] in *;
      try lia; destruct s; cbn [cond_Zopp] in *; lia.
Qed.

Lemma spacing_values_positive (values : list float) (default : float) :
  no_nan values -> is_nan default = false -> 0 < ord default ->
  let res := if (1 <? List.length (sorted (unique values)))%nat
             then abs (nth 1 (sorted (unique values)) nan - nth 0 (sorted (unique values)) nan)
             else default in
  is_nan res = false /\ 0 < ord res.
Proof.
  intros N Nd Pd. pose proof (sorted_unique_head values N) as H.
  destruct (sorted (unique values)) as [|u0 [|u1 rest]]; cbn zeta;
    cbn [List.length Nat.ltb Nat.leb nth]; auto.
  destruct H as (I0 & I1 & L & _).
  apply sub_positive; auto.
Qed.

(** X12: on rows whose coordinates are numbers, both inferred spacings are
    greater than zero: two distinct binary64 numbers never have the
    difference zero, and the defaults are positive. *)
Theorem spacing_positive (df_land : list Row) :
  no_nan (map lat df_land) -> no_nan (map lon df_land) ->
  (0 <? lat_res_of df_land)%float = true /\ (0 <? lon_res_of df_land)%float = true.
Proof.
  intros Nlat Nlon.
  destruct (spacing_values_positive (map lat df_land) 0.5%float Nlat eq_refl eq_refl)
    as (A1 & A2).
  destruct (spacing_values_positive (map lon df_land) 0.625%float Nlon eq_refl eq_refl)
    as (B1 & B2).
  split; (rewrite ltb_ord; [apply Z.ltb_lt; assumption | reflexivity | assumption]).
Qed.

Lemma spacing_positive_witness :
  (0 <? lat_res_of close_table)%float = true /\ (0 <? lon_res_of close_table)%float = true.
Proof.
  apply spacing_positive; intros x [<-|[<-|[]]]; reflexivity.
Defined.

End Spacing.


(** ** Stage 2: running it again *)

Module Rerun.
Import WorldFacts GroupFacts Partitioner.

Lemma store_present (p : string) (f : File) (fs : list (string * File)) :
  lookup p fs = Some f -> store p f fs = fs.
Proof.
  induction fs as [|[q g] fs IH]; simpl; [discriminate|].
  destruct (String.eqb q p) eqn:E.
  - intros H. injection H as ->. reflexivity.
  - intros H. rewrite IH by exact H. reflexivity.
Qed.

Lemma store_all_present (es : list (string * File)) (fs : list (string * File)) :
  (forall p f, In (p, f) es -> lookup p fs = Some f) -> store_all es fs = fs.
Proof.
  unfold store_all. induction es as [|[p f] es IH]; intros H; [reflexivity|].
  cbn [fold_left fst snd]. rewrite store_present by (apply H; left; reflexivity).
  apply IH. intros q g I. apply H. right. exact I.
Qed.

(** X13: running the partitioner a second time on the same table leaves the
    files as the first run left them and returns the same table and list of
    files. *)
Theorem partition_rerun (df : list Row) (w : World) :
  files (snd (split_monthly_data df (snd (split_monthly_data df w))))
  = files (snd (split_monthly_data df w))
  /\ snd (fst (split_monthly_data df (snd (split_monthly_data df w))))
     = snd (fst (split_monthly_data df w))
  /\ fst (fst (split_monthly_data df (snd (split_monthly_data df w))))
     = fst (fst (split_monthly_data df w)).
Proof.
  rewrite !split_monthly_data_run. cbn [fst snd files]. split; [|split; reflexivity].
  apply store_all_present. intros p f I.
  apply lookup_store_all_in; [|exact I].
  apply monthly_entries_nodup. apply (groupby_grouped (with_year_month df)).
Qed.

End Rerun.


(** ** Stages 3 and 4: where the outputs go *)

Module Confinement.
Import PyStr PyStrFacts WorldFacts Polygonizer TileBuilder.
Local Open Scope string_scope.
Local Arguments Ascii.eqb : simpl never.

Lemma basename_no_sep (p : string) : has_char sep (basename p) = false.
Proof.
  induction p as [|c p IH]; [reflexivity|]. cbn [basename].
  destruct (has_char sep p) eqn:H; [exact IH|].
  destruct (Ascii.eqb c sep) eqn:E; [exact H|].
  cbn [has_char]. rewrite E, H. reflexivity.
Qed.

Lemma replace_aux_chars (c : ascii) (old new s : string) :
  has_char c new = false -> has_char c s = false ->
  forall k, has_char c (replace_aux old new k s) = false.
Proof.
  intros Hn. induction s as [|a s IH]; intros Hs k; [reflexivity|].
  cbn [has_char] in Hs. apply orb_false_iff in Hs as [Ha Hs].
  cbn [replace_aux]. destruct k as [|k]; [|apply IH; exact Hs].
  destruct (String.prefix old (String a s)).
  - rewrite has_char_app, Hn, IH by exact Hs. reflexivity.
  - cbn [has_char]. rewrite Ha, IH by exact Hs. reflexivity.
Qed.

Lemma derived_name_no_sep (p old ext : string) :
  has_char sep ext = false ->
  has_char sep (replace (basename p) old "" ++ ext) = false.
Proof.
  intros He. rewrite has_char_app, He. unfold replace.
  rewrite replace_aux_chars; [reflexivity | reflexivity | apply basename_no_sep].
Qed.

Lemma prefix_sep (n : string) :
  has_char sep n = false -> String.prefix (String sep "") n = false.
Proof.
  destruct n as [|a n]; [reflexivity|]. cbn [has_char]. intros H.
  apply orb_false_iff in H as [H _]. cbn [String.prefix].
  destruct (Ascii.ascii_dec sep a) as [E|E]; [|reflexivity].
  subst a. rewrite Ascii.eqb_refl in H. discriminate.
Qed.

Lemma join_directly_in (d n : string) :
  (String.eqb d "" || endswith_char d sep) = false ->
  has_char sep n = false -> directly_in d (join d n).
Proof.
  intros Hd Hn. exists n. split; [exact Hn|].
  unfold join, startswith. rewrite prefix_sep by exact Hn. rewrite Hd. reflexivity.
Qed.

Lemma geojson_file_in_output (csv_file : string) :
  directly_in OUTPUT_DIR (geojson_file_of csv_file).
Proof.
  apply join_directly_in; [reflexivity|]. apply derived_name_no_sep. reflexivity.
Qed.

Lemma mbtiles_file_in_output (geojson_file : string) :
  directly_in MBTILES_DIR (mbtiles_file_of geojson_file).
Proof.
  apply join_directly_in; [reflexivity|]. apply derived_name_no_sep. reflexivity.
Qed.

Section Loops.

Variable is_land : float -> float -> bool.
Variable subprocess_run : list string -> list (string * File) -> CompletedProcess + string.

Lemma create_geojsons_loop_frame (p : string) (monthly_files : list string) :
  forall (geojson_files : list string) (w : World),
  (forall csv_file, In csv_file monthly_files -> p <> geojson_file_of csv_file) ->
  lookup p (files (snd (create_geojsons_loop is_land monthly_files geojson_files w)))
  = lookup p (files w).
Proof.
  induction monthly_files as [|csv rest IH]; intros acc w N; [reflexivity|].
  cbn [create_geojsons_loop]. fold (geojson_file_of csv). unfold bind.
  rewrite csv_to_geojson_run. rewrite IH by (intros c I; apply N; right; exact I).
  cbn [files]. destruct (has_land is_land (files w) csv); [|reflexivity].
  apply lookup_store_other. apply N. left. reflexivity.
Qed.

Lemma create_mbtiles_loop_frame (p : string) (geojson_files : list string) :
  forall (mbtiles_files : list string) (w : World),
  (forall g, In g geojson_files -> p <> mbtiles_file_of g) ->
  lookup p (files (snd (create_mbtiles_loop subprocess_run geojson_files mbtiles_files w)))
  = lookup p (files w).
Proof.
  induction geojson_files as [|g rest IH]; intros acc w N; [reflexivity|].
  cbn [create_mbtiles_loop]. fold (mbtiles_file_of g). unfold bind.
  rewrite tippecanoe_run.
  destruct (tool_succeeds subprocess_run (files w) g (mbtiles_file_of g));
    cbn [print]; rewrite IH by (intros c I; apply N; right; exact I); cbn [files];
    [|reflexivity].
  apply lookup_store_other. apply N. left. reflexivity.
Qed.

Lemma create_geojsons_loop_names (monthly_files : list string) :
  forall (geojson_files : list string) (w : World) (g : string),
  In g (fst (create_geojsons_loop is_land monthly_files geojson_files w)) ->
  In g geojson_files \/ exists csv_file, In csv_file monthly_files /\ g = geojson_file_of csv_file.
Proof.
  induction monthly_files as [|csv rest IH]; intros acc w g; [simpl; auto|].
  cbn [create_geojsons_loop]. fold (geojson_file_of csv). unfold bind.
  rewrite csv_to_geojson_run. intros I. apply IH in I as [I|(c & I & E)].
  - destruct (has_land is_land (files w) csv); [|auto].
    apply in_app_or in I as [I|[<-|[]]]; [auto|]. right. exists csv. simpl. auto.
  - right. exists c. simpl. auto.
Qed.

Lemma create_mbtiles_loop_names (geojson_files : list string) :
  forall (mbtiles_files : list string) (w : World) (m : string),
  In m (fst (create_mbtiles_loop subprocess_run geojson_files mbtiles_files w)) ->
  In m mbtiles_files \/ exists g, In g geojson_files /\ m = mbtiles_file_of g.
Proof.
  induction geojson_files as [|g rest IH]; intros acc w m; [simpl; auto|].
  cbn [create_mbtiles_loop]. fold (mbtiles_file_of g). unfold bind.
  rewrite tippecanoe_run.
  destruct (tool_succeeds subprocess_run (files w) g (mbtiles_file_of g));
    cbn [print]; intros I; apply IH in I as [I|(c & I & E)].
  - apply in_app_or in I as [I|[<-|[]]]; [auto|]. right. exists g. simpl. auto.
  - right. exists c. simpl. auto.
  - auto.
  - right. exists c. simpl. auto.
Qed.

(** X14: whatever paths they are given, [create_geojsons] writes and returns
    only paths directly inside the output directory and [create_mbtiles] only
    paths directly inside the archive directory (the directory, one separator
    and a name without separator); every other path keeps its content, and no
    layer name holds a separator. *)
Theorem outputs_confined (files_in : list string) (w : World) (p : string) :
  (forall csv_file, directly_in OUTPUT_DIR (geojson_file_of csv_file))
  /\ (forall geojson_file, directly_in MBTILES_DIR (mbtiles_file_of geojson_file))
  /\ (forall mbtiles_file, has_char sep (layer_of mbtiles_file) = false)
  /\ (~ directly_in OUTPUT_DIR p ->
      lookup p (files (snd (create_geojsons is_land files_in w))) = lookup p (files w))
  /\ (~ directly_in MBTILES_DIR p ->
      lookup p (files (snd (create_mbtiles subprocess_run files_in w))) = lookup p (files w))
  /\ (forall g, In g (fst (create_geojsons is_land files_in w)) ->
        directly_in OUTPUT_DIR g)
  /\ (forall m, In m (fst (create_mbtiles subprocess_run files_in w)) ->
        directly_in MBTILES_DIR m).
Proof.
  split; [exact geojson_file_in_output|]. split; [exact mbtiles_file_in_output|].
  split; [intros f; unfold layer_of; apply derived_name_no_sep; reflexivity|].
  split; [|split; [|split]].
  - intros N. unfold create_geojsons, bind. cbn [print].
    match goal with |- context [create_geojsons_loop _ _ ?a ?x] =>
      pose proof (create_geojsons_loop_frame p files_in a x) as F;
      destruct (create_geojsons_loop is_land files_in a x) as [l w1] end.
    cbn [fst snd files] in *. apply F.
    intros c _ E. apply N. rewrite E. apply geojson_file_in_output.
  - intros N. unfold create_mbtiles, bind. cbn [print].
    match goal with |- context [create_mbtiles_loop _ _ ?a ?x] =>
      pose proof (create_mbtiles_loop_frame p files_in a x) as F;
      destruct (create_mbtiles_loop subprocess_run files_in a x) as [l w1] end.
    cbn [fst snd files] in *. apply F.
    intros c _ E. apply N. rewrite E. apply mbtiles_file_in_output.
  - intros g. unfold create_geojsons, bind. cbn [print].
    match goal with |- context [create_geojsons_loop _ _ ?a ?x] =>
      pose proof (create_geojsons_loop_names files_in a x g) as F;
      destruct (create_geojsons_loop is_land files_in a x) as [l w1] end.
    cbn [fst snd ret] in *. intros I. destruct (F I) as [[]|(c & _ & ->)].
    apply geojson_file_in_output.
  - intros m. unfold create_mbtiles, bind. cbn [print].
    match goal with |- context [create_mbtiles_loop _ _ ?a ?x] =>
      pose proof (create_mbtiles_loop_names files_in a x m) as F;
      destruct (create_mbtiles_loop subprocess_run files_in a x) as [l w1] end.
    cbn [fst snd ret] in *. intros I. destruct (F I) as [[]|(c & _ & ->)].
    apply mbtiles_file_in_output.
Qed.

End Loops.

End Confinement.

(** ** Stages 2 to 5: order and the run in which the tool always succeeds *)

Module Order.
Import WorldFacts GroupFacts TileBuilder Pipeline.

Section Stages2to5.

Variable is_land : float -> float -> bool.
Variable subprocess_run : list string -> list (string * File) -> CompletedProcess + string.

Lemma sorted_filter {A : Type} (R : A -> A -> Prop) (p : A -> bool) (l : list A) :
  StronglySorted R l -> StronglySorted R (filter p l).
Proof.
  induction 1 as [|x l S IH F]; simpl; [constructor|].
  destruct (p x); [|exact IH]. constructor; [exact IH|].
  apply Forall_forall. intros y I. apply filter_In in I as [I _].
  rewrite Forall_forall in F. apply F. exact I.
Qed.

Lemma archive_successes_sorted (ks : list (Z * Z)) :
  forall fs, StronglySorted key_lt ks ->
  StronglySorted key_lt (archive_successes subprocess_run fs ks).
Proof.
  induction ks as [|k ks IH]; intros fs S; cbn [archive_successes]; [constructor|].
  inversion S as [|? ? S' F]; subst.
  destruct (tool_succeeds subprocess_run fs (geojson_path k) (mbtiles_path k));
    [|apply IH; exact S'].
  constructor; [apply IH; exact S'|].
  apply Forall_forall. intros y I. apply archive_successes_incl in I.
  rewrite Forall_forall in F. apply F. exact I.
Qed.

Lemma land_months_sorted (df : list Row) : StronglySorted key_lt (land_months is_land df).
Proof.
  unfold land_months. apply sorted_filter.
  apply (groupby_grouped (with_year_month df)).
Qed.

(** X15: the lists stages 2 to 5 return are in ascending order of (year,
    month): the monthly files, the geometry documents of the months with a row
    on land among them, and the archives of the months among these whose run
    succeeded; the tool is started on the documents in that order, and the
    configuration lists the layers of the archives in that order. *)
Theorem artifacts_in_calendar_order (df : list Row) (w : World) :
  exists months land built : list (Z * Z),
    art_monthly (fst (stages_2_to_5 is_land subprocess_run df w)) = map monthly_path months
    /\ art_geojson (fst (stages_2_to_5 is_land subprocess_run df w)) = map geojson_path land
    /\ art_mbtiles (fst (stages_2_to_5 is_land subprocess_run df w)) = map mbtiles_path built
    /\ StronglySorted key_lt months /\ StronglySorted key_lt land
    /\ StronglySorted key_lt built
    /\ incl built land /\ incl land months
    /\ processes (snd (stages_2_to_5 is_land subprocess_run df w))
       = processes w
         ++ map (fun k => tippecanoe_cmd (geojson_path k) (mbtiles_path k)) land
    /\ (forall config,
          lookup config_file (files (snd (stages_2_to_5 is_land subprocess_run df w)))
          = Some (JSONConfig config) ->
          map fst (cfg_data config) = map layer_name built).
Proof.
  destruct (stages_run is_land subprocess_run df w) as (A1 & A2 & (fs3 & A3 & F) & _ & P).
  exists (map fst (groupby (with_year_month df))), (land_months is_land df),
    (archive_successes subprocess_run fs3 (land_months is_land df)).
  split; [exact A1|]. split; [exact A2|]. split; [exact A3|].
  split; [apply (groupby_grouped (with_year_month df))|].
  split; [apply land_months_sorted|].
  split; [apply archive_successes_sorted, land_months_sorted|].
  split; [intros k; apply archive_successes_incl|].
  split; [intros k I; unfold land_months in I; apply filter_In in I as [I _]; exact I|].
  split; [exact P|].
  intros config L. rewrite F, lookup_store_same in L. injection L as <-.
  rewrite A3, Run.config_of_months, map_map; [reflexivity|].
  apply archive_successes_nodup, land_months_nodup.
Qed.

Section AlwaysSucceeds.

Hypothesis succeeds :
  forall cmd fs, exists result, subprocess_run cmd fs = inl result /\ returncode result = 0.

Lemma archive_successes_all (ks : list (Z * Z)) :
  forall fs, archive_successes subprocess_run fs ks = ks.
Proof.
  induction ks as [|k ks IH]; intros fs; [reflexivity|]. cbn [archive_successes].
  unfold tool_succeeds.
  destruct (succeeds (tippecanoe_cmd (geojson_path k) (mbtiles_path k)) fs) as (r & -> & ->).
  cbn [Z.eqb]. rewrite IH. reflexivity.
Qed.

(** X16: when every run of the tool exits with status zero, stages 2 to 5
    build an archive for exactly the months that have a row on land, each
    archive is in place at the end, and the configuration has one entry for
    each of these months, in order. *)
Theorem tool_always_succeeds (df : list Row) (w : World) :
  art_mbtiles (fst (stages_2_to_5 is_land subprocess_run df w))
  = map mbtiles_path (land_months is_land df)
  /\ (forall k, In k (land_months is_land df) ->
        lookup (mbtiles_path k) (files (snd (stages_2_to_5 is_land subprocess_run df w)))
        = Some MBTiles)
  /\ lookup config_file (files (snd (stages_2_to_5 is_land subprocess_run df w)))
     = Some (JSONConfig (tileserver_config (map mbtiles_path (land_months is_land df))))
  /\ cfg_data (tileserver_config (map mbtiles_path (land_months is_land df)))
     = map (fun k => (layer_name k, (stem k ++ "_land.mbtiles")%string))
         (land_months is_land df)
  /\ (forall k, In k (land_months is_land df)
                <-> exists row, In row df /\ key_of row = k
                                /\ is_land (lat row) (lon row) = true).
Proof.
  destruct (stages_run is_land subprocess_run df w) as (_ & _ & (fs3 & A3 & F) & _).
  rewrite archive_successes_all in A3, F.
  split; [exact A3|]. split; [|split; [|split]].
  - intros k I. rewrite F.
    rewrite lookup_store_other by (intros E; exact (Run.config_not_mbtiles _ (eq_sym E))).
    apply lookup_store_all_in.
    + rewrite map_map. apply (nodup_map_inj mbtiles_path); [apply PyStrFacts.mbtiles_path_inj|].
      apply land_months_nodup.
    + apply in_map_iff. exists k. split; [reflexivity | exact I].
  - rewrite F, A3. apply lookup_store_same.
  - apply Run.config_of_months, land_months_nodup.
  - intros k. apply land_months_spec.
Qed.

End AlwaysSucceeds.

End Stages2to5.

Lemma tool_always_succeeds_witness :
  art_mbtiles (fst (stages_2_to_5 example_land tool_ok example_table empty_world))
  = map mbtiles_path (land_months example_land example_table).
Proof.
  destruct (tool_always_succeeds example_land tool_ok
              (fun cmd fs => ex_intro _ _ (conj eq_refl eq_refl))
              example_table empty_world) as (A & _).
  exact A.
Defined.

End Order.

(** ** Stage 1: a time axis with a repeated label *)

Module Labels.
Import WorldFacts Fetcher Pipeline.

Lemma repeated_label_download (open_dataset : string -> Dataset + string)
  (ds : Dataset) (w : World) :
  open_dataset ZARR_URL = inl ds ->
  is_unique (map fst ds) = false ->
  fst (download_humidity_data open_dataset w) = None.
Proof.
  intros O U. rewrite download_run, O. cbn zeta. rewrite U.
  destruct (is_empty _); reflexivity.
Qed.

(** X17: on a store whose time axis repeats a label the fetcher returns no
    table and writes no file: with no label in the range it fails as on any
    such store, and with one it reports the timestamps found and then the
    error of the selection, which pandas refuses on an index that is not
    unique; the pipeline then stops after stage 1 and changes no file, no
    directory and no process. *)
Theorem repeated_label_aborts (open_dataset : string -> Dataset + string)
  (is_land : float -> float -> bool)
  (subprocess_run : list string -> list (string * File) -> CompletedProcess + string)
  (ds : Dataset) (w : World) :
  open_dataset ZARR_URL = inl ds ->
  is_unique (map fst ds) = false ->
  fst (download_humidity_data open_dataset w) = None
  /\ files (snd (download_humidity_data open_dataset w)) = files w
  /\ (existsb time_filter (map fst ds) = true ->
      exists out,
        stdout (snd (download_humidity_data open_dataset w))
        = out ++ [FoundTimestamps (List.length (filter time_filter (map fst ds)));
                  Line "Extracting humidity data...";
                  ErrorDownloading
                    "Reindexing only valid with uniquely valued Index objects"])
  /\ files (snd (run_complete_pipeline open_dataset is_land subprocess_run w)) = files w
  /\ dirs (snd (run_complete_pipeline open_dataset is_land subprocess_run w)) = dirs w
  /\ processes (snd (run_complete_pipeline open_dataset is_land subprocess_run w))
     = processes w
  /\ exists out,
       stdout (snd (run_complete_pipeline open_dataset is_land subprocess_run w))
       = out ++ [Line "Pipeline failed at data download step"].
Proof.
  intros O U.
  pose proof (repeated_label_download open_dataset ds) as N.
  split; [apply N; assumption|].
  split; [apply download_projections, N; assumption|]. split.
  - intros X. rewrite download_run, O. cbn zeta. rewrite U, (filter_some _ _ X).
    cbn [negb snd stdout].
    exists (stdout w ++ [Line "[STEP 1] Downloading NASA POWER RH2M Data";
                         Line "----------------------------------------";
                         Line "Opening remote Zarr store...";
                         Line "Remote Zarr store opened successfully";
                         Line "Filtering time range..."]).
    rewrite <- List.app_assoc. reflexivity.
  - rewrite run_complete_pipeline_stages. unfold bind. cbn [print].
    match goal with |- context [download_humidity_data open_dataset ?x] =>
      pose proof (N x O U) as Nx;
      destruct (download_projections open_dataset x) as (D & P & F);
      destruct (download_humidity_data open_dataset x) as [d w1] end.
    cbn [fst snd dirs files stdout processes] in *. subst d.
    cbn [snd dirs files stdout processes].
    split; [exact (F eq_refl)|]. split; [exact D|]. split; [exact P|].
    eexists. reflexivity.
Qed.

Lemma repeated_label_aborts_witness :
  fst (download_humidity_data (fun _ => inl store_repeated) empty_world) = None
  /\ files (snd (run_complete_pipeline (fun _ => inl store_repeated) example_land tool_ok
                   empty_world)) = [].
Proof.
  destruct (repeated_label_aborts (fun _ => inl store_repeated) example_land tool_ok
              store_repeated empty_world eq_refl eq_refl) as (A & _ & _ & B & _).
  split; [exact A | exact B].
Defined.

End Labels.
